(** * GridWorld: a shallow embedding of [environments/grid_world.py]

    The Python class [GridWorld] is embedded method by method.  Python
    integers are [Z]; a float is the rational [Q] that the double denotes,
    and the float arithmetic of the class (the drift probability of the
    constructor) and of [np.random.choice] rounds every result to the
    nearest double, as IEEE 754 does; tuples [(x, y)] are pairs, Python
    lists are [list] with the indexing discipline of Python (negative
    indices wrap once, anything else raises [IndexError]), and the [set] of
    barrier indices is a [gset Z].

    Methods that can raise return a [result]; the ambient numpy random
    generator is an explicit tape of uniform variates that is threaded
    through [reset], [step] and the constructor. *)

From Stdlib Require Import ZArith QArith Qround Qabs Qpower Lia Lqa.
From stdpp Require Import base list strings gmap.

Open Scope Z_scope.

(** ** Exceptions and results *)

Inductive exception : Type :=
  | AssertionError (msg : string)
  | IndexError
  | ValueError
  | ZeroDivisionError
  | AttributeError.

(** [Exhausted] is not a Python outcome: it says that the random tape handed
    to the model ended before the code stopped drawing from it. *)
Inductive result (A : Type) : Type :=
  | Ok (a : A)
  | Raise (e : exception)
  | Exhausted.

Arguments Ok {A} a.
Arguments Raise {A} e.
Arguments Exhausted {A}.

#[global] Instance result_ret : MRet result := fun A a => Ok a.

#[global] Instance result_bind : MBind result := fun A B f m =>
  match m with
  | Ok a => f a
  | Raise e => Raise e
  | Exhausted => Exhausted
  end.

Definition py_assert (b : bool) (msg : string) : result unit :=
  if b then Ok tt else Raise (AssertionError msg).

(** ** Python sequences *)

(** The position a Python index denotes in a sequence of length [n]. *)
Definition py_index (n : nat) (i : Z) : result nat :=
  if bool_decide (0 <= i < Z.of_nat n) then Ok (Z.to_nat i)
  else if bool_decide (- Z.of_nat n <= i < 0) then Ok (Z.to_nat (Z.of_nat n + i))
  else Raise IndexError.

(** [l[i]] *)
Definition py_getitem {A} (l : list A) (i : Z) : result A :=
  k ← py_index (length l) i;
  match l !! k with
  | Some a => Ok a
  | None => Raise IndexError
  end.

(** [l[i] = v] *)
Definition py_setitem {A} (l : list A) (i : Z) (v : A) : result (list A) :=
  k ← py_index (length l) i;
  Ok (<[k := v]> l).

(** [range(n)] *)
Definition py_range (n : Z) : list Z := seqZ 0 n.

(** [[v] * n]: a non-positive count gives the empty list. *)
Definition py_repeat {A} (v : A) (n : Z) : list A := replicate (Z.to_nat n) v.

Definition Qltb (a b : Q) : bool := negb (Qle_bool b a).

Definition Qsum (l : list Q) : Q := foldr Qplus 0%Q l.

(** ** Floats *)

(** A Python float is an IEEE 754 binary64 number: zero, or plus or minus
    [n * 2 ^ k] with [n < 2 ^ 53] and [-1074 <= k].  A float is embedded as
    the rational it denotes, and an operation on floats returns the exact
    result rounded to the nearest double, ties going to the even one.
    Infinities, NaN and the sign of zero have no counterpart: the
    constructor refuses a probability outside [0, 1] (a NaN fails the same
    assertion), and the numbers computed from an accepted one stay far
    below the largest double.  The doubles are the rationals that
    [py_float] returns and leaves as they are; a float argument such as
    [proba] ranges over all of [Q], the doubles among them. *)

Definition pow2 (e : Z) : Q := (2 ^ e)%Q.

(** The exponent [e] with [2 ^ e <= x < 2 ^ (e + 1)], for a positive [x]:
    the difference of the bit lengths of numerator and denominator, or one
    less. *)
Definition binade (x : Q) : Z :=
  let e := Z.log2 (Qnum x) - Z.log2 (Z.pos (Qden x)) in
  if Qle_bool (pow2 e) x then e else e - 1.

(** The nearest integer, the even one of two that are equally near. *)
Definition round_half_even (m : Q) : Z :=
  let f := Qfloor m in
  match (m - inject_Z f ?= 1 # 2)%Q with
  | Lt => f
  | Gt => f + 1
  | Eq => if Z.even f then f else f + 1
  end.

(** The doubles from [2 ^ e] to [2 ^ (e + 1)] are the multiples of
    [2 ^ (e - 52)]; below the normal range they are the multiples of
    [2 ^ -1074]. *)
Definition quantum (x : Q) : Z := Z.max (binade x - 52) (-1074).

Definition round_positive (x : Q) : Q :=
  let q := quantum x in
  Qred (inject_Z (round_half_even (x / pow2 q)) * pow2 q).

(** The double nearest to [x]: [float(x)] for an integer or a decimal
    literal [x], and the rounding that ends every float operation. *)
Definition py_float (x : Q) : Q :=
  match (x ?= 0)%Q with
  | Eq => 0%Q
  | Gt => round_positive x
  | Lt => (- round_positive (- x))%Q
  end.

Arguments py_float : simpl never.

(** [a + b], [a - b] and [a / b] on floats.  [a / b] is only used where
    the divisor is not zero: the constructor divides after the test of
    [n - 2], numpy by a total that the sum check keeps away from zero. *)
Definition float_add (a b : Q) : Q := py_float (a + b).
Definition float_sub (a b : Q) : Q := py_float (a - b).
Definition float_div (a b : Q) : Q := py_float (a / b).

Arguments float_add : simpl never.
Arguments float_sub : simpl never.
Arguments float_div : simpl never.

(** ** The numpy random generator *)

(** The generator state is the tape of uniform variates still to be handed
    out; whatever rational stands on the tape is read modulo 1. *)
Definition RandomState : Type := list Q.

Definition frac (u : Q) : Q := (u - inject_Z (Qfloor u))%Q.

Definition random_sample (rng : RandomState) : result (Q * RandomState) :=
  match rng with
  | [] => Exhausted
  | u :: rng' => Ok (frac u, rng')
  end.

(** [np.random.randint(n)]: uniform on [0, n). *)
Definition randint (n : Z) (rng : RandomState) : result (Z * RandomState) :=
  if bool_decide (n <= 0) then Raise ValueError
  else
    '(u, rng') ← random_sample rng;
    Ok (Qfloor (u * inject_Z n), rng').

(** [kahan_sum] of numpy's [mtrand]: the compensated sum of a double
    array, [darr[0]] first. *)
Fixpoint kahan_loop (darr : list Q) (sum c : Q) : Q :=
  match darr with
  | [] => sum
  | x :: darr' =>
      let y := float_sub x c in
      let t := float_add sum y in
      kahan_loop darr' t (float_sub (float_sub t sum) y)
  end.

Definition kahan_sum (darr : list Q) : Q :=
  match darr with
  | [] => 0%Q
  | x :: darr' => kahan_loop darr' x 0%Q
  end.

(** [p.cumsum()]: the running sums, each addition rounded. *)
Fixpoint cumsum_from (acc : Q) (p : list Q) : list Q :=
  match p with
  | [] => []
  | x :: p' => float_add acc x :: cumsum_from (float_add acc x) p'
  end.

Definition cumsum (p : list Q) : list Q :=
  match p with
  | [] => []
  | x :: p' => x :: cumsum_from x p'
  end.

(** [cdf.searchsorted(u, side='right')]: the position [i] with
    [cdf[i-1] <= u < cdf[i]], the first entry of [cdf] above [u]. *)
Fixpoint searchsorted (cdf : list Q) (u : Q) : nat :=
  match cdf with
  | [] => 0%nat
  | c :: cdf' => if Qltb u c then 0%nat else S (searchsorted cdf' u)
  end.

(** [np.sqrt(np.finfo(np.float64).eps)], the tolerance of the sum check. *)
Definition atol : Q := pow2 (-26).

(** [np.random.choice(a, p=p)]: [p] is converted to an array of doubles,
    must be as long as [a], free of negative entries and sum to one within
    [atol]; the draw looks a uniform variate up in the normalised running
    sums. *)
Definition choice (a : list Z) (p : list Q) (rng : RandomState)
  : result (Z * RandomState) :=
  if bool_decide (a = []) then Raise ValueError
  else
    let p := py_float <$> p in
    if negb (bool_decide (length a = length p)) then Raise ValueError
    else if negb (forallb (Qle_bool 0) p) then Raise ValueError
    else if Qltb atol (Qabs (float_sub (kahan_sum p) 1)) then Raise ValueError
    else
      let cdf := cumsum p in
      total ← py_getitem cdf (-1);
      let cdf := (fun c => float_div c total) <$> cdf in
      '(u, rng') ← random_sample rng;
      match a !! searchsorted cdf u with
      | Some x => Ok (x, rng')
      | None => Raise IndexError
      end.

(** ** Reward distributions *)

(** The class [StochasticReward] comes from the module [stochastic_reward],
    which is not among the sources; the grid code is embedded over any
    reward class [R] that offers what it calls: the constructor
    ([StochasticReward(v, deterministic=d, mean=m)]), the four queries
    [sample], [expected_value], [expected_value_squared] and [variance],
    the order that [np.unique] sorts with and the equality behind
    [weights == reward]. *)
Class RewardDistribution (R : Type) : Type := {
  (** [StochasticReward(values, deterministic=d, mean=m)] *)
  StochasticReward : option Q -> bool -> Q -> R;
  (** [r.sample()], a sequence of draws *)
  sample : R -> RandomState -> result (list Q * RandomState);
  expected_value : R -> Q;
  expected_value_squared : R -> Q;
  variance : R -> Q;
  (** [r1 < r2] *)
  reward_ltb : R -> R -> bool;
  (** [r1 == r2] *)
  reward_eqb : R -> R -> bool;
  (** [x == r] for a float [x] *)
  reward_eqb_float : Q -> R -> bool;
}.

(** Modelled from the spec: what the spec says of deterministic reward
    objects, the only ones the grid code builds itself.  A deterministic
    reward is a point mass at its mean, and the weight vector of the second
    task mode lists "sorted distinct reward values": reward objects are
    ordered and identified by their value. *)
Class DeterministicRewards (R : Type) `{RewardDistribution R} : Prop := {
  expected_value_deterministic v m :
    expected_value (StochasticReward v true m) = m;
  reward_ltb_deterministic v1 m1 v2 m2 :
    reward_ltb (StochasticReward v1 true m1) (StochasticReward v2 true m2)
    = Qltb m1 m2;
  reward_eqb_deterministic v1 m1 v2 m2 :
    reward_eqb (StochasticReward v1 true m1) (StochasticReward v2 true m2)
    = Qeq_bool m1 m2;
}.

(** A concrete reward class: point masses only. *)
Record PointMass : Type := {
  pm_values : option Q;
  pm_deterministic : bool;
  pm_mean : Q;
}.

#[global] Instance PointMass_reward : RewardDistribution PointMass := {
  StochasticReward v d m :=
    {| pm_values := v; pm_deterministic := d; pm_mean := m |};
  sample r rng := Ok ([pm_mean r], rng);
  expected_value r := pm_mean r;
  expected_value_squared r := (pm_mean r * pm_mean r)%Q;
  variance r := 0%Q;
  reward_ltb r1 r2 := Qltb (pm_mean r1) (pm_mean r2);
  reward_eqb r1 r2 := Qeq_bool (pm_mean r1) (pm_mean r2);
  reward_eqb_float x r := Qeq_bool x (pm_mean r);
}.

(** ** The environment *)

Definition Coordinate : Type := Z * Z.

(** An entry of a weight vector: [np.zeros] contributes floats, [np.unique]
    of the reward grid contributes reward objects. *)
Inductive Weight (R : Type) : Type :=
  | WFloat (q : Q)
  | WReward (r : R).

Arguments WFloat {R} q.
Arguments WReward {R} r.

(** One entry of [self.transitions]:
    [(current_state, sampled_action, reward, new_state, done)]. *)
Record Transition : Type := {
  tr_state : Coordinate;
  tr_action : Z;
  tr_reward : Q;
  tr_next_state : Coordinate;
  tr_done : bool;
}.

(** The [rewards] argument of the constructor: a 2D grid of numbers or a
    grid of ready-made distribution objects. *)
Inductive RewardsArg (R : Type) : Type :=
  | NumericGrid (grid : list (list Q))
  | ObjectGrid (grid : list (list R)).

Arguments NumericGrid {R} grid.
Arguments ObjectGrid {R} grid.

Definition UP : Z := 0.
Definition RIGHT : Z := 1.
Definition DOWN : Z := 2.
Definition LEFT : Z := 3.

Definition VARYING_BLOCKS : string := "Varying Blocks, Same Values".
Definition VARYING_VALUES : string := "Same Blocks, Varying Values".

(** The attributes of a [GridWorld] object.  [distinct_rewards] is [None]
    while the attribute is unset (the constructor sets it for the second
    task only). *)
Record GridWorld (R : Type) : Type := {
  height : Z;
  width : Z;
  actions : list Z;
  n_states : Z;
  n_actions : Z;
  transition_probabilities : list Q;
  terminal_states : list Coordinate;
  barrier_states : list Coordinate;
  initial_state : option Coordinate;
  rewards : list (list R);
  expected_rewards : list (list Q);
  encoded_state : Z;
  state : Coordinate;
  transitions : list Transition;
  task : string;
  distinct_rewards : option Z;
  weights : list (Weight R);
  n_weights : Z;
  barrier_set : gset Z;
  danger_sets : list (gset Z);
}.

Arguments height {R} _.
Arguments width {R} _.
Arguments actions {R} _.
Arguments n_states {R} _.
Arguments n_actions {R} _.
Arguments transition_probabilities {R} _.
Arguments terminal_states {R} _.
Arguments barrier_states {R} _.
Arguments initial_state {R} _.
Arguments rewards {R} _.
Arguments expected_rewards {R} _.
Arguments encoded_state {R} _.
Arguments state {R} _.
Arguments transitions {R} _.
Arguments task {R} _.
Arguments distinct_rewards {R} _.
Arguments weights {R} _.
Arguments n_weights {R} _.
Arguments barrier_set {R} _.
Arguments danger_sets {R} _.

(** The constructor's parameters, [None] for an omitted optional one. *)
Record Params (R : Type) : Type := {
  p_height : Z;
  p_width : option Z;
  p_actions : option (list Z);
  p_rewards : option (RewardsArg R);
  p_proba : Q;
  p_terminal_states : option (list Coordinate);
  p_barrier_states : option (list Coordinate);
  p_initial_state : option Coordinate;
  p_task : option string;
  p_distinct_rewards : Z;
}.

Arguments p_height {R} _.
Arguments p_width {R} _.
Arguments p_actions {R} _.
Arguments p_rewards {R} _.
Arguments p_proba {R} _.
Arguments p_terminal_states {R} _.
Arguments p_barrier_states {R} _.
Arguments p_initial_state {R} _.
Arguments p_task {R} _.
Arguments p_distinct_rewards {R} _.

Section GridWorld.

Context {R : Type} `{RewardDistribution R}.

(** Assignments to the attributes that change after the first part of the
    constructor. *)
Definition set_episode (self : GridWorld R) (enc : Z) (st : Coordinate)
    (trs : list Transition) : GridWorld R :=
  {| height := height self; width := width self; actions := actions self;
     n_states := n_states self; n_actions := n_actions self;
     transition_probabilities := transition_probabilities self;
     terminal_states := terminal_states self;
     barrier_states := barrier_states self;
     initial_state := initial_state self;
     rewards := rewards self; expected_rewards := expected_rewards self;
     encoded_state := enc; state := st; transitions := trs;
     task := task self; distinct_rewards := distinct_rewards self;
     weights := weights self; n_weights := n_weights self;
     barrier_set := barrier_set self; danger_sets := danger_sets self |}.

Definition set_task (self : GridWorld R) (t : string) (dr : option Z)
    : GridWorld R :=
  {| height := height self; width := width self; actions := actions self;
     n_states := n_states self; n_actions := n_actions self;
     transition_probabilities := transition_probabilities self;
     terminal_states := terminal_states self;
     barrier_states := barrier_states self;
     initial_state := initial_state self;
     rewards := rewards self; expected_rewards := expected_rewards self;
     encoded_state := encoded_state self; state := state self;
     transitions := transitions self;
     task := t; distinct_rewards := dr;
     weights := weights self; n_weights := n_weights self;
     barrier_set := barrier_set self; danger_sets := danger_sets self |}.

Definition set_weights (self : GridWorld R) (ws : list (Weight R)) (n : Z)
    : GridWorld R :=
  {| height := height self; width := width self; actions := actions self;
     n_states := n_states self; n_actions := n_actions self;
     transition_probabilities := transition_probabilities self;
     terminal_states := terminal_states self;
     barrier_states := barrier_states self;
     initial_state := initial_state self;
     rewards := rewards self; expected_rewards := expected_rewards self;
     encoded_state := encoded_state self; state := state self;
     transitions := transitions self;
     task := task self; distinct_rewards := distinct_rewards self;
     weights := ws; n_weights := n;
     barrier_set := barrier_set self; danger_sets := danger_sets self |}.

Definition set_barrier_set (self : GridWorld R) (bs : gset Z)
    (ds : list (gset Z)) : GridWorld R :=
  {| height := height self; width := width self; actions := actions self;
     n_states := n_states self; n_actions := n_actions self;
     transition_probabilities := transition_probabilities self;
     terminal_states := terminal_states self;
     barrier_states := barrier_states self;
     initial_state := initial_state self;
     rewards := rewards self; expected_rewards := expected_rewards self;
     encoded_state := encoded_state self; state := state self;
     transitions := transitions self;
     task := task self; distinct_rewards := distinct_rewards self;
     weights := weights self; n_weights := n_weights self;
     barrier_set := bs; danger_sets := ds |}.

(** *** State handling *)

Definition encode_state (self : GridWorld R) (state : Coordinate) : Z :=
  let '(x, y) := state in x * width self + y.

Definition decode_state (self : GridWorld R) (encoded_state : Z) : Coordinate :=
  let x := encoded_state `div` width self in
  let y := encoded_state `mod` width self in
  (x, y).

Definition is_terminal_state (self : GridWorld R) (state : Coordinate) : bool :=
  bool_decide (state ∈ terminal_states self).

(** The rejection loop of [reset]; every turn takes two variates from the
    tape, so [fuel] beyond the length of the tape is never used up. *)
Fixpoint reset_loop (fuel : nat) (self : GridWorld R) (rng : RandomState)
    : result (Coordinate * RandomState) :=
  match fuel with
  | O => Exhausted
  | S fuel' =>
      '(x, rng1) ← randint (width self) rng;
      '(y, rng2) ← randint (height self) rng1;
      if bool_decide ((x, y) ∉ terminal_states self) then Ok ((x, y), rng2)
      else reset_loop fuel' self rng2
  end.

Definition reset (self : GridWorld R) (rng : RandomState)
    : result (Z * GridWorld R * RandomState) :=
  '(st, rng') ←
    match initial_state self with
    | Some s => Ok (s, rng)
    | None => reset_loop (S (length rng)) self rng
    end;
  let enc := encode_state self st in
  Ok (enc, set_episode self enc st [], rng').

(** *** Reward queries *)

(** [self.rewards[next_state[1]][next_state[0]]] *)
Definition get_reward (self : GridWorld R) (state : Coordinate) (action : Z)
    (next_state : Coordinate) : result R :=
  row ← py_getitem (rewards self) (snd next_state);
  py_getitem row (fst next_state).

Definition get_sampled_reward (self : GridWorld R) (state : Coordinate)
    (action : Z) (next_state : Coordinate) (rng : RandomState)
    : result (Q * RandomState) :=
  row ← py_getitem (rewards self) (snd next_state);
  r ← py_getitem row (fst next_state);
  '(draws, rng') ← sample r rng;
  v ← py_getitem draws 0;
  Ok (v, rng').

Definition get_expected_reward (self : GridWorld R) (state : Coordinate)
    (action : Z) (next_state : Coordinate) : result Q :=
  row ← py_getitem (rewards self) (snd next_state);
  r ← py_getitem row (fst next_state);
  Ok (expected_value r).

Definition get_expected_reward_squared (self : GridWorld R)
    (state : Coordinate) (action : Z) (next_state : Coordinate) : result Q :=
  row ← py_getitem (rewards self) (snd next_state);
  r ← py_getitem row (fst next_state);
  Ok (expected_value_squared r).

Definition get_reward_variance (self : GridWorld R) (state : Coordinate)
    (action : Z) (next_state : Coordinate) : result Q :=
  row ← py_getitem (rewards self) (snd next_state);
  r ← py_getitem row (fst next_state);
  Ok (variance r).

(** *** Successor features *)

(** [np.unique] of an object array: sort with [<], then keep every entry
    that differs ([!=]) from the entry before it. *)
Fixpoint insert_sorted (r : R) (l : list R) : list R :=
  match l with
  | [] => [r]
  | x :: l' => if reward_ltb x r then x :: insert_sorted r l' else r :: l
  end.

Definition np_sort (l : list R) : list R := foldr insert_sorted [] l.

Fixpoint drop_repeats (prev : R) (l : list R) : list R :=
  match l with
  | [] => []
  | x :: l' =>
      if reward_eqb x prev then drop_repeats x l' else x :: drop_repeats x l'
  end.

Definition np_unique (grid : list (list R)) : list R :=
  match np_sort (concat grid) with
  | [] => []
  | x :: l => x :: drop_repeats x l
  end.

(** [np.zeros(n)] *)
Definition np_zeros (n : Z) : list Q := py_repeat 0%Q n.

(** The shape of a 2D array built from nested lists; ragged input has no
    2D shape. *)
Definition np_shape {A} (grid : list (list A)) : option (Z * Z) :=
  match grid with
  | [] => None
  | row :: _ =>
      if forallb (fun r => bool_decide (length r = length row)) grid
      then Some (Z.of_nat (length grid), Z.of_nat (length row))
      else None
  end.

(** The loop of the first task mode:
    [weights[state] = self.expected_rewards[y][x]] for every state. *)
Fixpoint fill_weights (self : GridWorld R) (states : list Z) (ws : list Q)
    : result (list Q) :=
  match states with
  | [] => Ok ws
  | s :: states' =>
      let '(x, y) := decode_state self s in
      row ← py_getitem (expected_rewards self) y;
      v ← py_getitem row x;
      ws' ← py_setitem ws s v;
      fill_weights self states' ws'
  end.

Definition get_weights (self : GridWorld R) : result (list (Weight R)) :=
  if String.eqb (task self) VARYING_VALUES then
    let ws := np_unique (rewards self) in
    match distinct_rewards self with
    | None => Raise AttributeError
    | Some d =>
        if bool_decide (Z.of_nat (length ws) < d)
        then Ok ((WFloat <$> np_zeros (d - Z.of_nat (length ws)))
                 ++ (WReward <$> ws) : list (Weight R))
        else Ok (WReward <$> ws : list (Weight R))
    end
  else
    match np_shape (expected_rewards self) with
    | None => Raise IndexError
    | Some (rows, cols) =>
        ws ← fill_weights self (py_range (n_states self))
                          (np_zeros (rows * cols));
        Ok (WFloat <$> ws : list (Weight R))
    end.

(** [w == reward] for one entry [w] of the weight array. *)
Definition weight_eqb (w : Weight R) (reward : R) : bool :=
  match w with
  | WFloat q => reward_eqb_float q reward
  | WReward r => reward_eqb r reward
  end.

Definition get_feature_vector (self : GridWorld R) (state : Coordinate)
    (action : Z) (next_state : Coordinate) : result (list Q) :=
  if String.eqb (task self) VARYING_VALUES then
    reward ← get_reward self state action next_state;
    Ok ((fun w => if weight_eqb w reward then 1%Q else 0%Q) <$> weights self)
  else
    py_setitem (np_zeros (n_weights self)) (encode_state self next_state) 1%Q.

(** *** Agent movement *)

Definition move_agent (self : GridWorld R) (action : Z) : Coordinate :=
  let '(x, y) := state self in
  if bool_decide (action = UP) && bool_decide (y < height self - 1)
     && bool_decide ((x, y + 1) ∉ barrier_states self)
  then (x, y + 1)
  else if bool_decide (action = DOWN) && bool_decide (y > 0)
     && bool_decide ((x, y - 1) ∉ barrier_states self)
  then (x, y - 1)
  else if bool_decide (action = LEFT) && bool_decide (x > 0)
     && bool_decide ((x - 1, y) ∉ barrier_states self)
  then (x - 1, y)
  else if bool_decide (action = RIGHT) && bool_decide (x < width self - 1)
     && bool_decide ((x + 1, y) ∉ barrier_states self)
  then (x + 1, y)
  else (x, y).

(** [a % n], which raises for [n = 0]. *)
Definition py_mod (a n : Z) : result Z :=
  if bool_decide (n = 0) then Raise ZeroDivisionError else Ok (a `mod` n).

Definition set_action_probabilities (self : GridWorld R) (action : Z)
    : result (list Q) :=
  let probabilities := py_repeat 0%Q (n_actions self) in
  i_right ← py_mod (action + 1) (n_actions self);
  right_action ← py_getitem (actions self) i_right;
  i_left ← py_mod (action - 1) (n_actions self);
  left_action ← py_getitem (actions self) i_left;
  i_down ← py_mod (action + 2) (n_actions self);
  down_action ← py_getitem (actions self) i_down;
  p0 ← py_getitem (transition_probabilities self) 0;
  probabilities ← py_setitem probabilities action p0;
  p1 ← py_getitem (transition_probabilities self) 1;
  probabilities ← py_setitem probabilities right_action p1;
  p2 ← py_getitem (transition_probabilities self) 2;
  probabilities ← py_setitem probabilities left_action p2;
  p3 ← py_getitem (transition_probabilities self) 3;
  probabilities ← py_setitem probabilities down_action p3;
  Ok probabilities.

(** What [step] hands back: [(encoded_state, reward, done, {})]; the empty
    dictionary is left out. *)
Definition step (self : GridWorld R) (input_action : Z) (rng : RandomState)
    : result (Z * Q * bool * GridWorld R * RandomState) :=
  let current_state := state self in
  probabilities ← set_action_probabilities self input_action;
  let actions := py_range (n_actions self) in
  '(sampled_action, rng1) ← choice actions probabilities rng;
  let new_state := move_agent self sampled_action in
  '(reward, rng2) ←
    get_sampled_reward self current_state sampled_action new_state rng1;
  let done := is_terminal_state self new_state in
  let enc := encode_state self new_state in
  let record :=
    {| tr_state := current_state; tr_action := sampled_action;
       tr_reward := reward; tr_next_state := new_state; tr_done := done |} in
  Ok (enc, reward, done,
      set_episode self enc new_state (transitions self ++ [record]), rng2).

(** *** Construction *)

(** [0 <= state[0] < self.width and 0 <= state[1] < self.height] *)
Definition within_grid (w h : Z) (s : Coordinate) : bool :=
  bool_decide (0 <= fst s < w) && bool_decide (0 <= snd s < h).

(** [grid[y][x] = v] *)
Definition set_cell {A} (grid : list (list A)) (x y : Z) (v : A)
    : result (list (list A)) :=
  row ← py_getitem grid y;
  row' ← py_setitem row x v;
  py_setitem grid y row'.

(** [StochasticReward(value, deterministic=True, mean=value)] *)
Definition numeric_reward (value : Q) : R :=
  StochasticReward (Some value) true value.

(** The loop that gives every listed terminal cell a zero reward. *)
Fixpoint zero_terminal_rewards (grid : list (list R)) (ts : list Coordinate)
    : result (list (list R)) :=
  match ts with
  | [] => Ok grid
  | (x, y) :: ts' =>
      grid' ← set_cell grid x y (StochasticReward None true 0%Q);
      zero_terminal_rewards grid' ts'
  end.

(** [width] defaults to [height]. *)
Definition init_width (h : Z) (width : option Z) : result Z :=
  match width with
  | Some w =>
      py_assert (bool_decide (w > 0)) "Width should be a positive integer"
      ≫= fun _ => Ok w
  | None => Ok h
  end.

(** [[proba] + [(1 - proba) / (n - 2)] * (n - 2) + [0]] for [n] actions:
    the difference and the quotient are float operations, the integer
    [n - 2] being converted to a float first. *)
Definition init_transition_probabilities (proba : Q) (n : Z)
    : result (list Q) :=
  drift ← (if bool_decide (n - 2 = 0) then Raise ZeroDivisionError
           else Ok (float_div (float_sub 1 proba)
                      (py_float (inject_Z (n - 2)))));
  Ok ([proba] ++ py_repeat drift (n - 2) ++ [0%Q]).

(** The terminal and the barrier list: checked against the grid when
    given, empty otherwise. *)
Definition init_states (w h : Z) (states : option (list Coordinate))
    (msg : string) : result (list Coordinate) :=
  match states with
  | Some l => py_assert (forallb (within_grid w h) l) msg ≫= fun _ => Ok l
  | None => Ok []
  end.

(** The reward grid together with the terminal list, which the default
    branch may replace. *)
Definition init_rewards (w h : Z) (rewards : option (RewardsArg R))
    (terminals : list Coordinate)
    : result (list (list R) * list Coordinate) :=
  match rewards with
  | None =>
      let grid :=
        replicate (Z.to_nat h)
          (replicate (Z.to_nat w)
             (StochasticReward (Some (-1)%Q) true (-1)%Q)) in
      if bool_decide (terminals ≠ []) then
        grid' ← zero_terminal_rewards grid terminals;
        Ok (grid', terminals)
      else
        grid' ← set_cell grid (w - 1) (h - 1) (StochasticReward None true 0%Q);
        Ok (grid', [(h - 1, w - 1)])
  | Some (NumericGrid values) =>
      Ok ((fun row : list Q => numeric_reward <$> row) <$> values, terminals)
  | Some (ObjectGrid grid) => Ok (grid, terminals)
  end.

(** Lines 46 to 100 of the constructor: everything up to the shape check of
    the reward grid.  The attributes assigned later hold dummy values.  A
    ragged reward grid, which numpy may refuse before the assertion is
    reached, fails the shape check. *)
Definition init_fields (params : Params R) : result (GridWorld R) :=
  let h := p_height params in
  py_assert (bool_decide (h > 0)) "Height should be a positive integer"
  ≫= fun _ =>
  w ← init_width h (p_width params);
  let acts := default [UP; RIGHT; DOWN; LEFT] (p_actions params) in
  let n := Z.of_nat (length acts) in
  let proba := p_proba params in
  py_assert (Qle_bool 0 proba && Qle_bool proba 1)
    "Probability should be between 0 and 1"
  ≫= fun _ =>
  tps ← init_transition_probabilities proba n;
  terminals ← init_states w h (p_terminal_states params)
    "Terminal states should be tuples of length 2 within grid bounds";
  barriers ← init_states w h (p_barrier_states params)
    "Barrier states should be tuples of length 2 within grid bounds";
  '(grid, terminals) ← init_rewards w h (p_rewards params) terminals;
  let expected := (fun row : list R => expected_value <$> row) <$> grid in
  py_assert (bool_decide (np_shape expected = Some (h, w)))
    "Rewards array size should match grid dimensions"
  ≫= fun _ =>
  Ok {| height := h; width := w; actions := acts;
        n_states := h * w; n_actions := n;
        transition_probabilities := tps;
        terminal_states := terminals; barrier_states := barriers;
        initial_state := p_initial_state params;
        rewards := grid; expected_rewards := expected;
        encoded_state := 0; state := (0, 0); transitions := [];
        task := ""; distinct_rewards := None;
        weights := []; n_weights := 0;
        barrier_set := ∅; danger_sets := [] |}.

(** The loop that collects the encoded states whose self-transition has a
    negative expected reward. *)
Fixpoint barrier_loop (self : GridWorld R) (states : list Z) (acc : gset Z)
    : result (gset Z) :=
  match states with
  | [] => Ok acc
  | s :: states' =>
      r ← get_expected_reward self (decode_state self s) 0 (decode_state self s);
      barrier_loop self states' (if Qltb r 0 then {[s]} ∪ acc else acc)
  end.

(** [GridWorld.__init__].  The danger sets follow the iteration order of
    the barrier set, which Python leaves unspecified. *)
Definition init (params : Params R) (rng : RandomState)
    : result (GridWorld R * RandomState) :=
  self ← init_fields params;
  '(enc, self, rng') ← reset self rng;
  let self := set_episode self enc (decode_state self enc) [] in
  let self :=
    set_task self (default VARYING_BLOCKS (p_task params))
      (if bool_decide (p_task params = Some VARYING_VALUES)
       then Some (p_distinct_rewards params) else None) in
  ws ← get_weights self;
  let self := set_weights self ws (Z.of_nat (length ws)) in
  bs ← barrier_loop self (py_range (n_states self)) ∅;
  let self := set_barrier_set self bs ((fun e => {[e]}) <$> elements bs) in
  Ok (self, rng').

End GridWorld.

(** ** Episodes and reachable objects *)

Section Episodes.

Context {R : Type} `{RewardDistribution R}.

(** A run of [step] calls, one per listed action; it hands back the
    coordinate after each call. *)
Fixpoint run_steps (self : GridWorld R) (inputs : list Z) (rng : RandomState)
    : result (list Coordinate * GridWorld R * RandomState) :=
  match inputs with
  | [] => Ok ([], self, rng)
  | a :: inputs' =>
      '(_, _, _, self1, rng1) ← step self a rng;
      '(visited, self2, rng2) ← run_steps self1 inputs' rng1;
      Ok (state self1 :: visited, self2, rng2)
  end.

(** The objects a program can hold: the one the constructor returned for
    [params], and what [reset] and [step] make of it. *)
Inductive reachable (params : Params R) : GridWorld R -> Prop :=
  | reachable_init rng self rng' :
      init params rng = Ok (self, rng') -> reachable params self
  | reachable_reset self rng enc self' rng' :
      reachable params self ->
      reset self rng = Ok (enc, self', rng') -> reachable params self'
  | reachable_step self a rng enc reward done self' rng' :
      reachable params self ->
      step self a rng = Ok (enc, reward, done, self', rng') ->
      reachable params self'.

(** The one-cell destination of a directional action. *)
Definition destination (c : Coordinate) (action : Z) : option Coordinate :=
  let '(x, y) := c in
  if bool_decide (action = UP) then Some (x, y + 1)
  else if bool_decide (action = DOWN) then Some (x, y - 1)
  else if bool_decide (action = LEFT) then Some (x - 1, y)
  else if bool_decide (action = RIGHT) then Some (x + 1, y)
  else None.

Definition in_bounds (self : GridWorld R) (c : Coordinate) : Prop :=
  0 <= fst c < width self /\ 0 <= snd c < height self.

(** The destination of [action] from [c] lies off the grid or on a
    barrier. *)
Definition blocked (self : GridWorld R) (c : Coordinate) (action : Z) : Prop :=
  exists d, destination c action = Some d /\
            (~ in_bounds self d \/ d ∈ barrier_states self).

(** The number a weight entry stands for. *)
Definition weight_value (w : Weight R) : Q :=
  match w with
  | WFloat q => q
  | WReward r => expected_value r
  end.

(** The attributes that neither [reset] nor [step] assigns. *)
Definition configuration (self : GridWorld R) : GridWorld R :=
  set_episode self 0 (0, 0) [].

(** The static shape of an object whose constructor got past the shape
    check of the reward grid. *)
Record well_formed (self : GridWorld R) : Prop := {
  wf_height : 0 < height self;
  wf_width : 0 < width self;
  wf_n_states : n_states self = height self * width self;
  wf_rows : length (rewards self) = Z.to_nat (height self);
  wf_cols : Forall (fun row => length row = Z.to_nat (width self)) (rewards self);
  wf_expected :
    expected_rewards self
    = (fun row : list R => expected_value <$> row) <$> rewards self;
}.

(** [GridWorld(height, width)], every other parameter at its default. *)
Definition default_params (height : Z) (width : option Z) : Params R :=
  {| p_height := height; p_width := width; p_actions := None;
     p_rewards := None; p_proba := py_float 0.8;
     p_terminal_states := None; p_barrier_states := None;
     p_initial_state := None; p_task := None; p_distinct_rewards := 3 |}.

(** [self] carries the attributes that the first part of the constructor
    gave to [self0]. *)
Record same_grid (self0 self : GridWorld R) : Prop := {
  sg_height : height self = height self0;
  sg_width : width self = width self0;
  sg_actions : actions self = actions self0;
  sg_n_states : n_states self = n_states self0;
  sg_n_actions : n_actions self = n_actions self0;
  sg_transition_probabilities :
    transition_probabilities self = transition_probabilities self0;
  sg_terminal_states : terminal_states self = terminal_states self0;
  sg_barrier_states : barrier_states self = barrier_states self0;
  sg_initial_state : initial_state self = initial_state self0;
  sg_rewards : rewards self = rewards self0;
  sg_expected_rewards : expected_rewards self = expected_rewards self0;
}.

(** What holds of an object once the constructor has returned it for
    [params]. *)
Record constructed (params : Params R) (self : GridWorld R) : Prop := {
  c_fields : exists self0, init_fields params = Ok self0 /\ same_grid self0 self;
  c_task : task self = default VARYING_BLOCKS (p_task params);
  c_distinct_rewards :
    distinct_rewards self
    = if bool_decide (p_task params = Some VARYING_VALUES)
      then Some (p_distinct_rewards params) else None;
  c_weights : get_weights self = Ok (weights self);
  c_n_weights : n_weights self = Z.of_nat (length (weights self));
  c_square : height self = width self;
}.

End Episodes.

(** ** Visualization entry points *)

Section Visualization.

Context {R : Type} `{RewardDistribution R}.

Definition arrow_map (action : Z) : string :=
  if bool_decide (action = UP) then "↓"
  else if bool_decide (action = DOWN) then "↑"
  else if bool_decide (action = LEFT) then "←"
  else if bool_decide (action = RIGHT) then "→"
  else "⊗".

(** [render]: the arguments it hands to the external [heat_map], the
    expected rewards, one arrow per recorded transition and the coordinate
    each transition started from. *)
Definition render (self : GridWorld R)
    : list (list Q) * list string * list Coordinate :=
  let arrow_transitions := (fun t => arrow_map (tr_action t)) <$> transitions self in
  let locations := tr_state <$> transitions self in
  (expected_rewards self, arrow_transitions, locations).

(** The inner loop of [plot_policy]: the arrows of the actions whose policy
    value is not zero. *)
Fixpoint policy_arrows (pi_state : list Q) (acts : list Z)
    (arrow_state : list string) : result (list string) :=
  match acts with
  | [] => Ok arrow_state
  | action :: acts' =>
      v ← py_getitem pi_state action;
      policy_arrows pi_state acts'
        (if negb (Qeq_bool v 0) then arrow_state ++ [arrow_map action]
         else arrow_state)
  end.

(** The outer loop of [plot_policy] over the encoded states. *)
Fixpoint policy_loop (self : GridWorld R) (pi : list (list Q))
    (index_terminal_states : list Z) (states : list Z)
    (arrow_policy : list (list string)) (locations : list Coordinate)
    : result (list (list string) * list Coordinate) :=
  match states with
  | [] => Ok (arrow_policy, locations)
  | i :: states' =>
      if bool_decide (i ∉ index_terminal_states) then
        let locations := locations ++ [decode_state self i] in
        pi_state ← py_getitem pi i;
        arrow_state ← policy_arrows pi_state (py_range (n_actions self)) [];
        policy_loop self pi index_terminal_states states'
          (arrow_policy ++ [arrow_state]) locations
      else
        policy_loop self pi index_terminal_states states' arrow_policy locations
  end.

(** [plot_policy]: the arguments it hands to [heat_map]. *)
Definition plot_policy (self : GridWorld R) (pi : list (list Q))
    (values : option (list (list Q))) (title : option string)
    : result (list (list Q) * list (list string) * list Coordinate * string) :=
  let values := default (expected_rewards self) values in
  let title := default "Heat Map of Policy" title in
  let index_terminal_states := encode_state self <$> terminal_states self in
  '(arrow_policy, locations) ←
    policy_loop self pi index_terminal_states (py_range (n_states self)) [] [];
  Ok (values, arrow_policy, locations, title).

(** The [while] loop of [plot_trajectory]; it assigns [self.state] only.
    [fuel] bounds the number of turns, and [Exhausted] says that the bound
    was reached with the loop still running. *)
Fixpoint trajectory_loop (fuel : nat) (self : GridWorld R) (pi : list Z)
    (acts : list Z) (locations : list Coordinate)
    : result (GridWorld R * list Z * list Coordinate) :=
  match fuel with
  | O => Exhausted
  | S fuel' =>
      if bool_decide (state self ∉ terminal_states self) then
        action ← py_getitem pi (encode_state self (state self));
        let self' :=
          set_episode self (encoded_state self) (move_agent self action)
            (transitions self) in
        trajectory_loop fuel' self' pi (acts ++ [action])
          (locations ++ [state self'])
      else Ok (self, acts, locations)
  end.

(** [assert self.initial_state is not None, "Initial state not specified"] *)
Definition require_initial_state (self : GridWorld R) : result Coordinate :=
  match initial_state self with
  | Some start => Ok start
  | None => Raise (AssertionError "Initial state not specified")
  end.

(** [plot_trajectory]: the object it leaves behind and the arguments it
    hands to [heat_map]. *)
Definition plot_trajectory (fuel : nat) (self : GridWorld R) (pi : list Z)
    (title : option string) (rng : RandomState)
    : result (GridWorld R * (list (list Q) * list string * list Coordinate
                             * string) * RandomState) :=
  start ← require_initial_state self;
  let title := default "Trajectory" title in
  '(enc, self, rng') ← reset self rng;
  let self := set_episode self (encoded_state self) start (transitions self) in
  '(self, acts, locations) ← trajectory_loop fuel self pi [] [state self];
  let arrows : list string := arrow_map <$> acts in
  Ok (self, (expected_rewards self, arrows, locations, title), rng').

(** The inner product of a feature vector with a weight vector. *)
Definition dot (u v : list Q) : Q := Qsum (zip_with Qmult u v).

(** What the last part of the constructor leaves in the object: the
    barrier set is the outcome of the barrier loop, with one danger set per
    element, and the listed terminal and barrier states lie on the grid. *)
Record constructed_sets (self : GridWorld R) : Prop := {
  cs_barrier_set :
    barrier_loop self (py_range (n_states self)) ∅ = Ok (barrier_set self);
  cs_danger_sets :
    danger_sets self = (fun e => {[e]}) <$> elements (barrier_set self);
  cs_terminal_states : Forall (in_bounds self) (terminal_states self);
  cs_barrier_states : Forall (in_bounds self) (barrier_states self);
  cs_encoded_state : encoded_state self = encode_state self (state self);
}.

End Visualization.

(** ** Concrete objects *)

(** Constructor calls with the point-mass reward class; every parameter
    that is not listed keeps its default. *)
Definition make_params (height : Z) (width : option Z)
    (rewards : option (RewardsArg PointMass)) (proba : Q)
    (terminal_states barrier_states : option (list Coordinate))
    (initial_state : option Coordinate) (task : option string)
    : Params PointMass :=
  {| p_height := height; p_width := width; p_actions := None;
     p_rewards := rewards; p_proba := proba;
     p_terminal_states := terminal_states;
     p_barrier_states := barrier_states;
     p_initial_state := initial_state; p_task := task;
     p_distinct_rewards := 3 |}.

(** [GridWorld(3, width=2, initial_state=(0, 2))] *)
Definition tall_grid : Params PointMass :=
  make_params 3 (Some 2) None (py_float 0.8) None None (Some (0, 2)) None.

(** [GridWorld(3, proba=1.0, initial_state=(0, 0))] *)
Definition open_grid : Params PointMass :=
  make_params 3 None None 1%Q None None (Some (0, 0)) None.

(** [GridWorld(3, proba=1.0, barrier_states=[(0, 0)], initial_state=(0, 0))] *)
Definition barrier_start_grid : Params PointMass :=
  make_params 3 None None 1%Q None (Some [(0, 0)]) (Some (0, 0)) None.

(** [GridWorld(3, proba=1.0, barrier_states=[(1, 2)], initial_state=(1, 1))] *)
Definition blocked_grid : Params PointMass :=
  make_params 3 None None 1%Q None (Some [(1, 2)]) (Some (1, 1)) None.

(** [GridWorld(3, proba=1.0, initial_state=(2, 1))] *)
Definition near_goal_grid : Params PointMass :=
  make_params 3 None None 1%Q None None (Some (2, 1)) None.

(** [GridWorld(3, width=3, proba=0.8, initial_state=(1, 1))] *)
Definition square_grid : Params PointMass :=
  make_params 3 (Some 3) None (py_float 0.8) None None (Some (1, 1)) None.

(** [GridWorld(3, proba=0.062, initial_state=(0, 0))] *)
Definition drifting_grid : Params PointMass :=
  make_params 3 None None (py_float 0.062) None None (Some (0, 0)) None.

(** [GridWorld(3)] *)
Definition random_start_grid : Params PointMass :=
  make_params 3 None None (py_float 0.8) None None None None.

(** [GridWorld(0)] *)
Definition flat_grid : Params PointMass :=
  make_params 0 None None (py_float 0.8) None None None None.

(** [GridWorld(3, actions=[0, 1])] *)
Definition two_action_grid : Params PointMass :=
  {| p_height := 3; p_width := None; p_actions := Some [0; 1];
     p_rewards := None; p_proba := py_float 0.8;
     p_terminal_states := None; p_barrier_states := None;
     p_initial_state := None; p_task := None; p_distinct_rewards := 3 |}.

(** [GridWorld(3, terminal_states=[(3, 0)])] *)
Definition stray_terminal_grid : Params PointMass :=
  make_params 3 None None (py_float 0.8) (Some [(3, 0)]) None None None.

(** [GridWorld(3, initial_state=(0, 5))] *)
Definition stray_start_grid : Params PointMass :=
  make_params 3 None None (py_float 0.8) None None (Some (0, 5)) None.

(** The policy that always goes UP, as [plot_trajectory] reads it. *)
Definition always_up : list Z := replicate 9 UP.

(** The policy table that always goes UP, as [plot_policy] reads it. *)
Definition always_up_table : list (list Q) := replicate 9 [1; 0; 0; 0]%Q.

(** [GridWorld(2, rewards=[[0, -1], [-1, 0]], initial_state=(0, 0),
    task="Same Blocks, Varying Values", distinct_rewards=3)] *)
Definition two_valued_grid : Params PointMass :=
  make_params 2 None (Some (NumericGrid [[0; -1]; [-1; 0]]%Q)) (py_float 0.8)
    None None (Some (0, 0)) (Some VARYING_VALUES).

(** ** Basic facts *)

Lemma bind_Ok {A B} (m : result A) (f : A -> result B) (b : B) :
  m ≫= f = Ok b -> exists a, m = Ok a /\ f a = Ok b.
Proof.
  destruct m as [a| |]; cbn; intros Hf; try discriminate.
  exists a; split; [reflexivity | exact Hf].
Qed.

Lemma py_assert_Ok b msg u : py_assert b msg = Ok u -> b = true.
Proof. destruct b; cbn; [reflexivity | discriminate]. Qed.

(** Splits a successful chain of binds in hypothesis [H] into its stages. *)
Tactic Notation "bind_inv" hyp(H) :=
  let a := fresh "a" in
  let Ha := fresh "Hrun" in
  apply bind_Ok in H; destruct H as (a & Ha & H).

Tactic Notation "bind_inv" hyp(H) "as" simple_intropattern(a)
    simple_intropattern(Ha) :=
  apply bind_Ok in H; destruct H as (a & Ha & H).

Lemma py_index_in_range n i :
  0 <= i < Z.of_nat n -> py_index n i = Ok (Z.to_nat i).
Proof.
  intros Hi. unfold py_index. rewrite bool_decide_eq_true_2; [reflexivity | lia].
Qed.

Lemma py_index_above n i :
  Z.of_nat n <= i -> py_index n i = Raise IndexError.
Proof.
  intros Hi. unfold py_index.
  rewrite !bool_decide_eq_false_2; [reflexivity | lia | lia].
Qed.

Lemma py_index_Ok n i k : py_index n i = Ok k -> (k < n)%nat.
Proof.
  unfold py_index. repeat case_bool_decide; intros [= <-]; lia.
Qed.

Lemma py_index_outcome n i :
  (exists k, py_index n i = Ok k) \/ py_index n i = Raise IndexError.
Proof.
  unfold py_index. repeat case_bool_decide; eauto.
Qed.

Lemma py_getitem_in_range {A} (l : list A) i :
  0 <= i < Z.of_nat (length l) ->
  exists a, l !! Z.to_nat i = Some a /\ py_getitem l i = Ok a.
Proof.
  intros Hi. unfold py_getitem. rewrite py_index_in_range by done. cbn.
  destruct (lookup_lt_is_Some_2 l (Z.to_nat i)) as [a Ha]; [lia |].
  exists a. rewrite Ha. done.
Qed.

Lemma py_getitem_above {A} (l : list A) i :
  Z.of_nat (length l) <= i -> py_getitem l i = Raise IndexError.
Proof.
  intros Hi. unfold py_getitem. rewrite py_index_above by done. reflexivity.
Qed.

Lemma py_getitem_outcome {A} (l : list A) i :
  (exists a, py_getitem l i = Ok a) \/ py_getitem l i = Raise IndexError.
Proof.
  unfold py_getitem. destruct (py_index_outcome (length l) i) as [[k ->] | ->];
    cbn; [| by right].
  destruct (l !! k); eauto.
Qed.

Lemma py_getitem_Ok_elem {A} (l : list A) i a : py_getitem l i = Ok a -> a ∈ l.
Proof.
  unfold py_getitem. intros Hg. bind_inv Hg.
  destruct (l !! a0) eqn:Hl; [| discriminate].
  injection Hg as ->. by eapply list_elem_of_lookup_2.
Qed.

Lemma py_setitem_length {A} (l l' : list A) i v :
  py_setitem l i v = Ok l' -> length l' = length l.
Proof.
  unfold py_setitem. intros Hs. bind_inv Hs. injection Hs as <-.
  apply length_insert.
Qed.

Lemma py_setitem_in_range {A} (l : list A) i v :
  0 <= i < Z.of_nat (length l) -> py_setitem l i v = Ok (<[Z.to_nat i := v]> l).
Proof.
  intros Hi. unfold py_setitem. rewrite py_index_in_range by done. reflexivity.
Qed.

Lemma py_repeat_length {A} (v : A) n : length (py_repeat v n) = Z.to_nat n.
Proof. apply length_replicate. Qed.

(** ** Rounding *)

Lemma pow2_pos e : (0 < pow2 e)%Q.
Proof. apply Qpower_0_lt. reflexivity. Qed.

Lemma pow2_add a b : (pow2 (a + b) == pow2 a * pow2 b)%Q.
Proof. apply Qpower_plus. discriminate. Qed.

Lemma pow2_lt a b : a < b -> (pow2 a < pow2 b)%Q.
Proof. intros Hab. apply Qpower_lt_compat_l; [exact Hab | reflexivity]. Qed.

Lemma pow2_le a b : a <= b -> (pow2 a <= pow2 b)%Q.
Proof. intros Hab. apply Qpower_le_compat_l; [exact Hab | discriminate]. Qed.

Lemma pow2_lt_inv a b : (pow2 a < pow2 b)%Q -> a < b.
Proof. intros Hab. eapply Qpower_lt_compat_l_inv; [exact Hab | reflexivity]. Qed.

Lemma pow2_Z n : 0 <= n -> (pow2 n == inject_Z (2 ^ n))%Q.
Proof. intros Hn. symmetry. apply (Zpower_Qpower 2 n Hn). Qed.

Lemma log2_bounds n :
  0 < n -> (pow2 (Z.log2 n) <= inject_Z n < pow2 (Z.log2 n + 1))%Q.
Proof.
  intros Hn. destruct (Z.log2_spec n Hn) as [Hlo Hhi].
  pose proof (Z.log2_nonneg n) as Hnn.
  rewrite !pow2_Z by lia. rewrite <- Zle_Qle, <- Zlt_Qlt.
  split; [exact Hlo | exact Hhi].
Qed.

Lemma binade_spec x :
  (0 < x)%Q -> (pow2 (binade x) <= x < pow2 (binade x + 1))%Q.
Proof.
  intros Hx. destruct x as [n d].
  assert (Hn : 0 < n).
  { unfold Qlt in Hx. cbn in Hx. lia. }
  destruct (log2_bounds n Hn) as [Hnlo Hnhi].
  destruct (log2_bounds (Z.pos d) (Pos2Z.is_pos d)) as [Hdlo Hdhi].
  assert (Hxd : ((n # d) * inject_Z (Z.pos d) == inject_Z n)%Q).
  { rewrite (Qmake_Qdiv n d). field. discriminate. }
  unfold binade. cbn [Qnum Qden].
  set (ln := Z.log2 n) in *. set (ld := Z.log2 (Z.pos d)) in *.
  assert (Hup : (n # d < pow2 (ln - ld + 1))%Q).
  { apply (Qmult_lt_r _ _ (pow2 ld) (pow2_pos ld)).
    rewrite <- pow2_add. replace (ln - ld + 1 + ld) with (ln + 1) by lia.
    apply Qle_lt_trans with (inject_Z n); [| exact Hnhi].
    rewrite <- Hxd. apply Qmult_le_l; [exact Hx | exact Hdlo]. }
  assert (Hdown : (pow2 (ln - ld - 1) < n # d)%Q).
  { apply (Qmult_lt_r _ _ (pow2 (ld + 1)) (pow2_pos _)).
    rewrite <- pow2_add. replace (ln - ld - 1 + (ld + 1)) with ln by lia.
    apply Qle_lt_trans with (inject_Z n); [exact Hnlo |].
    rewrite <- Hxd. apply Qmult_lt_l; [exact Hx | exact Hdhi]. }
  destruct (Qle_bool (pow2 (ln - ld)) (n # d)) eqn:Htest.
  - apply Qle_bool_iff in Htest. split; assumption.
  - replace (ln - ld - 1 + 1) with (ln - ld) by lia.
    split; [apply Qlt_le_weak; exact Hdown |].
    apply Qnot_le_lt. intros Hc. apply Qle_bool_iff in Hc. congruence.
Qed.

Lemma binade_unique x e :
  (pow2 e <= x < pow2 (e + 1))%Q -> binade x = e.
Proof.
  intros [Hlo Hhi].
  assert (Hx : (0 < x)%Q) by (eapply Qlt_le_trans; [apply pow2_pos | exact Hlo]).
  destruct (binade_spec x Hx) as [Hlo' Hhi'].
  assert (H1 : binade x < e + 1).
  { apply pow2_lt_inv. eapply Qle_lt_trans; eassumption. }
  assert (H2 : e < binade x + 1).
  { apply pow2_lt_inv. eapply Qle_lt_trans; eassumption. }
  lia.
Qed.

Lemma binade_comp x y : (0 < x)%Q -> (x == y)%Q -> binade x = binade y.
Proof.
  intros Hx Hxy. symmetry. apply binade_unique.
  rewrite <- Hxy. apply binade_spec, Hx.
Qed.

Lemma round_half_even_comp m m' :
  (m == m')%Q -> round_half_even m = round_half_even m'.
Proof.
  intros Hm. unfold round_half_even.
  rewrite (Qfloor_comp _ _ Hm).
  assert (Hcmp : (m - inject_Z (Qfloor m') ?= 1 # 2)%Q
                 = (m' - inject_Z (Qfloor m') ?= 1 # 2)%Q) by (by rewrite Hm).
  by rewrite Hcmp.
Qed.

Lemma round_half_even_Z n : round_half_even (inject_Z n) = n.
Proof.
  unfold round_half_even. rewrite Qfloor_Z.
  destruct (inject_Z n - inject_Z n ?= 1 # 2)%Q eqn:Hcmp;
    [apply Qeq_alt in Hcmp | reflexivity | apply Qgt_alt in Hcmp]; lra.
Qed.

Lemma round_half_even_floor m :
  Qfloor m <= round_half_even m <= Qfloor m + 1.
Proof.
  unfold round_half_even.
  destruct (m - inject_Z (Qfloor m) ?= 1 # 2)%Q; [destruct (Z.even _) | |]; lia.
Qed.

Lemma round_half_even_error m :
  (Qabs (inject_Z (round_half_even m) - m) <= 1 # 2)%Q.
Proof.
  pose proof (Qfloor_le m) as Hlo. pose proof (Qlt_floor m) as Hhi.
  rewrite inject_Z_plus in Hhi. change (inject_Z 1) with 1%Q in Hhi.
  apply Qabs_Qle_condition. unfold round_half_even.
  destruct (m - inject_Z (Qfloor m) ?= 1 # 2)%Q eqn:Hcmp.
  - apply Qeq_alt in Hcmp.
    destruct (Z.even (Qfloor m));
      [| rewrite inject_Z_plus; change (inject_Z 1) with 1%Q]; lra.
  - apply Qlt_alt in Hcmp. lra.
  - apply Qgt_alt in Hcmp. rewrite inject_Z_plus.
    change (inject_Z 1) with 1%Q. lra.
Qed.

Lemma pow2_neq_0 e : ~ (pow2 e == 0)%Q.
Proof. pose proof (pow2_pos e). lra. Qed.

Lemma round_positive_value x :
  (round_positive x
   == inject_Z (round_half_even (x / pow2 (quantum x))) * pow2 (quantum x))%Q.
Proof. apply Qred_correct. Qed.

Lemma round_positive_comp x y :
  (0 < x)%Q -> (x == y)%Q -> round_positive x = round_positive y.
Proof.
  intros Hx Hxy. unfold round_positive, quantum.
  rewrite <- (binade_comp x y Hx Hxy). apply Qred_complete.
  rewrite (round_half_even_comp (x / _) (y / pow2 (Z.max (binade x - 52) (-1074))));
    [reflexivity | apply Qdiv_comp; [exact Hxy | reflexivity]].
Qed.

Lemma scaled_pos x e : (0 < x)%Q -> (0 < x / pow2 e)%Q.
Proof.
  intros Hx. apply Qlt_shift_div_l; [apply pow2_pos | lra].
Qed.

Lemma round_half_even_nonneg m : (0 <= m)%Q -> 0 <= round_half_even m.
Proof.
  intros Hm. pose proof (round_half_even_floor m).
  assert (0 <= Qfloor m); [| lia].
  change 0 with (Qfloor 0). by apply Qfloor_resp_le.
Qed.

Lemma round_positive_nonneg x : (0 < x)%Q -> (0 <= round_positive x)%Q.
Proof.
  intros Hx. rewrite round_positive_value.
  apply Qmult_le_0_compat; [| apply Qlt_le_weak, pow2_pos].
  change 0%Q with (inject_Z 0). rewrite <- Zle_Qle.
  apply round_half_even_nonneg, Qlt_le_weak, scaled_pos, Hx.
Qed.

Lemma round_positive_error x :
  (0 < x)%Q ->
  (Qabs (round_positive x - x) <= (1 # 2) * pow2 (quantum x))%Q.
Proof.
  intros Hx. rewrite round_positive_value.
  set (q := quantum x). set (m := (x / pow2 q)%Q).
  assert (Heq : (inject_Z (round_half_even m) * pow2 q - x
                 == (inject_Z (round_half_even m) - m) * pow2 q)%Q).
  { unfold m. field. apply pow2_neq_0. }
  rewrite Heq.
  rewrite Qabs_Qmult, (Qabs_pos (pow2 q)) by apply Qlt_le_weak, pow2_pos.
  apply Qmult_le_compat_r; [apply round_half_even_error |].
  apply Qlt_le_weak, pow2_pos.
Qed.

(** A positive multiple [n * 2 ^ k] of a power of two with less than 54
    bits, not below the smallest double, is a double. *)
Lemma round_positive_representable y n k :
  0 < n < 2 ^ 53 -> -1074 <= k -> (y == inject_Z n * pow2 k)%Q ->
  (round_positive y == y)%Q.
Proof.
  intros [Hn0 Hn1] Hk Hy.
  assert (Hpos : (0 < y)%Q).
  { rewrite Hy. apply Qmult_lt_0_compat; [| apply pow2_pos].
    change 0%Q with (inject_Z 0). by rewrite <- Zlt_Qlt. }
  destruct (binade_spec y Hpos) as [Hlo _].
  assert (Hb : binade y < 53 + k).
  { apply pow2_lt_inv. eapply Qle_lt_trans; [exact Hlo |].
    rewrite Hy, pow2_add. apply Qmult_lt_compat_r; [apply pow2_pos |].
    rewrite pow2_Z by lia. by rewrite <- Zlt_Qlt. }
  rewrite round_positive_value.
  assert (Hq : quantum y <= k) by (unfold quantum; lia).
  set (q := quantum y) in *.
  assert (Hm : (y / pow2 q == inject_Z (n * 2 ^ (k - q)))%Q).
  { rewrite inject_Z_mult, <- pow2_Z by lia. rewrite Hy.
    replace k with ((k - q) + q) at 1 by lia. rewrite pow2_add.
    field. apply pow2_neq_0. }
  rewrite (round_half_even_comp _ _ Hm), round_half_even_Z.
  rewrite inject_Z_mult, <- pow2_Z by lia. rewrite Hy.
  replace k with ((k - q) + q) at 2 by lia. rewrite pow2_add. ring.
Qed.

(** What [round_positive] returns is zero or a double. *)
Lemma round_positive_fixed x :
  (0 < x)%Q ->
  (round_positive x == 0)%Q \/
  (0 < round_positive x)%Q /\
  (round_positive (round_positive x) == round_positive x)%Q.
Proof.
  intros Hx. pose proof (round_positive_value x) as Hval.
  set (q := quantum x) in *. set (m := (x / pow2 q)%Q) in *.
  destruct (binade_spec x Hx) as [_ Hhi].
  assert (Hq : -1074 <= q /\ binade x - 52 <= q) by (unfold q, quantum; lia).
  assert (Hm0 : (0 < m)%Q) by apply scaled_pos, Hx.
  assert (Hm1 : (m < inject_Z (2 ^ 53))%Q).
  { rewrite <- pow2_Z by lia. unfold m.
    apply Qlt_shift_div_r; [apply pow2_pos |]. rewrite <- pow2_add.
    eapply Qlt_le_trans; [exact Hhi |]. apply pow2_le. lia. }
  pose proof (round_half_even_floor m) as [Hf0 Hf1].
  pose proof (round_half_even_nonneg m (Qlt_le_weak _ _ Hm0)) as Hn0.
  assert (Hfloor : Qfloor m < 2 ^ 53).
  { rewrite Zlt_Qlt. eapply Qle_lt_trans; [apply Qfloor_le | exact Hm1]. }
  set (n := round_half_even m) in *.
  destruct (Z.eq_dec n 0) as [Hzero | Hnz].
  { left. rewrite Hval, Hzero. ring. }
  right.
  assert (Hpos : (0 < round_positive x)%Q).
  { rewrite Hval. apply Qmult_lt_0_compat; [| apply pow2_pos].
    change 0%Q with (inject_Z 0). rewrite <- Zlt_Qlt. lia. }
  split; [exact Hpos |].
  destruct (Z.eq_dec n (2 ^ 53)) as [Htop | Hlow].
  - apply (round_positive_representable _ (2 ^ 52) (q + 1)); [lia | lia |].
    rewrite Hval, Htop, pow2_add.
    change (inject_Z (2 ^ 53)) with (inject_Z (2 ^ 52) * 2)%Q.
    change (pow2 1) with 2%Q. ring.
  - apply (round_positive_representable _ n q); [lia | lia | exact Hval].
Qed.

Lemma py_float_zero x : (x == 0)%Q -> py_float x = 0%Q.
Proof. intros Hx. unfold py_float. apply Qeq_alt in Hx. by rewrite Hx. Qed.

Lemma py_float_pos x : (0 < x)%Q -> py_float x = round_positive x.
Proof.
  intros Hx. unfold py_float.
  destruct (x ?= 0)%Q eqn:Hcmp; [apply Qeq_alt in Hcmp | apply Qlt_alt in Hcmp |];
    first [reflexivity | lra].
Qed.

Lemma py_float_neg x : (x < 0)%Q -> py_float x = (- round_positive (- x))%Q.
Proof.
  intros Hx. unfold py_float.
  destruct (x ?= 0)%Q eqn:Hcmp; [apply Qeq_alt in Hcmp | | apply Qgt_alt in Hcmp];
    first [reflexivity | lra].
Qed.

(** Rounding depends on the value only, not on the fraction that denotes
    it. *)
Lemma py_float_comp x y : (x == y)%Q -> py_float x = py_float y.
Proof.
  intros Hxy. destruct (Q_dec x 0) as [[Hneg | Hpos] | Hzero].
  - rewrite !py_float_neg by lra. f_equal.
    apply round_positive_comp; [lra | by rewrite Hxy].
  - rewrite !py_float_pos by lra. by apply round_positive_comp.
  - rewrite !py_float_zero by lra. reflexivity.
Qed.

Lemma py_float_nonneg x : (0 <= x)%Q -> (0 <= py_float x)%Q.
Proof.
  intros Hx. destruct (Qle_lt_or_eq _ _ Hx) as [Hpos | Hzero].
  - rewrite py_float_pos by exact Hpos. by apply round_positive_nonneg.
  - rewrite py_float_zero by (by symmetry). apply Qle_refl.
Qed.

Lemma py_float_pos_inv x : (0 < py_float x)%Q -> (0 < x)%Q.
Proof.
  intros Hx. destruct (Q_dec x 0) as [[Hneg | Hpos] | Hzero].
  - rewrite py_float_neg in Hx by exact Hneg.
    assert (0 <= round_positive (- x))%Q by (apply round_positive_nonneg; lra).
    lra.
  - exact Hpos.
  - rewrite py_float_zero in Hx by exact Hzero. lra.
Qed.

Lemma Qred_zero t : (t == 0)%Q -> Qred t = 0%Q.
Proof. intros Ht. by rewrite (Qred_complete _ _ Ht). Qed.

(** Rounding a double gives it back. *)
Lemma py_float_idem x : py_float (py_float x) = py_float x.
Proof.
  assert (Hfix : forall z, (0 < z)%Q ->
            py_float (round_positive z) = round_positive z).
  { intros z Hz. destruct (round_positive_fixed z Hz) as [Hzero | [Hpos Hfix]].
    - rewrite py_float_zero by exact Hzero. symmetry.
      apply Qred_zero. by rewrite <- round_positive_value.
    - rewrite py_float_pos by exact Hpos.
      unfold round_positive at 1 3. apply Qred_complete.
      rewrite <- !round_positive_value. exact Hfix. }
  destruct (Q_dec x 0) as [[Hneg | Hpos] | Hzero].
  - rewrite (py_float_neg x Hneg).
    assert (Hz : (0 < - x)%Q) by lra.
    destruct (round_positive_fixed _ Hz) as [Hzero | [Hpos _]].
    + assert (Hr : round_positive (- x) = 0%Q).
      { apply Qred_zero. by rewrite <- round_positive_value. }
      rewrite Hr. reflexivity.
    + rewrite py_float_neg by lra. f_equal.
      rewrite <- (Hfix _ Hz) at 2. rewrite py_float_pos by exact Hpos.
      apply round_positive_comp; lra.
  - rewrite (py_float_pos x Hpos). by apply Hfix.
  - rewrite (py_float_zero x Hzero). reflexivity.
Qed.

Lemma py_float_pow2 e : -1074 <= e -> py_float (pow2 e) = Qred (pow2 e).
Proof.
  intros He. rewrite py_float_pos by apply pow2_pos.
  unfold round_positive. apply Qred_complete.
  rewrite <- round_positive_value.
  apply (round_positive_representable _ 1 e); [lia | exact He |].
  change (inject_Z 1) with 1%Q. ring.
Qed.

(** Rounding does not cross a power of two. *)
Lemma py_float_le_pow2 x e :
  -1074 <= e -> (0 <= x <= pow2 e)%Q -> (py_float x <= pow2 e)%Q.
Proof.
  intros He [Hx0 Hx1].
  destruct (Qle_lt_or_eq _ _ Hx0) as [Hpos | Hzero];
    [| rewrite py_float_zero by (by symmetry); apply Qlt_le_weak, pow2_pos].
  destruct (Qle_lt_or_eq _ _ Hx1) as [Hlt | Htop];
    [| rewrite (py_float_comp _ _ Htop), py_float_pow2, Qred_correct by exact He;
       apply Qle_refl].
  rewrite py_float_pos, round_positive_value by exact Hpos.
  destruct (binade_spec x Hpos) as [Hlo _].
  assert (Hb : binade x < e).
  { apply pow2_lt_inv. eapply Qle_lt_trans; [exact Hlo | exact Hlt]. }
  assert (Hq : quantum x <= e) by (unfold quantum; lia).
  set (q := quantum x) in *. set (m := (x / pow2 q)%Q).
  assert (Hm : (m < inject_Z (2 ^ (e - q)))%Q).
  { rewrite <- pow2_Z by lia. unfold m.
    apply Qlt_shift_div_r; [apply pow2_pos |]. rewrite <- pow2_add.
    by replace (e - q + q) with e by lia. }
  assert (Hfloor : Qfloor m < 2 ^ (e - q)).
  { rewrite Zlt_Qlt. eapply Qle_lt_trans; [apply Qfloor_le | exact Hm]. }
  pose proof (round_half_even_floor m) as [_ Hn].
  replace e with ((e - q) + q) at 1 by lia. rewrite pow2_add.
  apply Qmult_le_compat_r; [| apply Qlt_le_weak, pow2_pos].
  rewrite pow2_Z, <- Zle_Qle by lia. lia.
Qed.

(** Below [2 ^ e] doubles are at most [2 ^ (e - 53)] apart. *)
Lemma py_float_error_below x e :
  -1021 <= e -> (0 <= x <= pow2 e)%Q ->
  (Qabs (py_float x - x) <= pow2 (e - 54))%Q.
Proof.
  intros He [Hx0 Hx1].
  assert (Hzero : forall t, (t == 0)%Q -> (Qabs t <= pow2 (e - 54))%Q).
  { intros t ->. apply Qlt_le_weak, pow2_pos. }
  destruct (Qle_lt_or_eq _ _ Hx0) as [Hpos | Hnull];
    [| apply Hzero; rewrite py_float_zero by (by symmetry); lra].
  destruct (Qle_lt_or_eq _ _ Hx1) as [Hlt | Htop];
    [| apply Hzero;
       rewrite (py_float_comp _ _ Htop), py_float_pow2, Qred_correct by lia;
       lra].
  rewrite py_float_pos by exact Hpos.
  eapply Qle_trans; [by apply round_positive_error |].
  destruct (binade_spec x Hpos) as [Hlo _].
  assert (Hb : binade x < e).
  { apply pow2_lt_inv. eapply Qle_lt_trans; [exact Hlo | exact Hlt]. }
  assert (Hq : quantum x <= e - 53) by (unfold quantum; lia).
  replace (e - 54) with (-1 + (e - 53)) by lia. rewrite pow2_add.
  change (pow2 (-1)) with (/ 2)%Q.
  apply Qle_trans with ((1 # 2) * pow2 (e - 53))%Q.
  - apply Qmult_le_l; [reflexivity | by apply pow2_le].
  - apply Qmult_le_compat_r; [discriminate | apply Qlt_le_weak, pow2_pos].
Qed.

(** The drift probability of four actions lies within [2 ^ -54] of
    [(1 - p) / 2]; [p] and two drifts miss 1 by at most [2 ^ -53]. *)
Lemma drift_rounding p :
  (0 <= p <= 1)%Q ->
  let d := float_div (float_sub 1 p) 2 in
  (0 <= d)%Q /\ (Qabs (d - (1 - p) / 2) <= pow2 (-54))%Q /\
  (Qabs (p + d + d + 0 - 1) <= pow2 (-53))%Q.
Proof.
  intros [Hp0 Hp1]. unfold float_div, float_sub.
  assert (Hx : (0 <= 1 - p <= pow2 0)%Q) by (change (pow2 0) with 1%Q; lra).
  pose proof (py_float_nonneg _ (proj1 Hx)) as Hy0.
  pose proof (py_float_le_pow2 _ 0 ltac:(lia) Hx) as Hy1.
  pose proof (py_float_error_below _ 0 ltac:(lia) Hx) as Hye.
  change (pow2 0) with 1%Q in Hy1. change (0 - 54) with (-54) in Hye.
  set (y := py_float (1 - p)) in *.
  assert (Hhalf : (y / 2 == y * (1 # 2))%Q) by field.
  assert (Hz : (0 <= y / 2 <= pow2 (-1))%Q).
  { change (pow2 (-1)) with (1 # 2)%Q. rewrite Hhalf. split; lra. }
  pose proof (py_float_nonneg _ (proj1 Hz)) as Hd0.
  pose proof (py_float_error_below _ (-1) ltac:(lia) Hz) as Hde.
  change (-1 - 54) with (-55) in Hde.
  set (d := py_float (y / 2)) in *. cbv zeta.
  split; [exact Hd0 |].
  apply Qabs_Qle_condition in Hye, Hde.
  assert (H54 : (pow2 (-54) == pow2 (-53) * (1 # 2))%Q) by reflexivity.
  assert (H55 : (pow2 (-55) == pow2 (-53) * (1 # 4))%Q) by reflexivity.
  assert (Hq : ((1 - p) / 2 == (1 - p) * (1 # 2))%Q) by field.
  rewrite H54 in Hye. rewrite H55, Hhalf in Hde.
  split; apply Qabs_Qle_condition; rewrite ?H54, ?Hq;
    set (e := pow2 (-53)) in *; lra.
Qed.

#[global] Instance PointMass_deterministic : DeterministicRewards PointMass.
Proof. split; reflexivity. Qed.

(** ** The state codec *)

Section Codec.

Context {R : Type} `{RewardDistribution R}.

Lemma decode_encode (self : GridWorld R) x y :
  0 <= y < width self ->
  decode_state self (encode_state self (x, y)) = (x, y).
Proof.
  intros Hy. unfold decode_state, encode_state. f_equal.
  - rewrite Z.div_add_l by lia. rewrite Z.div_small by lia. lia.
  - rewrite Z.add_comm, Z.mod_add by lia. apply Z.mod_small. lia.
Qed.

Lemma encode_decode (self : GridWorld R) s :
  0 < width self -> encode_state self (decode_state self s) = s.
Proof.
  intros Hw. unfold decode_state, encode_state.
  pose proof (Z.div_mod s (width self)). lia.
Qed.

Lemma decode_range (self : GridWorld R) s :
  0 < width self -> 0 <= s < height self * width self ->
  0 <= fst (decode_state self s) < height self /\
  0 <= snd (decode_state self s) < width self.
Proof.
  intros Hw Hs. unfold decode_state. cbn. split.
  - split; [apply Z.div_pos; lia |]. apply Z.div_lt_upper_bound; lia.
  - apply Z.mod_pos_bound. lia.
Qed.

Lemma encode_range (self : GridWorld R) x y :
  0 <= x < height self -> 0 <= y < width self ->
  0 <= encode_state self (x, y) < height self * width self.
Proof. unfold encode_state. nia. Qed.

(** On a square grid the codec is a bijection between the valid
    coordinates and the encoded states. *)
Lemma codec_square (self : GridWorld R) :
  0 < width self -> height self = width self ->
  (forall c, in_bounds self c ->
     decode_state self (encode_state self c) = c /\
     0 <= encode_state self c < height self * width self) /\
  (forall s, 0 <= s < height self * width self ->
     encode_state self (decode_state self s) = s /\
     in_bounds self (decode_state self s)).
Proof.
  intros Hw Hsq. split.
  - intros [x y] [Hx Hy]. cbn in Hx, Hy. split.
    + apply decode_encode. lia.
    + apply encode_range; lia.
  - intros s Hs. split; [by apply encode_decode |].
    destruct (decode_range self s Hw Hs). unfold in_bounds. lia.
Qed.

(** On a grid that is taller than wide the valid coordinate [(0, width)]
    does not survive the round trip. *)
Lemma roundtrip_fails_when_taller (self : GridWorld R) :
  0 < width self < height self ->
  in_bounds self (0, width self) /\
  decode_state self (encode_state self (0, width self)) = (1, 0).
Proof.
  intros Hw. split; [unfold in_bounds; cbn; lia |].
  unfold decode_state, encode_state. cbn.
  rewrite Z.div_same, Z.mod_same by lia. reflexivity.
Qed.

End Codec.

(** C1, at the input on which the code departs from it: in
    [GridWorld(3, width=2, initial_state=(0, 2))] the coordinate [(0, 2)]
    is valid ([0 <= 0 < width] and [0 <= 2 < height]), the part of the
    constructor before [reset] goes through, and decoding the encoding of
    [(0, 2)] gives [(1, 0)]: the round trip of claim C1 fails on a grid that
    is taller than wide.  The constructor itself then raises [IndexError]
    when it decodes the states of its grid. *)
Lemma roundtrip_fails_on_tall_grid :
  exists self : GridWorld PointMass,
    init_fields tall_grid = Ok self /\
    in_bounds self (0, 2) /\
    encode_state self (0, 2) = 2 /\
    decode_state self (encode_state self (0, 2)) = (1, 0) /\
    init tall_grid [] = Raise IndexError.
Proof.
  eexists. split; [vm_compute; reflexivity |].
  split; [unfold in_bounds; cbn; lia |].
  repeat split; reflexivity.
Qed.

(** ** The reward grid *)

Lemma np_shape_Some {A} (grid : list (list A)) rows cols :
  np_shape grid = Some (rows, cols) ->
  Z.of_nat (length grid) = rows /\
  Forall (fun row => Z.of_nat (length row) = cols) grid.
Proof.
  unfold np_shape. destruct grid as [| row grid]; [discriminate |].
  destruct (forallb _ _) eqn:Hall; [| discriminate].
  intros [= <- <-]. split; [reflexivity |].
  rewrite forallb_forall in Hall. apply Forall_forall.
  intros r Hr. apply list_elem_of_In, Hall, bool_decide_eq_true in Hr.
  by rewrite Hr.
Qed.

Section RewardGrid.

Context {R : Type} `{RewardDistribution R}.

Lemma get_reward_in_bounds (self : GridWorld R) st a c :
  well_formed self -> in_bounds self c ->
  exists r, get_reward self st a c = Ok r.
Proof.
  intros Hwf [Hx Hy]. unfold get_reward.
  destruct (py_getitem_in_range (rewards self) (snd c)) as (row & Hrow & ->).
  { rewrite (wf_rows _ Hwf). lia. }
  cbn. pose proof (wf_cols _ Hwf) as Hcols.
  rewrite Forall_forall in Hcols.
  assert (Hlen : length row = Z.to_nat (width self)).
  { apply Hcols. by eapply list_elem_of_lookup_2. }
  destruct (py_getitem_in_range row (fst c)) as (r & _ & ->); [lia |].
  by exists r.
Qed.

(** The three statistics read the same cell as [get_reward]. *)
Lemma get_expected_reward_get_reward (self : GridWorld R) st a c :
  get_expected_reward self st a c
  = get_reward self st a c ≫= fun r => Ok (expected_value r).
Proof.
  unfold get_expected_reward, get_reward.
  destruct (py_getitem (rewards self) (snd c)); reflexivity.
Qed.

Lemma get_expected_reward_in_bounds (self : GridWorld R) st a c :
  well_formed self -> in_bounds self c ->
  exists q, get_expected_reward self st a c = Ok q.
Proof.
  intros Hwf Hc. rewrite get_expected_reward_get_reward.
  destruct (get_reward_in_bounds self st a c Hwf Hc) as [r ->]. cbn. eauto.
Qed.

(** A non-negative index beyond the grid raises. *)
Lemma get_expected_reward_out_of_bounds (self : GridWorld R) st a c :
  well_formed self -> 0 <= fst c -> 0 <= snd c -> ~ in_bounds self c ->
  get_expected_reward self st a c = Raise IndexError.
Proof.
  intros Hwf Hx Hy Hout. unfold get_expected_reward.
  destruct (decide (snd c < height self)) as [Hrow | Hrow].
  - destruct (py_getitem_in_range (rewards self) (snd c)) as (row & Hrow' & ->).
    { rewrite (wf_rows _ Hwf). lia. }
    cbn. pose proof (wf_cols _ Hwf) as Hcols.
    rewrite Forall_forall in Hcols.
    assert (Hlen : length row = Z.to_nat (width self)).
    { apply Hcols. by eapply list_elem_of_lookup_2. }
    rewrite py_getitem_above; [reflexivity |].
    unfold in_bounds in Hout. lia.
  - rewrite py_getitem_above; [reflexivity |].
    rewrite (wf_rows _ Hwf). lia.
Qed.

Lemma get_expected_reward_outcome (self : GridWorld R) st a c :
  (exists q, get_expected_reward self st a c = Ok q) \/
  get_expected_reward self st a c = Raise IndexError.
Proof.
  unfold get_expected_reward.
  destruct (py_getitem_outcome (rewards self) (snd c)) as [[row ->] | ->];
    cbn; [| by right].
  destruct (py_getitem_outcome row (fst c)) as [[r ->] | ->]; cbn; eauto.
Qed.

(** The barrier loop returns exactly when every query returns. *)
Lemma barrier_loop_Ok (self : GridWorld R) states acc bs :
  barrier_loop self states acc = Ok bs ->
  forall s, s ∈ states ->
    exists q, get_expected_reward self (decode_state self s) 0
                (decode_state self s) = Ok q.
Proof.
  revert acc. induction states as [| s0 states IH]; intros acc Hloop s Hs.
  - by apply elem_of_nil in Hs.
  - cbn in Hloop. bind_inv Hloop.
    apply elem_of_cons in Hs as [-> | Hs]; [eauto |].
    eapply IH; eauto.
Qed.

Lemma barrier_loop_total (self : GridWorld R) states acc :
  (forall s, s ∈ states ->
     exists q, get_expected_reward self (decode_state self s) 0
                 (decode_state self s) = Ok q) ->
  exists bs, barrier_loop self states acc = Ok bs.
Proof.
  revert acc. induction states as [| s0 states IH]; intros acc Hall.
  - cbn. eauto.
  - cbn. destruct (Hall s0) as [q ->]; [apply elem_of_cons; by left |].
    cbn. apply IH. intros s Hs. apply Hall, elem_of_cons. by right.
Qed.

Lemma barrier_loop_Raise (self : GridWorld R) states acc s :
  s ∈ states ->
  get_expected_reward self (decode_state self s) 0 (decode_state self s)
  = Raise IndexError ->
  barrier_loop self states acc = Raise IndexError.
Proof.
  revert acc. induction states as [| s0 states IH]; intros acc Hs Hraise.
  - by apply elem_of_nil in Hs.
  - cbn.
    destruct (get_expected_reward_outcome self (decode_state self s0) 0
                (decode_state self s0)) as [[q Hq] | Hq]; rewrite Hq; cbn.
    + apply elem_of_cons in Hs as [-> | Hs]; [congruence |].
      by apply IH.
    + reflexivity.
Qed.

(** On a grid that is not square some encoded state decodes to a cell
    outside the reward grid. *)
Lemma decode_leaves_grid (self : GridWorld R) :
  well_formed self -> height self <> width self ->
  exists s, 0 <= s < n_states self /\
            0 <= fst (decode_state self s) /\
            0 <= snd (decode_state self s) /\
            ~ in_bounds self (decode_state self s).
Proof.
  intros Hwf Hne.
  pose proof (wf_height _ Hwf) as Hh. pose proof (wf_width _ Hwf) as Hw.
  rewrite (wf_n_states _ Hwf).
  destruct (decide (height self < width self)) as [Hlt | Hge].
  - exists (width self - 1). unfold decode_state, in_bounds. cbn.
    rewrite Z.mod_small by lia. rewrite Z.div_small by lia.
    repeat split; try lia; nia.
  - exists ((height self - 1) * width self). unfold decode_state, in_bounds.
    cbn. rewrite Z.div_mul by lia. rewrite Z.mod_mul by lia.
    repeat split; try lia; nia.
Qed.

Lemma barrier_loop_square (self : GridWorld R) bs :
  well_formed self ->
  barrier_loop self (py_range (n_states self)) ∅ = Ok bs ->
  height self = width self.
Proof.
  intros Hwf Hloop. destruct (decide (height self = width self)) as [| Hne];
    [done | exfalso].
  destruct (decode_leaves_grid self Hwf Hne) as (s & Hs & Hx & Hy & Hout).
  destruct (barrier_loop_Ok self _ _ _ Hloop s) as [q Hq].
  { apply elem_of_seqZ. lia. }
  rewrite get_expected_reward_out_of_bounds in Hq by done. discriminate.
Qed.

End RewardGrid.

(** ** The constructor *)

Section Constructor.

Context {R : Type} `{RewardDistribution R}.

Lemma init_width_Ok h width w :
  0 < h -> init_width h width = Ok w -> 0 < w.
Proof.
  intros Hh. unfold init_width. destruct width as [w' |].
  - intros Hw. bind_inv Hw. apply py_assert_Ok, bool_decide_eq_true in Hrun.
    injection Hw as <-. lia.
  - intros [= <-]. done.
Qed.

(** What the first part of the constructor leaves in the object. *)
Lemma init_fields_Ok (params : Params R) (self : GridWorld R) :
  init_fields params = Ok self ->
  height self = p_height params /\
  init_width (p_height params) (p_width params) = Ok (width self) /\
  actions self = default [UP; RIGHT; DOWN; LEFT] (p_actions params) /\
  n_actions self = Z.of_nat (length (actions self)) /\
  init_transition_probabilities (p_proba params) (n_actions self)
  = Ok (transition_probabilities self) /\
  (0 <= p_proba params <= 1)%Q /\
  initial_state self = p_initial_state params /\
  (exists terminals msg,
     init_states (width self) (height self) (p_terminal_states params) msg
     = Ok terminals /\
     init_rewards (width self) (height self) (p_rewards params) terminals
     = Ok (rewards self, terminal_states self)) /\
  (exists msg,
     init_states (width self) (height self) (p_barrier_states params) msg
     = Ok (barrier_states self)) /\
  well_formed self.
Proof.
  unfold init_fields. intros Hinit.
  bind_inv Hinit as [] Hh. apply py_assert_Ok, bool_decide_eq_true in Hh.
  bind_inv Hinit as w Hw.
  bind_inv Hinit as [] Hp. apply py_assert_Ok, andb_true_iff in Hp as [Hp0 Hp1].
  apply Qle_bool_iff in Hp0, Hp1.
  bind_inv Hinit as tps Htps.
  bind_inv Hinit as terminals Hterm.
  bind_inv Hinit as barriers Hbar.
  bind_inv Hinit as [grid terminals'] Hrew.
  bind_inv Hinit as [] Hshape.
  apply py_assert_Ok, bool_decide_eq_true in Hshape.
  injection Hinit as <-. cbn.
  repeat split; cbn; eauto.
  - lia.
  - eapply init_width_Ok; [| exact Hw]. lia.
  - apply np_shape_Some in Hshape as [Hrows _].
    rewrite length_fmap in Hrows. lia.
  - apply np_shape_Some in Hshape as [_ Hcols].
    rewrite Forall_fmap in Hcols. eapply Forall_impl; [exact Hcols |].
    cbn. intros row Hrow. rewrite length_fmap in Hrow. lia.
Qed.

(** [reset] only assigns the episode attributes. *)
Lemma reset_Ok (self : GridWorld R) rng enc self' rng' :
  reset self rng = Ok (enc, self', rng') ->
  exists st,
    enc = encode_state self st /\
    self' = set_episode self enc st [] /\
    (initial_state self = None \/ initial_state self = Some st).
Proof.
  unfold reset. intros Hreset. bind_inv Hreset as [st rng1] Hst.
  injection Hreset as <- <- <-. exists st. repeat split.
  destruct (initial_state self); [right | by left].
  by injection Hst as <- _.
Qed.

Lemma reset_configuration (self : GridWorld R) rng enc self' rng' :
  reset self rng = Ok (enc, self', rng') ->
  configuration self' = configuration self.
Proof.
  intros Hreset. apply reset_Ok in Hreset as (st & _ & -> & _). reflexivity.
Qed.

(** The stages of a successful [step]. *)
Lemma step_Ok (self : GridWorld R) input rng enc reward done self' rng' :
  step self input rng = Ok (enc, reward, done, self', rng') ->
  exists probabilities sampled rng1,
    set_action_probabilities self input = Ok probabilities /\
    choice (py_range (n_actions self)) probabilities rng = Ok (sampled, rng1) /\
    get_sampled_reward self (state self) sampled (move_agent self sampled) rng1
    = Ok (reward, rng') /\
    done = is_terminal_state self (move_agent self sampled) /\
    enc = encode_state self (move_agent self sampled) /\
    self' = set_episode self enc (move_agent self sampled)
              (transitions self ++
               [{| tr_state := state self; tr_action := sampled;
                   tr_reward := reward;
                   tr_next_state := move_agent self sampled;
                   tr_done := done |}]).
Proof.
  unfold step. intros Hstep.
  bind_inv Hstep as probabilities Hprobs.
  bind_inv Hstep as [sampled rng1] Hchoice.
  bind_inv Hstep as [reward' rng2] Hreward.
  injection Hstep as <- <- <- <- <-.
  exists probabilities, sampled, rng1. repeat split; assumption.
Qed.

Lemma step_configuration (self : GridWorld R) input rng enc reward done self' rng' :
  step self input rng = Ok (enc, reward, done, self', rng') ->
  configuration self' = configuration self.
Proof.
  intros Hstep. apply step_Ok in Hstep as (? & ? & ? & _ & _ & _ & _ & _ & ->).
  reflexivity.
Qed.

(** The stages of a successful constructor call. *)
Lemma init_Ok (params : Params R) rng (self : GridWorld R) rng' :
  init params rng = Ok (self, rng') ->
  exists self0 enc self1 ws bs,
    init_fields params = Ok self0 /\
    reset self0 rng = Ok (enc, self1, rng') /\
    let self2 :=
      set_task (set_episode self1 enc (decode_state self1 enc) [])
        (default VARYING_BLOCKS (p_task params))
        (if bool_decide (p_task params = Some VARYING_VALUES)
         then Some (p_distinct_rewards params) else None) in
    let self3 := set_weights self2 ws (Z.of_nat (length ws)) in
    get_weights self2 = Ok ws /\
    barrier_loop self3 (py_range (n_states self3)) ∅ = Ok bs /\
    self = set_barrier_set self3 bs ((fun e => {[e]}) <$> elements bs).
Proof.
  unfold init. intros Hinit.
  bind_inv Hinit as self0 Hfields.
  bind_inv Hinit as [[enc self1] rng1] Hreset.
  bind_inv Hinit as ws Hws.
  bind_inv Hinit as bs Hbs.
  injection Hinit as <- <-.
  exists self0, enc, self1, ws, bs. repeat split; assumption.
Qed.

End Constructor.

(** ** Objects in use *)

Section Reachable.

Context {R : Type} `{RewardDistribution R}.

Lemma fill_weights_ext (self self' : GridWorld R) states ws :
  width self' = width self ->
  expected_rewards self' = expected_rewards self ->
  fill_weights self' states ws = fill_weights self states ws.
Proof.
  intros Hw He. revert ws.
  induction states as [| s states IH]; intros ws; [reflexivity |].
  cbn. unfold decode_state. rewrite Hw, He.
  destruct (py_getitem (expected_rewards self) _); cbn; try reflexivity.
  destruct (py_getitem _ _); cbn; try reflexivity.
  destruct (py_setitem _ _ _); cbn; try reflexivity. apply IH.
Qed.

Lemma get_weights_ext (self self' : GridWorld R) :
  task self' = task self ->
  distinct_rewards self' = distinct_rewards self ->
  rewards self' = rewards self ->
  expected_rewards self' = expected_rewards self ->
  width self' = width self ->
  n_states self' = n_states self ->
  get_weights self' = get_weights self.
Proof.
  intros Ht Hd Hr He Hw Hn. unfold get_weights.
  rewrite Ht, Hd, Hr, He, Hn.
  destruct (String.eqb _ _); [reflexivity |].
  destruct (np_shape _) as [[rows cols] |]; [| reflexivity].
  by rewrite (fill_weights_ext self self').
Qed.

Lemma well_formed_same_grid (self0 self : GridWorld R) :
  same_grid self0 self -> well_formed self0 -> well_formed self.
Proof.
  intros [Hh Hw _ Hn _ _ _ _ _ Hr He] []. split; rewrite ?Hh, ?Hw, ?Hn, ?Hr, ?He;
    assumption.
Qed.

Lemma constructed_well_formed (params : Params R) (self : GridWorld R) :
  constructed params self -> well_formed self.
Proof.
  intros Hc. destruct (c_fields _ _ Hc) as (self0 & Hinit & Hsame).
  eapply well_formed_same_grid; [exact Hsame |].
  apply init_fields_Ok in Hinit. tauto.
Qed.

(** Objects with the same configuration are constructed alike. *)
Lemma constructed_configuration (params : Params R) (self self' : GridWorld R) :
  configuration self' = configuration self ->
  constructed params self -> constructed params self'.
Proof.
  intros Hcfg [(self0 & Hinit & Hsame) Htask Hdist Hws Hn Hsq].
  assert (Hproj : forall {A} (f : GridWorld R -> A),
             f (configuration self') = f (configuration self))
    by (intros; by rewrite Hcfg).
  pose proof (Hproj _ height) as Hheight.
  pose proof (Hproj _ width) as Hwidth.
  pose proof (Hproj _ rewards) as Hrewards.
  pose proof (Hproj _ expected_rewards) as Hexpected.
  pose proof (Hproj _ n_states) as Hn_states.
  pose proof (Hproj _ task) as Htask'.
  pose proof (Hproj _ distinct_rewards) as Hdist'.
  pose proof (Hproj _ weights) as Hweights.
  pose proof (Hproj _ n_weights) as Hn_weights.
  cbn in *.
  split.
  - exists self0. split; [exact Hinit |].
    destruct Hsame. split.
    + congruence.
    + congruence.
    + by rewrite (Hproj _ actions : actions self' = actions self).
    + congruence.
    + by rewrite (Hproj _ n_actions : n_actions self' = n_actions self).
    + by rewrite (Hproj _ transition_probabilities
                  : transition_probabilities self' = _).
    + by rewrite (Hproj _ terminal_states : terminal_states self' = _).
    + by rewrite (Hproj _ barrier_states : barrier_states self' = _).
    + by rewrite (Hproj _ initial_state : initial_state self' = _).
    + congruence.
    + congruence.
  - congruence.
  - congruence.
  - rewrite Hweights, <- Hws. by apply get_weights_ext.
  - congruence.
  - congruence.
Qed.

(** The constructor returns square grids only, with the weights in place. *)
Lemma init_constructed (params : Params R) rng (self : GridWorld R) rng' :
  init params rng = Ok (self, rng') -> constructed params self.
Proof.
  intros Hinit.
  apply init_Ok in Hinit
    as (self0 & enc & self1 & ws & bs & Hfields & Hreset & Hws & Hbs & ->).
  apply reset_Ok in Hreset as (st & _ & -> & _).
  pose proof (init_fields_Ok _ _ Hfields) as Hfacts.
  assert (Hwf : well_formed self0) by tauto.
  split; try reflexivity.
  - exists self0. split; [exact Hfields |]. by split.
  - etransitivity; [| exact Hws]. by apply get_weights_ext.
  - refine (barrier_loop_square _ bs _ Hbs).
    destruct Hwf. by split.
Qed.

Lemma reachable_constructed (params : Params R) (self : GridWorld R) :
  reachable params self -> constructed params self.
Proof.
  induction 1 as [rng self rng' Hinit
                 | self rng enc self' rng' _ IH Hreset
                 | self a rng enc reward done self' rng' _ IH Hstep].
  - by eapply init_constructed.
  - eapply constructed_configuration; [| exact IH].
    by eapply reset_configuration.
  - eapply constructed_configuration; [| exact IH].
    by eapply step_configuration.
Qed.

End Reachable.

(** ** Reward queries *)

Section RewardQueries.

Context {R : Type} `{RewardDistribution R}.

(** C9: the four reward queries give the same result whatever the [state]
    and [action] arguments are; each is a function of the reward object
    that [get_reward] finds at the destination cell [next_state]. *)
Theorem reward_queries_depend_on_destination_only
    (self : GridWorld R) (next_state : Coordinate)
    (state1 state2 : Coordinate) (action1 action2 : Z) (rng : RandomState) :
  (get_sampled_reward self state1 action1 next_state rng
   = get_sampled_reward self state2 action2 next_state rng /\
   get_expected_reward self state1 action1 next_state
   = get_expected_reward self state2 action2 next_state /\
   get_expected_reward_squared self state1 action1 next_state
   = get_expected_reward_squared self state2 action2 next_state /\
   get_reward_variance self state1 action1 next_state
   = get_reward_variance self state2 action2 next_state) /\
  (get_sampled_reward self state1 action1 next_state rng
   = (get_reward self state2 action2 next_state ≫= fun r =>
      sample r rng ≫= fun '(draws, rng') =>
      py_getitem draws 0 ≫= fun v => Ok (v, rng')) /\
   get_expected_reward self state1 action1 next_state
   = (get_reward self state2 action2 next_state ≫= fun r =>
      Ok (expected_value r)) /\
   get_expected_reward_squared self state1 action1 next_state
   = (get_reward self state2 action2 next_state ≫= fun r =>
      Ok (expected_value_squared r)) /\
   get_reward_variance self state1 action1 next_state
   = (get_reward self state2 action2 next_state ≫= fun r =>
      Ok (variance r))).
Proof.
  split; [repeat split; reflexivity |].
  unfold get_sampled_reward, get_expected_reward, get_expected_reward_squared,
    get_reward_variance, get_reward.
  repeat split;
    destruct (py_getitem (rewards self) (snd next_state)); reflexivity.
Qed.

End RewardQueries.

(** ** Movement and episodes *)

Section Movement.

Context {R : Type} `{RewardDistribution R}.

(** The branches of [move_agent]: the first direction whose guard holds
    decides, and without one the agent stays. *)
Lemma move_agent_cases (self : GridWorld R) action :
  let x := fst (state self) in
  let y := snd (state self) in
  (action = UP /\ y < height self - 1 /\ ((x, y + 1) ∉ barrier_states self) /\
   move_agent self action = (x, y + 1)) \/
  (action = DOWN /\ y > 0 /\ ((x, y - 1) ∉ barrier_states self) /\
   move_agent self action = (x, y - 1)) \/
  (action = LEFT /\ x > 0 /\ ((x - 1, y) ∉ barrier_states self) /\
   move_agent self action = (x - 1, y)) \/
  (action = RIGHT /\ x < width self - 1 /\
   ((x + 1, y) ∉ barrier_states self) /\
   move_agent self action = (x + 1, y)) \/
  (move_agent self action = (x, y) /\
   ~ (action = UP /\ y < height self - 1 /\
      ((x, y + 1) ∉ barrier_states self)) /\
   ~ (action = DOWN /\ y > 0 /\ ((x, y - 1) ∉ barrier_states self)) /\
   ~ (action = LEFT /\ x > 0 /\ ((x - 1, y) ∉ barrier_states self)) /\
   ~ (action = RIGHT /\ x < width self - 1 /\
      ((x + 1, y) ∉ barrier_states self))).
Proof.
  unfold move_agent. destruct (state self) as [x y]. cbn [fst snd].
  assert (Hguard : forall P Q S `{Decision P, Decision Q, Decision S},
            bool_decide P && bool_decide Q && bool_decide S = true
            <-> P /\ Q /\ S).
  { intros P Q S ? ? ?. rewrite !andb_true_iff, !bool_decide_eq_true. tauto. }
  destruct (bool_decide (action = UP) && _ && _) eqn:Hup.
  { apply Hguard in Hup. left. tauto. }
  destruct (bool_decide (action = DOWN) && _ && _) eqn:Hdown.
  { apply Hguard in Hdown. right. left. tauto. }
  destruct (bool_decide (action = LEFT) && _ && _) eqn:Hleft.
  { apply Hguard in Hleft. do 2 right. left. tauto. }
  destruct (bool_decide (action = RIGHT) && _ && _) eqn:Hright.
  { apply Hguard in Hright. do 3 right. left. tauto. }
  do 4 right. split; [reflexivity |].
  repeat split; intros Hc; apply (proj2 (Hguard _ _ _ _ _ _)) in Hc;
    congruence.
Qed.

(** A move never ends on a barrier cell it did not start from. *)
Lemma move_agent_outcome (self : GridWorld R) action :
  move_agent self action = state self \/
  move_agent self action ∉ barrier_states self.
Proof.
  destruct (move_agent_cases self action)
    as [(_ & _ & Hfree & ->) | [(_ & _ & Hfree & ->) | [(_ & _ & Hfree & ->)
       | [(_ & _ & Hfree & ->) | (-> & _)]]]]; auto.
  left. by destruct (state self).
Qed.

Lemma move_agent_blocked (self : GridWorld R) action :
  in_bounds self (state self) -> blocked self (state self) action ->
  move_agent self action = state self.
Proof.
  intros [Hx Hy] (d & Hd & Hblocked).
  assert (Hstay : move_agent self action
                  = (fst (state self), snd (state self))
                  -> move_agent self action = state self).
  { intros ->. by destruct (state self). }
  unfold destination in Hd. unfold in_bounds in Hblocked.
  destruct (state self) as [x y] eqn:Hstate. cbn [fst snd] in *.
  destruct (move_agent_cases self action)
    as [(Ha & Hg & Hfree & _) | [(Ha & Hg & Hfree & _)
       | [(Ha & Hg & Hfree & _) | [(Ha & Hg & Hfree & _) | (Hmove & _)]]]];
    rewrite Hstate in *; cbn [fst snd] in *;
    [| | | | by apply Hstay];
    exfalso; subst action; unfold UP, DOWN, LEFT, RIGHT in Hd;
    repeat (case_bool_decide; [| discriminate || lia]);
    repeat (case_bool_decide; [discriminate || lia |]);
    try (case_bool_decide; [| done]);
    injection Hd as <-; cbn [fst snd] in Hblocked;
    destruct Hblocked as [Hout | Hbar]; try contradiction; apply Hout; lia.
Qed.

(** C5: from a coordinate of the grid, an action whose destination is off
    the grid or on a barrier leaves [move_agent] at the current coordinate
    ([move_agent] is a total function: it has no error outcome), and a
    [step] that samples such an action stays in place and returns the
    reward sampled from the current cell; such a [step] returns whenever
    sampling the reward of the current cell does. *)
Theorem blocked_move_is_self_transition (self : GridWorld R) :
  in_bounds self (state self) ->
  (forall action, blocked self (state self) action ->
     move_agent self action = state self) /\
  (forall input rng enc reward done self' rng',
     step self input rng = Ok (enc, reward, done, self', rng') ->
     exists sampled rng1,
       last (transitions self')
       = Some {| tr_state := state self; tr_action := sampled;
                 tr_reward := reward; tr_next_state := state self';
                 tr_done := done |} /\
       (blocked self (state self) sampled ->
        state self' = state self /\
        get_sampled_reward self (state self) sampled (state self) rng1
        = Ok (reward, rng'))) /\
  (forall input rng probabilities sampled rng1 reward rng2,
     set_action_probabilities self input = Ok probabilities ->
     choice (py_range (n_actions self)) probabilities rng = Ok (sampled, rng1) ->
     blocked self (state self) sampled ->
     get_sampled_reward self (state self) sampled (state self) rng1
     = Ok (reward, rng2) ->
     exists self',
       step self input rng
       = Ok (encode_state self (state self), reward,
             is_terminal_state self (state self), self', rng2) /\
       state self' = state self).
Proof.
  intros Hin. split; [intros action; by apply move_agent_blocked |]. split.
  - intros input rng enc reward done self' rng' Hstep.
    apply step_Ok in Hstep
      as (probabilities & sampled & rng1 & _ & _ & Hreward & _ & _ & ->).
    exists sampled, rng1. cbn. split; [apply last_snoc |].
    intros Hblocked.
    rewrite (move_agent_blocked self sampled Hin Hblocked) in *.
    by split.
  - intros input rng probabilities sampled rng1 reward rng2
      Hprobs Hchoice Hblocked Hreward.
    unfold step. rewrite Hprobs. cbn. rewrite Hchoice. cbn.
    rewrite (move_agent_blocked self sampled Hin Hblocked), Hreward. cbn.
    eexists. split; reflexivity.
Qed.

(** C6: the [done] flag of a [step] says whether the coordinate the step
    ended on is a terminal state. *)
Theorem step_done_iff_terminal (self : GridWorld R) input rng enc reward done
    self' rng' :
  step self input rng = Ok (enc, reward, done, self', rng') ->
  (done = true <-> state self' ∈ terminal_states self') /\
  terminal_states self' = terminal_states self /\
  enc = encode_state self' (state self').
Proof.
  intros Hstep.
  apply step_Ok in Hstep
    as (probabilities & sampled & rng1 & _ & _ & _ & -> & -> & ->).
  cbn. unfold is_terminal_state. repeat split.
  - apply bool_decide_eq_true_1.
  - apply bool_decide_eq_true_2.
Qed.

Lemma step_barrier_states (self : GridWorld R) input rng enc reward done
    self' rng' :
  step self input rng = Ok (enc, reward, done, self', rng') ->
  barrier_states self' = barrier_states self /\
  (state self' = state self \/ state self' ∉ barrier_states self).
Proof.
  intros Hstep.
  apply step_Ok in Hstep
    as (probabilities & sampled & rng1 & _ & _ & _ & _ & _ & ->).
  cbn. split; [reflexivity | apply move_agent_outcome].
Qed.

Lemma run_steps_avoid_barriers (self : GridWorld R) inputs rng visited self'
    rng' :
  state self ∉ barrier_states self ->
  run_steps self inputs rng = Ok (visited, self', rng') ->
  forall c, c ∈ visited -> c ∉ barrier_states self.
Proof.
  revert self rng visited.
  induction inputs as [| a inputs IH]; intros self rng visited Hfree Hrun c Hc.
  - injection Hrun as <- _ _. by apply elem_of_nil in Hc.
  - cbn in Hrun. bind_inv Hrun as [[[[enc reward] done] self1] rng1] Hstep.
    bind_inv Hrun as [[visited' self2] rng2] Hrest.
    injection Hrun as <- <- <-.
    apply step_barrier_states in Hstep as [Hsame Hmove].
    assert (Hfree1 : state self1 ∉ barrier_states self1).
    { rewrite Hsame. destruct Hmove as [-> | Hmove]; assumption. }
    apply elem_of_cons in Hc as [-> | Hc].
    + by rewrite <- Hsame.
    + rewrite <- Hsame. by eapply IH.
Qed.

(** C2, as the code has it: in an episode that [reset] starts off the
    barrier cells, no coordinate after a [step] is a configured barrier. *)
Theorem barrier_never_entered (self : GridWorld R) rng enc self1 rng1 inputs
    visited self2 rng2 :
  reset self rng = Ok (enc, self1, rng1) ->
  state self1 ∉ barrier_states self ->
  run_steps self1 inputs rng1 = Ok (visited, self2, rng2) ->
  forall b, b ∈ barrier_states self -> forall c, c ∈ visited -> c <> b.
Proof.
  intros Hreset Hstart Hrun b Hb c Hc ->.
  apply reset_Ok in Hreset as (st & _ & -> & _).
  by apply (run_steps_avoid_barriers _ _ _ _ _ _ Hstart Hrun b).
Qed.

End Movement.

(** C2 fails as stated: in
    [GridWorld(3, proba=1.0, barrier_states=[(0, 0)], initial_state=(0, 0))]
    the episode starts on the barrier cell [(0, 0)]; the action DOWN is
    resolved as DOWN, the move is refused and the coordinate after the
    [step] is the barrier [(0, 0)] itself. *)
Lemma barrier_start_is_revisited :
  exists self enc self1 visited self2,
    init barrier_start_grid [] = Ok (self, []) /\
    reset self [0.5%Q] = Ok (enc, self1, [0.5%Q]) /\
    run_steps self1 [DOWN] [0.5%Q] = Ok (visited, self2, []) /\
    (0, 0) ∈ barrier_states self /\
    visited = [(0, 0)].
Proof.
  eexists _, _, _, _, _.
  split; [vm_compute; reflexivity |].
  split; [vm_compute; reflexivity |].
  split; [vm_compute; reflexivity |].
  split; [constructor | reflexivity].
Qed.

(** ** The barrier set *)

Section BarrierSet.

Context {R : Type} `{RewardDistribution R}.

Lemma in_range_states (self : GridWorld R) s :
  s ∈ py_range (n_states self) <-> 0 <= s < n_states self.
Proof. unfold py_range. rewrite elem_of_seqZ. lia. Qed.

(** C10: the loop that fills the barrier set queries the expected reward
    of [decode_state s] for every [s] in [range(n_states)].  On a square
    grid every such query reads a cell of the reward grid and the loop
    returns.  On a grid that is not square some [s] decodes to a cell
    outside the grid and the query, hence the loop, raises [IndexError];
    the grid of [GridWorld(3, width=2)] is one. *)
Theorem barrier_set_indexing :
  (forall self : GridWorld R,
     well_formed self -> height self = width self ->
     (forall s, 0 <= s < n_states self ->
        in_bounds self (decode_state self s) /\
        exists q, get_expected_reward self (decode_state self s) 0
                    (decode_state self s) = Ok q) /\
     exists bs, barrier_loop self (py_range (n_states self)) ∅ = Ok bs) /\
  (forall self : GridWorld R,
     well_formed self -> height self <> width self ->
     exists s, 0 <= s < n_states self /\
       ~ in_bounds self (decode_state self s) /\
       get_expected_reward self (decode_state self s) 0 (decode_state self s)
       = Raise IndexError /\
       barrier_loop self (py_range (n_states self)) ∅ = Raise IndexError) /\
  (exists self : GridWorld R,
     init_fields (default_params 3 (Some 2)) = Ok self /\
     well_formed self /\ height self <> width self).
Proof.
  split; [| split].
  - intros self Hwf Hsq.
    assert (Hall : forall s, 0 <= s < n_states self ->
              in_bounds self (decode_state self s) /\
              exists q, get_expected_reward self (decode_state self s) 0
                          (decode_state self s) = Ok q).
    { intros s Hs. rewrite (wf_n_states _ Hwf) in Hs.
      destruct (codec_square self (wf_width _ Hwf) Hsq) as [_ Hdec].
      destruct (Hdec s Hs) as [_ Hin]. split; [exact Hin |].
      by apply get_expected_reward_in_bounds. }
    split; [exact Hall |].
    apply barrier_loop_total. intros s Hs. apply in_range_states in Hs.
    by apply Hall.
  - intros self Hwf Hne.
    destruct (decode_leaves_grid self Hwf Hne) as (s & Hs & Hx & Hy & Hout).
    exists s.
    assert (Hraise : get_expected_reward self (decode_state self s) 0
                       (decode_state self s) = Raise IndexError)
      by by apply get_expected_reward_out_of_bounds.
    repeat split; try assumption; try lia.
    eapply barrier_loop_Raise; [| exact Hraise]. by apply in_range_states.
  - eexists. split; [vm_compute; reflexivity |].
    split; [| cbn; lia].
    split; cbn; try lia; try reflexivity.
    repeat constructor.
Qed.

(** The constructor never returns an object for a grid that is not
    square. *)
Lemma init_square (params : Params R) rng (self : GridWorld R) rng' :
  init params rng = Ok (self, rng') ->
  height self = width self /\ well_formed self.
Proof.
  intros Hinit. apply init_constructed in Hinit.
  split; [by destruct Hinit | by eapply constructed_well_formed].
Qed.

End BarrierSet.

(** The square case of [barrier_set_indexing] on the object of
    [GridWorld(3, proba=1.0, initial_state=(0, 0))]. *)
Lemma barrier_set_indexing_witness :
  exists self : GridWorld PointMass,
    init open_grid [] = Ok (self, []) /\
    exists bs, barrier_loop self (py_range (n_states self)) ∅ = Ok bs.
Proof.
  eexists. split; [vm_compute; reflexivity |].
  refine (proj2 (proj1 barrier_set_indexing _ _ _)).
  - split; cbn; try lia; try reflexivity. repeat constructor.
  - reflexivity.
Defined.

(** ** Action probabilities *)

Section ActionProbabilities.

Context {R : Type} `{RewardDistribution R}.

(** With the default action list the object holds the four actions and the
    vector [[p, d, d, 0]], [d] being the float quotient [(1 - p) / 2]. *)
Lemma default_actions_constructed (params : Params R) (self : GridWorld R) :
  constructed params self -> p_actions params = None ->
  actions self = [0; 1; 2; 3] /\ n_actions self = 4 /\
  transition_probabilities self
  = [p_proba params; float_div (float_sub 1 (p_proba params)) 2;
     float_div (float_sub 1 (p_proba params)) 2; 0%Q] /\
  (0 <= p_proba params <= 1)%Q.
Proof.
  intros Hc Hdefault. destruct (c_fields _ _ Hc) as (self0 & Hinit & Hsame).
  apply init_fields_Ok in Hinit
    as (_ & _ & Hacts & Hn & Htps & Hp & _).
  rewrite Hdefault in Hacts. cbn in Hacts.
  rewrite Hacts in Hn. cbn in Hn. rewrite Hn in Htps.
  unfold init_transition_probabilities in Htps. cbn in Htps.
  change (py_float (inject_Z 2)) with 2%Q in Htps.
  injection Htps as Htps.
  rewrite (sg_actions _ _ Hsame), (sg_n_actions _ _ Hsame),
    (sg_transition_probabilities _ _ Hsame), <- Htps.
  split; [exact Hacts |]. split; [exact Hn |]. split; [reflexivity | exact Hp].
Qed.

Lemma Qsum_probabilities (a b c d : Q) :
  (Qsum [a; b; c; d] == a + b + c + d)%Q.
Proof. unfold Qsum. cbn. ring. Qed.

(** C3, as the code has it: for the default action list, an intended
    action [a] in [0..3] and the constructor's [proba] (which the
    constructor checks to lie in [0, 1]), [set_action_probabilities]
    returns four entries: [proba] at [a], the drift [d] at [(a + 1) mod 4]
    and at [(a - 1) mod 4], and 0 at [(a + 2) mod 4], where [d] is the
    float quotient [(1 - proba) / 2], the difference and the quotient each
    rounded to a double.  The entries are non-negative, [d] lies within
    [2 ^ -54] of the real number [(1 - proba) / 2], and the entries add up
    to 1 within [2 ^ -53]. *)
Theorem action_probabilities (params : Params R) (self : GridWorld R) (a : Z) :
  reachable params self -> p_actions params = None -> 0 <= a < 4 ->
  let d := float_div (float_sub 1 (p_proba params)) 2 in
  exists probabilities,
    set_action_probabilities self a = Ok probabilities /\
    length probabilities = 4%nat /\
    probabilities !! Z.to_nat a = Some (p_proba params) /\
    probabilities !! Z.to_nat ((a + 1) `mod` 4) = Some d /\
    probabilities !! Z.to_nat ((a - 1) `mod` 4) = Some d /\
    probabilities !! Z.to_nat ((a + 2) `mod` 4) = Some 0%Q /\
    Forall (fun q => (0 <= q)%Q) probabilities /\
    (Qabs (d - (1 - p_proba params) / 2) <= pow2 (-54))%Q /\
    (Qabs (Qsum probabilities - 1) <= pow2 (-53))%Q.
Proof.
  intros Hreach Hdefault Ha.
  apply reachable_constructed in Hreach.
  destruct (default_actions_constructed _ _ Hreach Hdefault)
    as (Hacts & Hn & Htps & Hp0 & Hp1).
  unfold set_action_probabilities. rewrite Hacts, Hn, Htps.
  set (p := p_proba params) in *.
  destruct (drift_rounding p (conj Hp0 Hp1)) as (Hd & Herr & Hsum).
  cbv zeta in *. remember (float_div (float_sub 1 p) 2) as d eqn:Hdrift.
  assert (Hcases : a = 0 \/ a = 1 \/ a = 2 \/ a = 3) by lia.
  destruct Hcases as [-> | [-> | [-> | ->]]];
    [ exists [p; d; 0%Q; d] | exists [d; p; d; 0%Q]
    | exists [0%Q; d; p; d] | exists [d; 0%Q; d; p] ];
    (do 6 (split; [reflexivity |]); split;
     [ repeat (apply Forall_cons_2; [first [assumption | apply Qle_refl] |]);
       apply Forall_nil_2
     | split; [exact Herr |];
       match goal with
       | |- (Qabs ?t <= _)%Q =>
           assert (Heq : (t == p + d + d + 0 - 1)%Q)
             by (rewrite Qsum_probabilities; ring);
           rewrite Heq; exact Hsum
       end ]).
Qed.

End ActionProbabilities.

(** The exact quotient does not survive the rounding: in
    [GridWorld(3, proba=0.062, initial_state=(0, 0))] the difference
    [1 - proba] has 54 significant bits, the drift entry is the double
    [4224376450473525 / 2 ^ 53] instead of [(1 - proba) / 2], and the four
    entries add up to [1 - 2 ^ -54]. *)
Lemma rounded_drift_misses_one :
  exists (self : GridWorld PointMass) probabilities,
    init drifting_grid [] = Ok (self, []) /\
    (0 <= p_proba drifting_grid <= 1)%Q /\
    set_action_probabilities self UP = Ok probabilities /\
    probabilities !! 1%nat = Some (4224376450473525 # 9007199254740992) /\
    ~ (4224376450473525 # 9007199254740992
       == (1 - p_proba drifting_grid) / 2)%Q /\
    (Qsum probabilities == 1 - pow2 (-54))%Q /\
    ~ (Qsum probabilities == 1)%Q.
Proof.
  eexists _, _.
  split; [vm_compute; reflexivity |].
  split; [split; vm_compute; discriminate |].
  split; [vm_compute; reflexivity |].
  split; [vm_compute; reflexivity |].
  split; [intros Hc; vm_compute in Hc; discriminate |].
  split; [vm_compute; reflexivity |].
  intros Hc. vm_compute in Hc. discriminate.
Qed.

(** [action_probabilities] at the intended action UP of
    [GridWorld(3, proba=0.062, initial_state=(0, 0))]. *)
Lemma action_probabilities_witness :
  exists self : GridWorld PointMass,
    init drifting_grid [] = Ok (self, []) /\
    exists probabilities,
      set_action_probabilities self UP = Ok probabilities /\
      probabilities !! 0%nat = Some (1116892707587883 # 18014398509481984) /\
      probabilities !! 1%nat = Some (4224376450473525 # 9007199254740992) /\
      (Qabs (Qsum probabilities - 1) <= pow2 (-53))%Q.
Proof.
  eexists. split; [vm_compute; reflexivity |].
  match goal with
  | |- exists p, set_action_probabilities ?self _ = _ /\ _ =>
      pose proof (action_probabilities drifting_grid self UP)
        as Hprobs
  end.
  destruct Hprobs
    as (probabilities & Hrun & _ & Hup & Hright & _ & _ & _ & _ & Hsum).
  - apply (reachable_init _ [] _ []). vm_compute. reflexivity.
  - reflexivity.
  - unfold UP. lia.
  - exists probabilities. repeat split; assumption.
Defined.

(** [blocked_move_is_self_transition] on the object of
    [GridWorld(3, proba=1.0, barrier_states=[(1, 2)], initial_state=(1, 1))]:
    UP from [(1, 1)] runs into the barrier [(1, 2)]. *)
Lemma blocked_move_is_self_transition_witness :
  exists (self self' : GridWorld PointMass),
    init blocked_grid [] = Ok (self, []) /\
    state self = (1, 1) /\
    blocked self (state self) UP /\
    move_agent self UP = state self /\
    step self UP [0.5%Q] = Ok (4, (-1)%Q, false, self', []) /\
    state self' = state self.
Proof.
  eexists _, _. split; [vm_compute; reflexivity |].
  split; [reflexivity |].
  match goal with
  | |- blocked ?self _ _ /\ _ =>
      assert (Hin : in_bounds self (state self))
        by (vm_compute; repeat split; first [reflexivity | discriminate]);
      assert (Hblocked : blocked self (state self) UP)
        by (exists (1, 2); split; [reflexivity | right; constructor]);
      pose proof (blocked_move_is_self_transition self Hin)
        as (Hmove & Hstep & _)
  end.
  split; [exact Hblocked |].
  split; [exact (Hmove UP Hblocked) |].
  match goal with
  | |- ?run = Ok (_, _, _, ?self', _) /\ _ =>
      assert (Hrun : run = Ok (4, (-1)%Q, false, self', []))
        by (vm_compute; reflexivity)
  end.
  split; [exact Hrun |].
  destruct (Hstep _ _ _ _ _ _ _ Hrun) as (sampled & rng1 & Hlast & Hstay).
  injection Hlast as <-.
  by destruct (Hstay Hblocked).
Defined.

(** [step_done_iff_terminal] on the object of
    [GridWorld(3, proba=1.0, initial_state=(2, 1))]: UP reaches the terminal
    cell [(2, 2)]. *)
Lemma step_done_iff_terminal_witness :
  exists (self self' : GridWorld PointMass),
    init near_goal_grid [] = Ok (self, []) /\
    step self UP [0.5%Q] = Ok (8, 0%Q, true, self', []) /\
    state self' ∈ terminal_states self'.
Proof.
  eexists _, _. split; [vm_compute; reflexivity |].
  match goal with
  | |- ?run = Ok (_, _, _, ?self', _) /\ _ =>
      assert (Hrun : run = Ok (8, 0%Q, true, self', []))
        by (vm_compute; reflexivity)
  end.
  split; [exact Hrun |].
  by apply (proj1 (step_done_iff_terminal _ _ _ _ _ _ _ _ Hrun)).
Defined.

(** [barrier_never_entered] on the object of
    [GridWorld(3, proba=1.0, barrier_states=[(1, 2)], initial_state=(1, 1))]:
    the episode UP, RIGHT visits [(1, 1)] and [(2, 1)]. *)
Lemma barrier_never_entered_witness :
  exists (self self1 self2 : GridWorld PointMass),
    init blocked_grid [] = Ok (self, []) /\
    reset self [0.5%Q; 0.5%Q] = Ok (4, self1, [0.5%Q; 0.5%Q]) /\
    (state self1 ∉ barrier_states self) /\
    run_steps self1 [UP; RIGHT] [0.5%Q; 0.5%Q]
    = Ok ([(1, 1); (2, 1)], self2, []) /\
    forall c, c ∈ [(1, 1); (2, 1)] -> c <> (1, 2).
Proof.
  eexists _, _, _. split; [vm_compute; reflexivity |].
  match goal with
  | |- ?run = Ok (_, ?self1, _) /\ _ =>
      assert (Hreset : run = Ok (4, self1, [0.5%Q; 0.5%Q]))
        by (vm_compute; reflexivity)
  end.
  split; [exact Hreset |].
  match goal with
  | |- ?P /\ _ =>
      assert (Hstart : P)
        by (intros Hon; apply list_elem_of_singleton in Hon; discriminate)
  end.
  split; [exact Hstart |].
  match goal with
  | |- ?run = Ok (_, ?self2, _) /\ _ =>
      assert (Hrun : run = Ok ([(1, 1); (2, 1)], self2, []))
        by (vm_compute; reflexivity)
  end.
  split; [exact Hrun |].
  intros c Hc.
  apply (barrier_never_entered _ _ _ _ _ _ _ _ _ Hreset Hstart Hrun (1, 2));
    [constructor | exact Hc].
Defined.

(** ** Default rewards *)

Lemma py_getitem_lookup {A} (l : list A) i a :
  0 <= i -> l !! Z.to_nat i = Some a -> py_getitem l i = Ok a.
Proof.
  intros Hi Hl. pose proof (lookup_lt_Some _ _ _ Hl).
  destruct (py_getitem_in_range l i) as (a' & Hl' & ->); [lia |]. congruence.
Qed.

Lemma set_cell_in_range {A} (grid : list (list A)) x y v row :
  0 <= x < Z.of_nat (length row) -> 0 <= y ->
  grid !! Z.to_nat y = Some row ->
  set_cell grid x y v = Ok (<[Z.to_nat y := <[Z.to_nat x := v]> row]> grid).
Proof.
  intros Hx Hy Hrow. pose proof (lookup_lt_Some _ _ _ Hrow).
  unfold set_cell. rewrite (py_getitem_lookup grid y row) by done. cbn.
  rewrite py_setitem_in_range by done. cbn.
  rewrite py_setitem_in_range by lia. reflexivity.
Qed.

Section DefaultRewards.

Context {R : Type} `{DeterministicRewards R}.

(** Without a [rewards] argument and without terminal states the grid holds
    the reward [-1] everywhere but in the last cell of the last row, and the
    terminal list is [[(height - 1, width - 1)]]. *)
Lemma init_rewards_default (w h : Z) grid terminals :
  0 < w -> 0 < h ->
  init_rewards w h None [] = Ok (grid, terminals) ->
  terminals = [(h - 1, w - 1)] /\
  grid = <[Z.to_nat (h - 1) :=
            <[Z.to_nat (w - 1) := StochasticReward None true 0%Q]>
              (replicate (Z.to_nat w)
                 (StochasticReward (Some (-1)%Q) true (-1)%Q))]>
           (replicate (Z.to_nat h)
              (replicate (Z.to_nat w)
                 (StochasticReward (Some (-1)%Q) true (-1)%Q))).
Proof.
  intros Hw Hh. unfold init_rewards.
  rewrite bool_decide_eq_false_2 by (intros Hne; by apply Hne).
  erewrite set_cell_in_range.
  - cbn. by intros [= <- <-].
  - rewrite length_replicate. lia.
  - lia.
  - apply lookup_replicate_2. lia.
Qed.

Lemma init_states_empty (w h : Z) states msg terminals :
  states = None \/ states = Some [] ->
  init_states w h states msg = Ok terminals -> terminals = [].
Proof. intros [-> | ->]; cbn; by intros [= <-]. Qed.

(** C4: an object constructed without a [rewards] argument and without
    terminal states has the bottom-right cell [(width - 1, height - 1)] as
    its only terminal state; that cell holds the deterministic reward 0 and
    every other cell of the grid the deterministic reward [-1], and the
    expected rewards are 0 and [-1] accordingly. *)
Theorem default_reward_construction (params : Params R) (self : GridWorld R) :
  reachable params self ->
  p_rewards params = None ->
  p_terminal_states params = None \/ p_terminal_states params = Some [] ->
  terminal_states self = [(width self - 1, height self - 1)] /\
  forall x y st a,
    0 <= x < width self -> 0 <= y < height self ->
    if bool_decide ((x, y) = (width self - 1, height self - 1))
    then get_reward self st a (x, y) = Ok (StochasticReward None true 0%Q) /\
         get_expected_reward self st a (x, y) = Ok 0%Q
    else get_reward self st a (x, y)
         = Ok (StochasticReward (Some (-1)%Q) true (-1)%Q) /\
         get_expected_reward self st a (x, y) = Ok (-1)%Q.
Proof.
  intros Hreach Hnone Hterm. apply reachable_constructed in Hreach.
  pose proof (constructed_well_formed _ _ Hreach) as Hwf.
  pose proof (c_square _ _ Hreach) as Hsq.
  destruct (c_fields _ _ Hreach) as (self0 & Hinit & Hsame).
  apply init_fields_Ok in Hinit
    as (_ & _ & _ & _ & _ & _ & _ & (terminals & msg & Hstates & Hrew) & _ & _).
  apply (init_states_empty _ _ _ _ _ Hterm) in Hstates as ->.
  rewrite Hnone in Hrew.
  rewrite <- (sg_width _ _ Hsame), <- (sg_height _ _ Hsame),
    <- (sg_rewards _ _ Hsame), <- (sg_terminal_states _ _ Hsame) in Hrew.
  apply init_rewards_default in Hrew as [Hterminals Hgrid];
    [| apply (wf_width _ Hwf) | apply (wf_height _ Hwf)].
  split; [rewrite Hterminals; by rewrite Hsq |].
  intros x y st a Hx Hy.
  assert (Hcell : get_reward self st a (x, y)
                  = Ok (if bool_decide ((x, y) = (width self - 1, height self - 1))
                        then StochasticReward None true 0%Q
                        else StochasticReward (Some (-1)%Q) true (-1)%Q)).
  { unfold get_reward. cbn. rewrite Hgrid.
    destruct (decide (y = height self - 1)) as [-> | Hy'].
    - erewrite py_getitem_lookup;
        [| lia | apply list_lookup_insert_eq; rewrite length_replicate; lia].
      cbn. destruct (decide (x = width self - 1)) as [-> | Hx'].
      + rewrite bool_decide_eq_true_2 by done.
        apply py_getitem_lookup; [lia |].
        apply list_lookup_insert_eq. rewrite length_replicate. lia.
      + rewrite bool_decide_eq_false_2 by congruence.
        apply py_getitem_lookup; [lia |].
        rewrite list_lookup_insert_ne by lia.
        apply lookup_replicate_2. lia.
    - rewrite bool_decide_eq_false_2 by congruence.
      erewrite py_getitem_lookup;
        [| lia | rewrite list_lookup_insert_ne by lia;
                 apply lookup_replicate_2; lia ].
      cbn. apply py_getitem_lookup; [lia |].
      apply lookup_replicate_2. lia. }
  rewrite get_expected_reward_get_reward, Hcell.
  case_bool_decide; cbn; by rewrite expected_value_deterministic.
Qed.

End DefaultRewards.

(** [default_reward_construction] on the object of
    [GridWorld(3, proba=1.0, initial_state=(0, 0))]: the terminal list is
    [[(2, 2)]], the cell [(2, 2)] has expected reward 0 and the cell
    [(0, 1)] has expected reward [-1]. *)
Lemma default_reward_construction_witness :
  exists self : GridWorld PointMass,
    init open_grid [] = Ok (self, []) /\
    terminal_states self = [(2, 2)] /\
    get_expected_reward self (0, 0) UP (2, 2) = Ok 0%Q /\
    get_expected_reward self (0, 0) UP (0, 1) = Ok (-1)%Q.
Proof.
  eexists. split; [vm_compute; reflexivity |].
  match goal with
  | |- terminal_states ?self = _ /\ _ =>
      destruct (default_reward_construction open_grid self)
        as [Hterminal Hcells];
      [ apply (reachable_init _ [] _ []); vm_compute; reflexivity
      | reflexivity
      | left; reflexivity
      | ]
  end.
  split; [exact Hterminal |].
  split.
  - refine (proj2 (Hcells 2 2 (0, 0) UP _ _));
      vm_compute; repeat split; first [reflexivity | discriminate].
  - refine (proj2 (Hcells 0 1 (0, 0) UP _ _));
      vm_compute; repeat split; first [reflexivity | discriminate].
Defined.

(** ** Feature vectors *)

Section FeatureVectors.

Context {R : Type} `{RewardDistribution R}.

Lemma fill_weights_length (self : GridWorld R) states ws ws' :
  fill_weights self states ws = Ok ws' -> length ws' = length ws.
Proof.
  revert ws. induction states as [| s states IH]; intros ws Hfill.
  - by injection Hfill as <-.
  - cbn in Hfill. bind_inv Hfill as row Hrow. bind_inv Hfill as v Hv.
    bind_inv Hfill as ws1 Hset.
    rewrite (IH _ Hfill). by eapply py_setitem_length.
Qed.

(** In the first task mode the weight vector has one entry per state. *)
Lemma get_weights_length_states (self : GridWorld R) ws :
  well_formed self -> String.eqb (task self) VARYING_VALUES = false ->
  get_weights self = Ok ws ->
  length ws = Z.to_nat (height self * width self).
Proof.
  intros Hwf Htask. unfold get_weights. rewrite Htask.
  destruct (np_shape (expected_rewards self)) as [[rows cols] |] eqn:Hshape;
    [| discriminate].
  intros Hws. bind_inv Hws as ws0 Hfill. injection Hws as <-.
  rewrite length_fmap, (fill_weights_length _ _ _ _ Hfill).
  unfold np_zeros. rewrite py_repeat_length.
  apply np_shape_Some in Hshape as [Hrows Hcols].
  rewrite (wf_expected _ Hwf), length_fmap, (wf_rows _ Hwf) in Hrows.
  pose proof (wf_height _ Hwf) as Hh. pose proof (wf_width _ Hwf) as Hw.
  destruct (rewards self) as [| row grid] eqn:Hgrid.
  { pose proof (wf_rows _ Hwf) as Hlen. rewrite Hgrid in Hlen. cbn in Hlen. lia. }
  pose proof (wf_cols _ Hwf) as Hwidth. rewrite Hgrid in Hwidth.
  apply Forall_cons_1 in Hwidth as [Hrow _].
  rewrite (wf_expected _ Hwf), Hgrid in Hcols. cbn in Hcols.
  apply Forall_cons_1 in Hcols as [Hcol _].
  rewrite length_fmap in Hcol. f_equal. nia.
Qed.

(** C7: on every object the constructor returned, also after [reset] and
    [step] calls, a feature vector has as many entries as the weight vector
    that [get_weights] returns, in both task modes; and
    [get_feature_vector] does return a vector when [next_state] is a
    coordinate of the grid. *)
Theorem feature_vector_length (params : Params R) (self : GridWorld R)
    (state : Coordinate) (action : Z) (next_state : Coordinate) :
  reachable params self ->
  (exists ws, get_weights self = Ok ws /\
     forall v, get_feature_vector self state action next_state = Ok v ->
               length v = length ws) /\
  (in_bounds self next_state ->
   exists v, get_feature_vector self state action next_state = Ok v).
Proof.
  intros Hreach. apply reachable_constructed in Hreach.
  pose proof (constructed_well_formed _ _ Hreach) as Hwf.
  pose proof (c_weights _ _ Hreach) as Hws.
  pose proof (c_n_weights _ _ Hreach) as Hn.
  pose proof (c_square _ _ Hreach) as Hsq.
  split.
  - exists (weights self). split; [exact Hws |].
    intros v. unfold get_feature_vector.
    destruct (String.eqb (task self) VARYING_VALUES).
    + intros Hv. bind_inv Hv as reward Hreward. injection Hv as <-.
      apply length_fmap.
    + intros Hv. apply py_setitem_length in Hv. rewrite Hv.
      unfold np_zeros. rewrite py_repeat_length. lia.
  - intros [Hx Hy]. unfold get_feature_vector.
    destruct (String.eqb (task self) VARYING_VALUES) eqn:Htask.
    + destruct (get_reward_in_bounds self state action next_state Hwf)
        as [reward ->]; [by split |].
      cbn. eauto.
    + rewrite py_setitem_in_range; [eauto |].
      unfold np_zeros. rewrite py_repeat_length, Hn.
      rewrite (get_weights_length_states self _ Hwf Htask Hws).
      destruct next_state as [x y]. cbn in Hx, Hy.
      pose proof (encode_range self x y). lia.
Qed.

End FeatureVectors.

(** [feature_vector_length] on the object of
    [GridWorld(3, proba=1.0, initial_state=(0, 0))], first task mode, for
    the transition from [(0, 0)] to [(0, 1)]. *)
Lemma feature_vector_length_witness :
  exists (self : GridWorld PointMass) v ws,
    init open_grid [] = Ok (self, []) /\
    get_feature_vector self (0, 0) UP (0, 1) = Ok v /\
    get_weights self = Ok ws /\
    length v = length ws.
Proof.
  eexists _, _, _. split; [vm_compute; reflexivity |].
  match goal with
  | |- ?run = Ok ?v /\ _ =>
      assert (Hv : run = Ok v) by (vm_compute; reflexivity)
  end.
  split; [exact Hv |].
  match goal with
  | |- ?run = Ok ?ws /\ _ =>
      assert (Hws : run = Ok ws) by (vm_compute; reflexivity)
  end.
  split; [exact Hws |].
  match type of Hv with
  | get_feature_vector ?self _ _ _ = _ =>
      destruct (feature_vector_length open_grid self (0, 0) UP (0, 1))
        as [(ws' & Hws' & Hlen) _];
      [ apply (reachable_init _ [] _ []); vm_compute; reflexivity | ]
  end.
  rewrite Hws in Hws'. injection Hws' as <-. exact (Hlen _ Hv).
Defined.

(** ** Weights of the second task mode *)

Lemma concat_fmap_fmap {A B} (f : A -> B) (grid : list (list A)) :
  concat ((fun row : list A => f <$> row) <$> grid) = f <$> concat grid.
Proof.
  induction grid as [| row grid IH]; [reflexivity |].
  cbn. by rewrite IH, fmap_app.
Qed.

Section TwoValuedWeights.

Context {R : Type} `{DeterministicRewards R}.

Lemma numeric_reward_ltb (a b : Q) :
  reward_ltb (numeric_reward a) (numeric_reward b) = Qltb a b.
Proof. apply reward_ltb_deterministic. Qed.

Lemma numeric_reward_eqb (a b : Q) :
  reward_eqb (numeric_reward a) (numeric_reward b) = Qeq_bool a b.
Proof. apply reward_eqb_deterministic. Qed.

Lemma numeric_reward_expected_value (a : Q) :
  expected_value (numeric_reward a) = a.
Proof. apply expected_value_deterministic. Qed.

Lemma insert_sorted_low (m n : nat) :
  insert_sorted (numeric_reward (-1))
    (replicate m (numeric_reward (-1)) ++ replicate n (numeric_reward 0))
  = replicate (S m) (numeric_reward (-1)) ++ replicate n (numeric_reward 0).
Proof.
  destruct m as [| m]; [destruct n as [| n] |]; cbn;
    rewrite ?numeric_reward_ltb; reflexivity.
Qed.

Lemma insert_sorted_high (m n : nat) :
  insert_sorted (numeric_reward 0)
    (replicate m (numeric_reward (-1)) ++ replicate n (numeric_reward 0))
  = replicate m (numeric_reward (-1)) ++ replicate (S n) (numeric_reward 0).
Proof.
  induction m as [| m IH].
  - destruct n as [| n]; cbn; rewrite ?numeric_reward_ltb; reflexivity.
  - cbn. rewrite numeric_reward_ltb. cbn. by rewrite IH.
Qed.

(** Sorting puts the rewards [-1] before the rewards 0. *)
Lemma np_sort_two_valued (l : list Q) :
  (forall v, v ∈ l -> v = (-1)%Q \/ v = 0%Q) ->
  exists m n,
    np_sort (numeric_reward <$> l)
    = replicate m (numeric_reward (-1)) ++ replicate n (numeric_reward 0) /\
    ((-1)%Q ∈ l -> (0 < m)%nat) /\ (0%Q ∈ l -> (0 < n)%nat).
Proof.
  induction l as [| v l IH]; intros Hl.
  - exists 0%nat, 0%nat. repeat split; intros Hin; by apply elem_of_nil in Hin.
  - destruct IH as (m & n & Hsort & Hm & Hn).
    { intros v' Hv'. apply Hl. by right. }
    cbn. unfold np_sort in Hsort. rewrite Hsort.
    destruct (Hl v) as [-> | ->]; [by left | |].
    + exists (S m), n. rewrite insert_sorted_low. repeat split; [lia |].
      intros Hin. apply elem_of_cons in Hin as [Heq | Hin]; [discriminate |].
      by apply Hn.
    + exists m, (S n). rewrite insert_sorted_high. repeat split; [| lia].
      intros Hin. apply elem_of_cons in Hin as [Heq | Hin]; [discriminate |].
      by apply Hm.
Qed.

Lemma drop_repeats_high (n : nat) :
  drop_repeats (numeric_reward 0) (replicate n (numeric_reward 0)) = [].
Proof.
  induction n as [| n IH]; [reflexivity |].
  cbn. by rewrite numeric_reward_eqb.
Qed.

Lemma drop_repeats_low (m n : nat) :
  drop_repeats (numeric_reward (-1))
    (replicate m (numeric_reward (-1)) ++ replicate (S n) (numeric_reward 0))
  = [numeric_reward 0].
Proof.
  induction m as [| m IH]; cbn; rewrite numeric_reward_eqb; cbn.
  - by rewrite drop_repeats_high.
  - exact IH.
Qed.

(** The distinct rewards of a grid of numbers with the values [-1] and 0. *)
Lemma np_unique_two_valued (values : list (list Q)) :
  (forall v, v ∈ concat values -> v = (-1)%Q \/ v = 0%Q) ->
  (-1)%Q ∈ concat values -> 0%Q ∈ concat values ->
  np_unique ((fun row : list Q => numeric_reward <$> row) <$> values)
  = [numeric_reward (-1); numeric_reward 0].
Proof.
  intros Hvalues Hlow Hhigh. unfold np_unique. rewrite concat_fmap_fmap.
  destruct (np_sort_two_valued _ Hvalues) as (m & n & -> & Hm & Hn).
  specialize (Hm Hlow). specialize (Hn Hhigh).
  destruct m as [| m]; [lia |]. destruct n as [| n]; [lia |].
  rewrite replicate_S. cbn [app]. by rewrite drop_repeats_low.
Qed.

(** C8: for the task "Same Blocks, Varying Values" with
    [distinct_rewards = 3] and a grid of numbers whose values are exactly
    [-1] and 0, [get_weights] returns three entries: one zero put in front,
    then the distinct rewards in ascending order, the reward [-1] and the
    reward 0; read as numbers the vector is [[0, -1, 0]]. *)
Theorem two_valued_weights (params : Params R) (self : GridWorld R)
    (values : list (list Q)) :
  reachable params self ->
  p_task params = Some VARYING_VALUES ->
  p_distinct_rewards params = 3 ->
  p_rewards params = Some (NumericGrid values) ->
  (forall v, v ∈ concat values -> v = (-1)%Q \/ v = 0%Q) ->
  (-1)%Q ∈ concat values -> 0%Q ∈ concat values ->
  exists ws,
    get_weights self = Ok ws /\
    ws = [WFloat 0%Q; WReward (numeric_reward (-1)); WReward (numeric_reward 0)] /\
    length ws = 3%nat /\
    weight_value <$> ws = [0; -1; 0]%Q.
Proof.
  intros Hreach Htask Hdistinct Hrewards Hvalues Hlow Hhigh.
  apply reachable_constructed in Hreach.
  destruct (c_fields _ _ Hreach) as (self0 & Hinit & Hsame).
  apply init_fields_Ok in Hinit
    as (_ & _ & _ & _ & _ & _ & _ & (terminals & msg & _ & Hrew) & _ & _).
  rewrite Hrewards in Hrew. cbn in Hrew. injection Hrew as Hgrid _.
  rewrite <- (sg_rewards _ _ Hsame) in Hgrid.
  pose proof (c_task _ _ Hreach) as Hmode. rewrite Htask in Hmode.
  pose proof (c_distinct_rewards _ _ Hreach) as Hd.
  rewrite Htask, bool_decide_eq_true_2, Hdistinct in Hd by reflexivity.
  eexists. split; [| split; [reflexivity |]].
  - unfold get_weights. rewrite Hmode. cbn [default]. rewrite String.eqb_refl.
    rewrite Hd, <- Hgrid, (np_unique_two_valued _ Hvalues Hlow Hhigh).
    reflexivity.
  - split; [reflexivity |]. cbn.
    by rewrite !numeric_reward_expected_value.
Qed.

End TwoValuedWeights.

(** [two_valued_weights] on the object of
    [GridWorld(2, rewards=[[0, -1], [-1, 0]], initial_state=(0, 0),
    task="Same Blocks, Varying Values", distinct_rewards=3)]. *)
Lemma two_valued_weights_witness :
  exists self : GridWorld PointMass,
    init two_valued_grid [] = Ok (self, []) /\
    exists ws,
      get_weights self = Ok ws /\
      weight_value <$> ws = [0; -1; 0]%Q.
Proof.
  eexists. split; [vm_compute; reflexivity |].
  match goal with
  | |- exists ws, get_weights ?self = _ /\ _ =>
      destruct (two_valued_weights two_valued_grid self [[0; -1]; [-1; 0]]%Q)
        as (ws & Hws & _ & _ & Hread)
  end.
  - apply (reachable_init _ [] _ []). vm_compute. reflexivity.
  - reflexivity.
  - reflexivity.
  - reflexivity.
  - cbn. intros v Hv.
    repeat (apply elem_of_cons in Hv as [-> | Hv]; [auto |]).
    by apply elem_of_nil in Hv.
  - cbn. right. left.
  - cbn. left.
  - exists ws. by split.
Defined.

(** ** What the constructor accepts *)

Section ConstructorChecks.

Context {R : Type} `{RewardDistribution R}.

Lemma init_fields_Raise (params : Params R) rng e :
  init_fields params = Raise e -> init params rng = Raise e.
Proof. unfold init. by intros ->. Qed.

Lemma init_width_valid (h : Z) (width : option Z) :
  (forall w, width = Some w -> 0 < w) ->
  init_width h width = Ok (default h width).
Proof.
  intros Hw. destruct width as [w |]; [| reflexivity].
  cbn. rewrite bool_decide_eq_true_2; [reflexivity |].
  specialize (Hw w eq_refl). lia.
Qed.

(** X1: the constructor returns only square grids: the object it returns
    has [width = height], and a [width] argument other than [height] never
    lets it return. *)
Theorem init_requires_square_grid (params : Params R) rng (self : GridWorld R)
    rng' :
  init params rng = Ok (self, rng') ->
  height self = p_height params /\ width self = p_height params /\
  forall w, p_width params = Some w -> w = p_height params.
Proof.
  intros Hinit. apply init_constructed in Hinit.
  pose proof (c_square _ _ Hinit) as Hsq.
  destruct (c_fields _ _ Hinit) as (self0 & Hfields & Hsame).
  apply init_fields_Ok in Hfields as (Hh & Hw & _).
  rewrite <- (sg_height _ _ Hsame) in Hh.
  rewrite <- (sg_width _ _ Hsame) in Hw.
  split; [exact Hh |]. split; [lia |].
  intros w Hsome. rewrite Hsome in Hw. cbn in Hw.
  bind_inv Hw as [] Hpos. injection Hw as Hw. lia.
Qed.

(** X2: the constructor checks its arguments in the order height, width,
    probability, and each failed check raises the assertion of that
    check. *)
Theorem init_checks_dimensions_and_probability (params : Params R) rng :
  (p_height params <= 0 ->
   init params rng
   = Raise (AssertionError "Height should be a positive integer")) /\
  (0 < p_height params ->
   forall w, p_width params = Some w -> w <= 0 ->
   init params rng
   = Raise (AssertionError "Width should be a positive integer")) /\
  (0 < p_height params ->
   (forall w, p_width params = Some w -> 0 < w) ->
   ~ (0 <= p_proba params <= 1)%Q ->
   init params rng
   = Raise (AssertionError "Probability should be between 0 and 1")).
Proof.
  split; [| split].
  - intros Hh. apply init_fields_Raise. unfold init_fields.
    rewrite bool_decide_eq_false_2 by lia. reflexivity.
  - intros Hh w Hw Hneg. apply init_fields_Raise. unfold init_fields.
    rewrite bool_decide_eq_true_2 by lia. cbn. rewrite Hw. cbn.
    rewrite bool_decide_eq_false_2 by lia. reflexivity.
  - intros Hh Hw Hp. apply init_fields_Raise. unfold init_fields.
    rewrite bool_decide_eq_true_2 by lia. cbn.
    rewrite (init_width_valid _ _ Hw). cbn.
    destruct (Qle_bool 0 (p_proba params) && Qle_bool (p_proba params) 1)
      eqn:Hcheck; [| reflexivity].
    apply andb_true_iff in Hcheck as [Hp0 Hp1].
    apply Qle_bool_iff in Hp0, Hp1. by destruct Hp.
Qed.

(** X3: an action list with exactly two actions makes the constructor
    divide by zero: with valid dimensions and probability it raises
    [ZeroDivisionError]. *)
Theorem init_two_actions_divide_by_zero (params : Params R) rng acts :
  0 < p_height params ->
  (forall w, p_width params = Some w -> 0 < w) ->
  (0 <= p_proba params <= 1)%Q ->
  p_actions params = Some acts -> length acts = 2%nat ->
  init params rng = Raise ZeroDivisionError.
Proof.
  intros Hh Hw [Hp0 Hp1] Hacts Hlen. apply init_fields_Raise.
  unfold init_fields.
  rewrite bool_decide_eq_true_2 by lia. cbn.
  rewrite (init_width_valid _ _ Hw). cbn.
  apply Qle_bool_iff in Hp0, Hp1. rewrite Hp0, Hp1. cbn.
  rewrite Hacts. cbn. rewrite Hlen. reflexivity.
Qed.

(** X4: a terminal state outside the grid makes the constructor raise the
    terminal-state assertion, and with terminal states inside the grid a
    barrier state outside it raises the barrier-state assertion
    ([x] is checked against [width], [y] against [height]). *)
Theorem init_checks_listed_states (params : Params R) rng :
  0 < p_height params ->
  (forall w, p_width params = Some w -> 0 < w) ->
  (0 <= p_proba params <= 1)%Q ->
  length (default [UP; RIGHT; DOWN; LEFT] (p_actions params)) <> 2%nat ->
  let w := default (p_height params) (p_width params) in
  let inside (c : Coordinate) :=
    0 <= fst c < w /\ 0 <= snd c < p_height params in
  (forall ts c, p_terminal_states params = Some ts -> c ∈ ts -> ~ inside c ->
     init params rng
     = Raise (AssertionError
         "Terminal states should be tuples of length 2 within grid bounds")) /\
  (forall bs c,
     (forall ts c', p_terminal_states params = Some ts -> c' ∈ ts -> inside c') ->
     p_barrier_states params = Some bs -> c ∈ bs -> ~ inside c ->
     init params rng
     = Raise (AssertionError
         "Barrier states should be tuples of length 2 within grid bounds")).
Proof.
  intros Hh Hw [Hp0 Hp1] Hacts w inside.
  apply Qle_bool_iff in Hp0, Hp1.
  assert (Hcheck : forall l c, c ∈ l -> ~ inside c ->
            forallb (within_grid w (p_height params)) l = false).
  { intros l c Hc Hout. destruct (forallb _ l) eqn:Hall; [| reflexivity].
    rewrite forallb_forall in Hall.
    apply list_elem_of_In, Hall, andb_true_iff in Hc as [Hx Hy].
    apply bool_decide_eq_true in Hx, Hy. by destruct Hout. }
  assert (Hpass : forall l, (forall c, c ∈ l -> inside c) ->
            forallb (within_grid w (p_height params)) l = true).
  { intros l Hl. apply forallb_forall. intros c Hc.
    apply list_elem_of_In, Hl in Hc as [Hx Hy].
    unfold within_grid. by rewrite !bool_decide_eq_true_2. }
  split.
  - intros ts c Hts Hc Hout. apply init_fields_Raise. unfold init_fields.
    rewrite bool_decide_eq_true_2 by lia. cbn.
    rewrite (init_width_valid _ _ Hw). cbn. rewrite Hp0, Hp1. cbn.
    unfold init_transition_probabilities.
    rewrite bool_decide_eq_false_2 by lia. cbn.
    rewrite Hts. cbn. fold w. rewrite (Hcheck ts c Hc Hout). reflexivity.
  - intros bs c Hterm Hbs Hc Hout. apply init_fields_Raise. unfold init_fields.
    rewrite bool_decide_eq_true_2 by lia. cbn.
    rewrite (init_width_valid _ _ Hw). cbn. rewrite Hp0, Hp1. cbn.
    unfold init_transition_probabilities.
    rewrite bool_decide_eq_false_2 by lia. cbn.
    fold w.
    destruct (p_terminal_states params) as [ts |] eqn:Hts; cbn.
    + rewrite (Hpass ts) by (intros c' Hc'; by eapply Hterm). cbn.
      rewrite Hbs. cbn. rewrite (Hcheck bs c Hc Hout). reflexivity.
    + rewrite Hbs. cbn. rewrite (Hcheck bs c Hc Hout). reflexivity.
Qed.

End ConstructorChecks.

(** ** Starting an episode *)

Lemma frac_range (u : Q) : (0 <= frac u < 1)%Q.
Proof.
  unfold frac. pose proof (Qfloor_le u) as Hlo.
  pose proof (Qlt_floor u) as Hhi.
  rewrite inject_Z_plus in Hhi. change (inject_Z 1) with 1%Q in Hhi.
  split; lra.
Qed.

Lemma Qfloor_scaled (u : Q) (n : Z) :
  (0 <= u < 1)%Q -> 0 < n -> 0 <= Qfloor (u * inject_Z n) < n.
Proof.
  intros [Hlo Hhi] Hn.
  assert (Hn' : (0 < inject_Z n)%Q).
  { change 0%Q with (inject_Z 0). rewrite <- Zlt_Qlt. lia. }
  assert (Hprod : (0 <= u * inject_Z n)%Q).
  { apply Qmult_le_0_compat; [exact Hlo | by apply Qlt_le_weak]. }
  pose proof (Qmult_lt_compat_r u 1 (inject_Z n) Hn' Hhi) as Hlt.
  split.
  - rewrite <- (Qfloor_Z 0). by apply Qfloor_resp_le.
  - pose proof (Qfloor_le (u * inject_Z n)) as Hfloor.
    rewrite Zlt_Qlt. lra.
Qed.

Lemma randint_range (n : Z) rng x rng' :
  randint n rng = Ok (x, rng') -> 0 <= x < n.
Proof.
  unfold randint. case_bool_decide as Hn; [discriminate |].
  intros Hdraw. bind_inv Hdraw as [u rng1] Hu. injection Hdraw as <- <-.
  destruct rng as [| u0 rng]; [discriminate |]. injection Hu as <- <-.
  apply Qfloor_scaled; [apply frac_range | lia].
Qed.

(** With a positive bound a draw either succeeds or finds the tape
    empty. *)
Lemma randint_outcome (n : Z) rng :
  0 < n ->
  (exists x rng', randint n rng = Ok (x, rng')) \/ randint n rng = Exhausted.
Proof.
  intros Hn. unfold randint. rewrite bool_decide_eq_false_2 by lia.
  destruct rng as [| u rng]; cbn; eauto.
Qed.

Section Reset.

Context {R : Type} `{RewardDistribution R}.

Lemma reset_loop_Ok (fuel : nat) (self : GridWorld R) rng c rng' :
  reset_loop fuel self rng = Ok (c, rng') ->
  in_bounds self c /\ c ∉ terminal_states self.
Proof.
  revert rng. induction fuel as [| fuel IH]; intros rng; [discriminate |].
  cbn. intros Hloop.
  bind_inv Hloop as [x rng1] Hx. bind_inv Hloop as [y rng2] Hy.
  case_bool_decide as Hfree.
  - injection Hloop as <- <-. split; [| exact Hfree].
    apply randint_range in Hx, Hy. by split.
  - by eapply IH.
Qed.

Lemma reset_loop_all_terminal (fuel : nat) (self : GridWorld R) rng :
  0 < width self -> 0 < height self ->
  (forall c, in_bounds self c -> c ∈ terminal_states self) ->
  reset_loop fuel self rng = Exhausted.
Proof.
  intros Hw Hh Hall. revert rng.
  induction fuel as [| fuel IH]; intros rng; [reflexivity |].
  cbn.
  destruct (randint_outcome (width self) rng Hw) as [(x & rng1 & Hx) | ->];
    [| reflexivity].
  rewrite Hx. cbn.
  destruct (randint_outcome (height self) rng1 Hh) as [(y & rng2 & Hy) | ->];
    [| reflexivity].
  rewrite Hy. cbn.
  rewrite bool_decide_eq_false_2; [apply IH |].
  intros Hfree. apply Hfree, Hall.
  apply randint_range in Hx, Hy. by split.
Qed.

(** X5: a [reset] that returns clears the transition log and stores the
    encoding of the coordinate it starts from.  With a configured initial
    state that coordinate is the initial state, whatever it is, and no
    randomness is used; without one it is a coordinate of the grid that is
    not terminal. *)
Theorem reset_start (self : GridWorld R) rng enc self' rng' :
  reset self rng = Ok (enc, self', rng') ->
  transitions self' = [] /\
  enc = encode_state self (state self') /\
  encoded_state self' = enc /\
  configuration self' = configuration self /\
  match initial_state self with
  | Some start => state self' = start /\ rng' = rng
  | None => in_bounds self (state self') /\ state self' ∉ terminal_states self
  end.
Proof.
  intros Hreset. pose proof (reset_configuration _ _ _ _ _ Hreset) as Hcfg.
  unfold reset in Hreset. bind_inv Hreset as [st rng1] Hst.
  injection Hreset as <- <- <-. cbn. repeat split; try assumption.
  destruct (initial_state self) as [start |].
  - by injection Hst as <- <-.
  - by apply reset_loop_Ok in Hst.
Qed.

(** X6: when no initial state is configured and every coordinate of the
    grid is terminal, [reset] never returns: whatever the random draws,
    the rejection loop is still running when the draws are used up. *)
Theorem reset_never_returns_when_all_terminal (self : GridWorld R) rng :
  0 < width self -> 0 < height self ->
  initial_state self = None ->
  (forall c, in_bounds self c -> c ∈ terminal_states self) ->
  reset self rng = Exhausted.
Proof.
  intros Hw Hh Hnone Hall. unfold reset. rewrite Hnone.
  by rewrite reset_loop_all_terminal.
Qed.

End Reset.

(** ** Moving on the grid *)

Section Moves.

Context {R : Type} `{RewardDistribution R}.

(** A move changes at most one coordinate, by one, and does not leave the
    grid. *)
Lemma move_agent_step (self : GridWorld R) action :
  Z.abs (fst (move_agent self action) - fst (state self))
  + Z.abs (snd (move_agent self action) - snd (state self)) <= 1 /\
  (in_bounds self (state self) -> in_bounds self (move_agent self action)).
Proof.
  unfold in_bounds.
  destruct (move_agent_cases self action)
    as [(_ & Hg & _ & ->) | [(_ & Hg & _ & ->) | [(_ & Hg & _ & ->)
       | [(_ & Hg & _ & ->) | (-> & _)]]]]; cbn [fst snd]; lia.
Qed.

(** X7: an agent that starts on the grid stays on it: every coordinate
    visited by a run of [step] calls lies on the grid, and each [step]
    moves the agent by at most one cell. *)
Theorem steps_stay_on_grid (self : GridWorld R) inputs rng visited self' rng' :
  in_bounds self (state self) ->
  run_steps self inputs rng = Ok (visited, self', rng') ->
  Forall (in_bounds self) visited /\ in_bounds self (state self') /\
  forall i c c', (state self :: visited) !! i = Some c ->
                 visited !! i = Some c' ->
                 Z.abs (fst c' - fst c) + Z.abs (snd c' - snd c) <= 1.
Proof.
  revert self rng visited.
  induction inputs as [| a inputs IH]; intros self rng visited Hin Hrun.
  - injection Hrun as <- <- <-.
    split; [constructor |]. split; [exact Hin |].
    intros i c c' _ Hc'. by rewrite lookup_nil in Hc'.
  - cbn [run_steps] in Hrun.
    bind_inv Hrun as [[[[enc reward] done] self1] rng1] Hstep.
    bind_inv Hrun as [[visited' self2] rng2] Hrest.
    injection Hrun as <- <- <-.
    apply step_Ok in Hstep
      as (probabilities & sampled & rng0 & _ & _ & _ & _ & _ & Hself1).
    destruct (move_agent_step self sampled) as [Hone Hstay].
    specialize (Hstay Hin).
    assert (Hstate : state self1 = move_agent self sampled)
      by (by rewrite Hself1).
    assert (Hsame : forall c, in_bounds self1 c <-> in_bounds self c)
      by (by rewrite Hself1).
    rewrite <- Hstate in Hone, Hstay. apply Hsame in Hstay.
    destruct (IH _ _ _ Hstay Hrest) as (Hvisited & Hlast & Hcells).
    split; [| split].
    + constructor; [by apply Hsame |].
      eapply Forall_impl; [exact Hvisited |]. intros c. apply Hsame.
    + by apply Hsame.
    + intros [| i] c c' Hc Hc'.
      * injection Hc as <-. injection Hc' as <-. exact Hone.
      * by eapply Hcells.
Qed.

(** X8: a directional action whose destination lies on the grid and is not
    a barrier moves the agent to that destination. *)
Theorem move_agent_reaches_free_destination (self : GridWorld R) action d :
  destination (state self) action = Some d ->
  in_bounds self d -> d ∉ barrier_states self ->
  move_agent self action = d.
Proof.
  unfold destination, in_bounds. intros Hd [Hx Hy] Hfree.
  pose proof (move_agent_cases self action) as Hcases.
  destruct (state self) as [x y]. cbn [fst snd] in Hcases.
  assert (Hdest : action = UP /\ d = (x, y + 1) \/
                  action = DOWN /\ d = (x, y - 1) \/
                  action = LEFT /\ d = (x - 1, y) \/
                  action = RIGHT /\ d = (x + 1, y)).
  { repeat case_bool_decide; simplify_eq; auto. }
  clear Hd.
  destruct Hcases
    as [(Ha & _ & _ & ->) | [(Ha & _ & _ & ->) | [(Ha & _ & _ & ->)
       | [(Ha & _ & _ & ->) | (_ & Hup & Hdown & Hleft & Hright)]]]].
  1-4: by destruct Hdest as [[Hb ->] | [[Hb ->] | [[Hb ->] | [Hb ->]]]];
         unfold UP, DOWN, LEFT, RIGHT in *; first [reflexivity | lia].
  exfalso.
  destruct Hdest as [[Hb ->] | [[Hb ->] | [[Hb ->] | [Hb ->]]]];
    cbn [fst snd] in Hx, Hy;
    [apply Hup | apply Hdown | apply Hleft | apply Hright];
    (split; [exact Hb |]; split; [lia | exact Hfree]).
Qed.

Lemma run_steps_configuration (self : GridWorld R) inputs rng visited self'
    rng' :
  run_steps self inputs rng = Ok (visited, self', rng') ->
  configuration self' = configuration self.
Proof.
  revert self rng visited.
  induction inputs as [| a inputs IH]; intros self rng visited Hrun.
  - by injection Hrun as _ <- _.
  - cbn [run_steps] in Hrun.
    bind_inv Hrun as [[[[enc reward] done] self1] rng1] Hstep.
    bind_inv Hrun as [[visited' self2] rng2] Hrest.
    injection Hrun as _ <- <-. rewrite (IH _ _ _ Hrest).
    by eapply step_configuration.
Qed.

(** The log after a run: one record per call, added at the end. *)
Lemma run_steps_transitions (self : GridWorld R) inputs rng visited self' rng' :
  run_steps self inputs rng = Ok (visited, self', rng') ->
  exists log,
    transitions self' = transitions self ++ log /\
    length log = length inputs /\
    tr_next_state <$> log = visited /\
    tr_state <$> log = take (length inputs) (state self :: visited).
Proof.
  revert self rng visited.
  induction inputs as [| a inputs IH]; intros self rng visited Hrun.
  - injection Hrun as <- <- <-. exists []. by rewrite app_nil_r.
  - cbn in Hrun. bind_inv Hrun as [[[[enc reward] done] self1] rng1] Hstep.
    bind_inv Hrun as [[visited' self2] rng2] Hrest.
    injection Hrun as <- <- <-.
    destruct (IH _ _ _ Hrest) as (log & Hlog & Hlen & Hnext & Hprev).
    apply step_Ok in Hstep
      as (probabilities & sampled & rng0 & _ & _ & _ & _ & _ & ->).
    cbn in *. eexists (_ :: log). rewrite Hlog, <- app_assoc. cbn.
    repeat split; [by rewrite Hlen | by rewrite Hnext | by rewrite Hprev].
Qed.

(** X9: after a [reset] and [n] calls of [step] the transition log holds
    exactly [n] records; their end coordinates are the coordinates visited,
    and each record starts where the one before it ended, the first one at
    the reset coordinate. *)
Theorem transitions_follow_the_episode (self : GridWorld R) rng enc self1 rng1
    inputs visited self2 rng2 :
  reset self rng = Ok (enc, self1, rng1) ->
  run_steps self1 inputs rng1 = Ok (visited, self2, rng2) ->
  length (transitions self2) = length inputs /\
  tr_next_state <$> transitions self2 = visited /\
  tr_state <$> transitions self2
  = take (length inputs) (state self1 :: visited).
Proof.
  intros Hreset Hrun.
  apply reset_Ok in Hreset as (st & _ & -> & _).
  destruct (run_steps_transitions _ _ _ _ _ _ Hrun)
    as (log & Hlog & Hlen & Hnext & Hprev).
  cbn in Hlog. rewrite Hlog. by repeat split.
Qed.

(** X10: [render] hands [heat_map] one arrow and one location per [step]
    since the last [reset], and the locations are the coordinates the
    steps started from. *)
Theorem render_follows_the_episode (self : GridWorld R) rng enc self1 rng1
    inputs visited self2 rng2 :
  reset self rng = Ok (enc, self1, rng1) ->
  run_steps self1 inputs rng1 = Ok (visited, self2, rng2) ->
  let '(values, arrows, locations) := render self2 in
  values = expected_rewards self /\
  length arrows = length inputs /\
  locations = take (length inputs) (state self1 :: visited).
Proof.
  intros Hreset Hrun.
  destruct (run_steps_transitions _ _ _ _ _ _ Hrun)
    as (log & Hlog & Hlen & _ & Hprev).
  pose proof (reset_configuration _ _ _ _ _ Hreset) as Hcfg1.
  apply reset_Ok in Hreset as (st & _ & -> & _). cbn in Hlog.
  pose proof (run_steps_configuration _ _ _ _ _ _ Hrun) as Hcfg2.
  unfold render. split; [| split].
  - change (expected_rewards (configuration self2)
            = expected_rewards (configuration self)).
    by rewrite Hcfg2, Hcfg1.
  - by rewrite length_fmap, Hlog, Hlen.
  - by rewrite Hlog.
Qed.

End Moves.

(** ** The executed action *)

Lemma Qltb_lt (a b : Q) : Qltb a b = true <-> (a < b)%Q.
Proof.
  unfold Qltb. rewrite negb_true_iff, <- not_true_iff_false, Qle_bool_iff.
  split; [apply Qnot_le_lt | apply Qlt_not_le].
Qed.

(** [searchsorted] passes the entries that are not above [u] and stops at
    the first one that is. *)
Lemma searchsorted_spec (cdf : list Q) (u : Q) :
  (forall j c, (j < searchsorted cdf u)%nat -> cdf !! j = Some c -> (c <= u)%Q) /\
  (forall c, cdf !! searchsorted cdf u = Some c -> (u < c)%Q).
Proof.
  induction cdf as [| c0 cdf [IHlow IHtop]]; cbn.
  - split; [intros j c Hj; lia | intros c Hc; discriminate].
  - destruct (Qltb u c0) eqn:Hlt.
    + split; [intros j c Hj; lia |].
      intros c Hc. injection Hc as <-. by apply Qltb_lt.
    + assert (Hle : (c0 <= u)%Q).
      { apply Qnot_lt_le. intros Hc. apply Qltb_lt in Hc. congruence. }
      split; [| exact IHtop].
      intros [| j] c Hj Hc; [by injection Hc as <- |].
      apply (IHlow j); [lia | exact Hc].
Qed.

Lemma cumsum_from_length (acc : Q) (p : list Q) :
  length (cumsum_from acc p) = length p.
Proof. revert acc. induction p as [| x p IH]; intros acc; cbn; by rewrite ?IH. Qed.

Lemma cumsum_length (p : list Q) : length (cumsum p) = length p.
Proof. destruct p as [| x p]; cbn; by rewrite ?cumsum_from_length. Qed.

(** Adding a zero entry to a running sum that is a double leaves it as it
    is. *)
Lemma cumsum_from_flat (acc : Q) (p : list Q) (k : nat) (x : Q) :
  py_float acc = acc -> p !! k = Some x -> (x == 0)%Q ->
  (acc :: cumsum_from acc p) !! S k = (acc :: cumsum_from acc p) !! k.
Proof.
  revert acc k. induction p as [| y p IH]; intros acc k Hacc Hk Hx;
    [discriminate |].
  destruct k as [| k]; cbn in Hk |- *.
  - injection Hk as ->. f_equal. unfold float_add.
    rewrite <- Hacc at 2. apply py_float_comp. rewrite Hx. ring.
  - apply (IH (float_add acc y) k); [apply py_float_idem | exact Hk | exact Hx].
Qed.

Lemma cumsum_flat (p : list Q) (k : nat) (x : Q) :
  (py_float <$> p) !! S k = Some x -> (x == 0)%Q ->
  cumsum (py_float <$> p) !! S k = cumsum (py_float <$> p) !! k.
Proof.
  destruct p as [| x0 p]; [discriminate |]. cbn [fmap list_fmap cumsum].
  intros Hk Hx. apply (cumsum_from_flat _ _ k x); [| exact Hk | exact Hx].
  apply py_float_idem.
Qed.

(** [choice] only returns entries whose probability is positive. *)
Lemma choice_positive (a : list Z) (p : list Q) rng x rng' :
  choice a p rng = Ok (x, rng') ->
  exists i q, a !! i = Some x /\ p !! i = Some q /\ (0 < q)%Q.
Proof.
  unfold choice. case_match; [discriminate |].
  cbv zeta. repeat (case_match; [discriminate |]).
  intros Hdraw. bind_inv Hdraw as total Htotal.
  bind_inv Hdraw as [u rng1] Hu.
  destruct rng as [| u0 rng]; [discriminate |]. injection Hu as <- <-.
  set (cdf := (fun c => float_div c total) <$> cumsum (py_float <$> p)) in *.
  destruct (a !! searchsorted cdf (frac u0)) as [x' |] eqn:Hx; [| discriminate].
  injection Hdraw as <- <-.
  destruct (searchsorted_spec cdf (frac u0)) as [Hlow Htop].
  set (i := searchsorted cdf (frac u0)) in *.
  pose proof (lookup_lt_Some _ _ _ Hx) as Hlt.
  assert (Hlen : length a = length p).
  { match goal with
    | Hb : negb (bool_decide (length a = length (py_float <$> p))) = false |- _ =>
        apply negb_false_iff, bool_decide_eq_true in Hb;
        by rewrite length_fmap in Hb
    end. }
  assert (Hnonneg : forall q, q ∈ py_float <$> p -> (0 <= q)%Q).
  { match goal with
    | Hb : negb (forallb (Qle_bool 0) (py_float <$> p)) = false |- _ =>
        apply negb_false_iff in Hb; rewrite forallb_forall in Hb;
        intros q Hq; by apply Qle_bool_iff, Hb, list_elem_of_In
    end. }
  destruct (lookup_lt_is_Some_2 p i ltac:(lia)) as [q Hq].
  exists i, q. split; [exact Hx |]. split; [exact Hq |].
  apply py_float_pos_inv.
  assert (Hq' : (py_float <$> p) !! i = Some (py_float q)).
  { by rewrite list_lookup_fmap, Hq. }
  pose proof (Hnonneg _ (list_elem_of_lookup_2 _ _ _ Hq')) as Hq0.
  destruct (Qle_lt_or_eq _ _ Hq0) as [Hpos | Hzero]; [exact Hpos | exfalso].
  symmetry in Hzero.
  destruct (lookup_lt_is_Some_2 (cumsum (py_float <$> p)) i) as [c Hc].
  { rewrite cumsum_length, length_fmap. lia. }
  assert (Hcdf : cdf !! i = Some (float_div c total)).
  { unfold cdf. by rewrite list_lookup_fmap, Hc. }
  pose proof (Htop _ Hcdf) as Habove.
  destruct i as [| k].
  - destruct p as [| q0 p]; [discriminate |].
    cbn in Hq, Hc. injection Hq as ->. injection Hc as <-.
    unfold float_div in Habove. rewrite py_float_zero in Habove.
    + pose proof (frac_range u0). lra.
    + rewrite Hzero. unfold Qdiv. ring.
  - rewrite (cumsum_flat p k _ Hq' Hzero) in Hc.
    assert (Hprev : cdf !! k = Some (float_div c total)).
    { unfold cdf. by rewrite list_lookup_fmap, Hc. }
    pose proof (Hlow k _ ltac:(lia) Hprev). lra.
Qed.

Section ExecutedAction.

Context {R : Type} `{RewardDistribution R}.

(** The vector of [set_action_probabilities] for the default actions. *)
Lemma set_action_probabilities_default (params : Params R) (self : GridWorld R)
    (a : Z) :
  constructed params self -> p_actions params = None -> 0 <= a < 4 ->
  let p := p_proba params in
  let d := float_div (float_sub 1 (p_proba params)) 2 in
  set_action_probabilities self a
  = Ok (if bool_decide (a = 0) then [p; d; 0%Q; d]
        else if bool_decide (a = 1) then [d; p; d; 0%Q]
        else if bool_decide (a = 2) then [0%Q; d; p; d]
        else [d; 0%Q; d; p]).
Proof.
  intros Hc Hdefault Ha p d.
  destruct (default_actions_constructed _ _ Hc Hdefault)
    as (Hacts & Hn & Htps & _).
  unfold set_action_probabilities. rewrite Hacts, Hn, Htps.
  assert (Hcases : a = 0 \/ a = 1 \/ a = 2 \/ a = 3) by lia.
  destruct Hcases as [-> | [-> | [-> | ->]]]; reflexivity.
Qed.

(** X11: with the default actions, the action that a [step] executes for
    the intended action [a] is [a] or one of its two neighbours
    [(a + 1) mod 4] and [(a - 1) mod 4], never the opposite action
    [(a + 2) mod 4]; with [proba = 1] it is [a] itself and with
    [proba = 0] it is not [a]. *)
Theorem step_executes_intended_or_neighbour (params : Params R)
    (self : GridWorld R) (a : Z) rng enc reward done self' rng' :
  reachable params self -> p_actions params = None -> 0 <= a < 4 ->
  step self a rng = Ok (enc, reward, done, self', rng') ->
  exists t,
    last (transitions self') = Some t /\
    (tr_action t = a \/ tr_action t = (a + 1) `mod` 4 \/
     tr_action t = (a - 1) `mod` 4) /\
    tr_action t <> (a + 2) `mod` 4 /\
    ((p_proba params == 1)%Q -> tr_action t = a) /\
    ((p_proba params == 0)%Q -> tr_action t <> a).
Proof.
  intros Hreach Hdefault Ha Hstep.
  apply reachable_constructed in Hreach.
  destruct (default_actions_constructed _ _ Hreach Hdefault)
    as (_ & Hn & _ & Hp0 & Hp1).
  apply step_Ok in Hstep
    as (probabilities & sampled & rng1 & Hprobs & Hchoice & _ & _ & _ & ->).
  rewrite (set_action_probabilities_default _ _ _ Hreach Hdefault Ha) in Hprobs.
  injection Hprobs as <-.
  apply choice_positive in Hchoice as (i & q & Hi & Hq & Hpos).
  rewrite Hn in Hi. unfold py_range in Hi.
  apply lookup_seqZ in Hi as [-> Hi].
  eexists. split; [cbn; apply last_snoc |]. cbn [tr_action].
  set (p := p_proba params) in *.
  assert (Hd1 : (p == 1)%Q -> ~ (0 < float_div (float_sub 1 p) 2)%Q).
  { intros Heq. unfold float_div, float_sub.
    rewrite (py_float_zero (1 - p)) by (rewrite Heq; reflexivity).
    intros Hc. vm_compute in Hc. discriminate. }
  assert (Hd0 : (p == 0)%Q -> ~ (0 < p)%Q).
  { intros Heq. rewrite Heq. intros Hc. vm_compute in Hc. discriminate. }
  assert (Hzero : ~ (0 < 0)%Q) by (intros Hc; vm_compute in Hc; discriminate).
  remember (float_div (float_sub 1 p) 2) as d eqn:Hdrift.
  assert (Hcases : a = 0 \/ a = 1 \/ a = 2 \/ a = 3) by lia.
  destruct Hcases as [-> | [-> | [-> | ->]]]; cbn in Hq;
    (destruct i as [| [| [| [| i]]]]; [| | | | lia]);
    cbn in Hq; injection Hq as <-;
    try (by destruct (Hzero Hpos));
    (split; [vm_compute; auto |];
     split; [intros Hc; vm_compute in Hc; discriminate |];
     split; intros Heq;
     [ first [by destruct (Hd1 Heq Hpos) | vm_compute; reflexivity]
     | first [by destruct (Hd0 Heq Hpos)
             | intros Hc; vm_compute in Hc; discriminate] ]).
Qed.

End ExecutedAction.

(** ** The sets built by the constructor *)

Section ConstructedSets.

Context {R : Type} `{RewardDistribution R}.

Lemma barrier_loop_ext (self self' : GridWorld R) states acc :
  rewards self' = rewards self -> width self' = width self ->
  barrier_loop self' states acc = barrier_loop self states acc.
Proof.
  intros Hr Hw. revert acc.
  induction states as [| s states IH]; intros acc; [reflexivity |].
  cbn. unfold get_expected_reward, decode_state. rewrite Hr, Hw.
  destruct (py_getitem (rewards self) _); cbn; try reflexivity.
  destruct (py_getitem _ _); cbn; try reflexivity. apply IH.
Qed.

(** The set returned by the barrier loop. *)
Lemma barrier_loop_members (self : GridWorld R) states acc bs :
  barrier_loop self states acc = Ok bs ->
  forall s, s ∈ bs <->
    s ∈ acc \/
    (s ∈ states /\
     exists q, get_expected_reward self (decode_state self s) 0
                 (decode_state self s) = Ok q /\ (q < 0)%Q).
Proof.
  revert acc. induction states as [| s0 states IH]; intros acc Hloop s.
  - injection Hloop as <-. split; [by left |].
    intros [Hs | [Hs _]]; [exact Hs | by apply elem_of_nil in Hs].
  - cbn in Hloop. bind_inv Hloop as r Hr.
    rewrite (IH _ Hloop s). rewrite elem_of_cons.
    destruct (Qltb r 0) eqn:Hneg.
    + apply Qltb_lt in Hneg. rewrite elem_of_union, elem_of_singleton.
      split.
      * intros [[-> | Hs] | Hs]; [right | by left | right]; [| tauto].
        split; [by left | eauto].
      * intros [Hs | [[-> | Hs] Hq]]; [by left; right | by left; left |].
        right. by split.
    + split.
      * intros [Hs | Hs]; [by left | right; tauto].
      * intros [Hs | [[-> | Hs] Hq]]; [by left | | by right].
        destruct Hq as (q & Hq & Hlt). rewrite Hr in Hq. injection Hq as <-.
        apply Qltb_lt in Hlt. congruence.
Qed.

Lemma init_rewards_terminals (w h : Z) rewards terminals grid terminals' :
  init_rewards w h rewards terminals = Ok (grid, terminals') ->
  terminals' = terminals \/ terminals' = [(h - 1, w - 1)].
Proof.
  unfold init_rewards. destruct rewards as [[values | objects] |].
  - intros [= _ <-]. by left.
  - intros [= _ <-]. by left.
  - case_bool_decide.
    + intros Hrun. bind_inv Hrun as grid' Hgrid. injection Hrun as _ <-.
      by left.
    + intros Hrun. bind_inv Hrun as grid' Hgrid. injection Hrun as _ <-.
      by right.
Qed.

Lemma init_states_within (w h : Z) states msg l :
  init_states w h states msg = Ok l ->
  Forall (fun c => 0 <= fst c < w /\ 0 <= snd c < h) l.
Proof.
  unfold init_states. destruct states as [l' |].
  - intros Hrun. bind_inv Hrun as [] Hcheck. injection Hrun as <-.
    apply py_assert_Ok in Hcheck. rewrite forallb_forall in Hcheck.
    apply Forall_forall. intros c Hc.
    apply list_elem_of_In, Hcheck, andb_true_iff in Hc as [Hx Hy].
    by apply bool_decide_eq_true in Hx, Hy.
  - intros [= <-]. constructor.
Qed.

(** The listed states of a constructed object lie on its grid. *)
Lemma constructed_states_on_grid (params : Params R) (self : GridWorld R) :
  constructed params self ->
  Forall (in_bounds self) (terminal_states self) /\
  Forall (in_bounds self) (barrier_states self).
Proof.
  intros Hc. pose proof (c_square _ _ Hc) as Hsq.
  pose proof (constructed_well_formed _ _ Hc) as Hwf.
  destruct (c_fields _ _ Hc) as (self0 & Hinit & Hsame).
  apply init_fields_Ok in Hinit
    as (_ & _ & _ & _ & _ & _ & _ & (terminals & msg & Hstates & Hrew)
        & (msg' & Hbarriers) & _).
  rewrite <- (sg_width _ _ Hsame), <- (sg_height _ _ Hsame) in *.
  rewrite <- (sg_terminal_states _ _ Hsame) in Hrew.
  rewrite <- (sg_barrier_states _ _ Hsame) in Hbarriers.
  split.
  - apply init_rewards_terminals in Hrew as [-> | ->].
    + by apply init_states_within in Hstates.
    + constructor; [| constructor]. unfold in_bounds. cbn.
      pose proof (wf_width _ Hwf). lia.
  - by apply init_states_within in Hbarriers.
Qed.

Lemma constructed_sets_configuration (self self' : GridWorld R) :
  configuration self' = configuration self ->
  encoded_state self' = encode_state self' (state self') ->
  constructed_sets self -> constructed_sets self'.
Proof.
  intros Hcfg Henc [Hbs Hds Hts Hbar _].
  assert (Hproj : forall {A} (f : GridWorld R -> A),
             f (configuration self') = f (configuration self))
    by (intros; by rewrite Hcfg).
  pose proof (Hproj _ rewards) as Hrewards.
  pose proof (Hproj _ width) as Hwidth.
  pose proof (Hproj _ height) as Hheight.
  pose proof (Hproj _ n_states) as Hn.
  pose proof (Hproj _ barrier_set) as Hset.
  pose proof (Hproj _ danger_sets) as Hdanger.
  pose proof (Hproj _ terminal_states) as Hterm.
  pose proof (Hproj _ barrier_states) as Hbarrier.
  cbn in Hrewards, Hwidth, Hheight, Hn, Hset, Hdanger, Hterm, Hbarrier.
  assert (Hin : forall c, in_bounds self c -> in_bounds self' c).
  { intros c. unfold in_bounds. by rewrite Hwidth, Hheight. }
  split.
  - rewrite Hn, Hset, <- Hbs. by apply barrier_loop_ext.
  - by rewrite Hdanger, Hset.
  - rewrite Hterm. eapply Forall_impl; [exact Hts | exact Hin].
  - rewrite Hbarrier. eapply Forall_impl; [exact Hbar | exact Hin].
  - exact Henc.
Qed.

Lemma reachable_constructed_sets (params : Params R) (self : GridWorld R) :
  reachable params self -> constructed_sets self.
Proof.
  induction 1 as [rng self rng' Hinit
                 | self rng enc self' rng' Hreach IH Hreset
                 | self a rng enc reward done self' rng' Hreach IH Hstep].
  - pose proof (init_constructed _ _ _ _ Hinit) as Hc.
    destruct (constructed_states_on_grid _ _ Hc) as [Hts Hbar].
    pose proof (constructed_well_formed _ _ Hc) as Hwf.
    apply init_Ok in Hinit
      as (self0 & enc & self1 & ws & bs & _ & _ & _ & Hbs & ->).
    split; try assumption.
    + etransitivity; [| exact Hbs]. by apply barrier_loop_ext.
    + reflexivity.
    + cbn. symmetry. apply encode_decode. apply (wf_width _ Hwf).
  - eapply constructed_sets_configuration; [| | exact IH].
    + by eapply reset_configuration.
    + apply reset_Ok in Hreset as (st & -> & -> & _). reflexivity.
  - eapply constructed_sets_configuration; [| | exact IH].
    + by eapply step_configuration.
    + apply step_Ok in Hstep as (? & ? & ? & _ & _ & _ & _ & -> & ->).
      reflexivity.
Qed.

(** X12: on every object in use, an encoded state belongs to
    [barrier_set] exactly when it is one of the [n_states] states and the
    expected reward of its decoded cell is negative; the danger sets are
    the singletons of the members of [barrier_set], one each. *)
Theorem barrier_set_members (params : Params R) (self : GridWorld R) :
  reachable params self ->
  (forall s, s ∈ barrier_set self <->
     0 <= s < n_states self /\
     exists q, get_expected_reward self (decode_state self s) 0
                 (decode_state self s) = Ok q /\ (q < 0)%Q) /\
  (forall d, d ∈ danger_sets self <->
     exists s, s ∈ barrier_set self /\ d = {[s]}) /\
  length (danger_sets self) = size (barrier_set self).
Proof.
  intros Hreach. apply reachable_constructed_sets in Hreach.
  destruct Hreach as [Hbs Hds _ _ _]. split; [| split].
  - intros s. rewrite (barrier_loop_members _ _ _ _ Hbs s).
    unfold py_range. rewrite elem_of_seqZ. split.
    + intros [Hs | [Hs Hq]]; [by apply elem_of_empty in Hs |].
      split; [lia | exact Hq].
    + intros [Hs Hq]. right. split; [lia | exact Hq].
  - intros d. rewrite Hds, list_elem_of_fmap. split.
    + intros (s & -> & Hs). exists s. split; [| reflexivity].
      by apply elem_of_elements in Hs.
    + intros (s & Hs & ->). exists s. split; [reflexivity |].
      by apply elem_of_elements.
  - by rewrite Hds, length_fmap.
Qed.

(** X13: on every object in use, [encoded_state] is the encoding of
    [state], and decoding it gives [state] back when [state] lies on the
    grid. *)
Theorem encoded_state_follows_state (params : Params R) (self : GridWorld R) :
  reachable params self ->
  encoded_state self = encode_state self (state self) /\
  (in_bounds self (state self) ->
   decode_state self (encoded_state self) = state self).
Proof.
  intros Hreach.
  pose proof (reachable_constructed_sets _ _ Hreach) as Hsets.
  apply reachable_constructed in Hreach.
  pose proof (c_square _ _ Hreach) as Hsq.
  split; [apply (cs_encoded_state _ Hsets) |].
  intros [Hx Hy]. rewrite (cs_encoded_state _ Hsets).
  destruct (state self) as [x y]. apply decode_encode. cbn in Hy. lia.
Qed.

End ConstructedSets.

(** ** Actions outside the action list *)

Section ActionIndex.

Context {R : Type} `{RewardDistribution R}.

Lemma default_actions_getitem (i : Z) :
  0 <= i < 4 -> py_getitem [0; 1; 2; 3] i = Ok i.
Proof.
  intros Hi. assert (Hcases : i = 0 \/ i = 1 \/ i = 2 \/ i = 3) by lia.
  destruct Hcases as [-> | [-> | [-> | ->]]]; reflexivity.
Qed.

(** X14: with the default actions, an intended action below [-4] or above
    3 makes [set_action_probabilities], and with it [step], raise
    [IndexError]; an intended action from [-4] to [-1] is accepted and
    treated as the action four above it. *)
Theorem action_index_handling (params : Params R) (self : GridWorld R) (a : Z) :
  reachable params self -> p_actions params = None ->
  (a < -4 \/ 4 <= a ->
   set_action_probabilities self a = Raise IndexError /\
   forall rng, step self a rng = Raise IndexError) /\
  (-4 <= a < 0 ->
   set_action_probabilities self a = set_action_probabilities self (a + 4)).
Proof.
  intros Hreach Hdefault. apply reachable_constructed in Hreach.
  destruct (default_actions_constructed _ _ Hreach Hdefault)
    as (Hacts & Hn & Htps & _).
  split.
  - intros Hout.
    assert (Hraise : set_action_probabilities self a = Raise IndexError).
    { unfold set_action_probabilities, py_mod. rewrite Hacts, Hn, Htps.
      rewrite bool_decide_eq_false_2 by lia. cbn [mbind result_bind].
      rewrite !default_actions_getitem by (apply Z.mod_pos_bound; lia).
      cbn [mbind result_bind].
      change (py_getitem _ 0) with (Ok (p_proba params)).
      cbn [mbind result_bind]. unfold py_setitem at 4.
      unfold py_index. rewrite py_repeat_length.
      rewrite !bool_decide_eq_false_2 by lia. reflexivity. }
    split; [exact Hraise |]. intros rng. unfold step. by rewrite Hraise.
  - intros Hneg. unfold set_action_probabilities. rewrite Hacts, Hn, Htps.
    assert (Hcases : a = -4 \/ a = -3 \/ a = -2 \/ a = -1) by lia.
    destruct Hcases as [-> | [-> | [-> | ->]]]; reflexivity.
Qed.

End ActionIndex.

(** ** Weights and features of the first task mode *)

Lemma py_getitem_fmap {A B} (f : A -> B) (l : list A) (i : Z) :
  py_getitem (f <$> l) i = py_getitem l i ≫= fun a => Ok (f a).
Proof.
  unfold py_getitem. rewrite length_fmap.
  destruct (py_index (length l) i) as [k | |]; cbn; try reflexivity.
  rewrite list_lookup_fmap. by destruct (l !! k).
Qed.

Lemma dot_zeros (n : nat) (l : list Q) : (dot (replicate n 0%Q) l == 0)%Q.
Proof.
  revert l. induction n as [| n IH]; intros [| x l]; try reflexivity.
  unfold dot in *. cbn. rewrite IH. ring.
Qed.

Lemma dot_one_hot (n k : nat) (l : list Q) (x : Q) :
  (k < n)%nat -> l !! k = Some x ->
  (dot (<[k := 1%Q]> (replicate n 0%Q)) l == x)%Q.
Proof.
  revert k l. induction n as [| n IH]; intros k l Hk Hl; [lia |].
  destruct l as [| y l]; [by rewrite lookup_nil in Hl |].
  destruct k as [| k]; cbn in Hl.
  - injection Hl as ->. unfold dot. cbn.
    pose proof (dot_zeros n l) as Hz. unfold dot in Hz. rewrite Hz. ring.
  - unfold dot in *. cbn. rewrite (IH k l) by (lia || done). ring.
Qed.

Section FirstTaskMode.

Context {R : Type} `{RewardDistribution R}.

(** After the loop every listed state holds the expected reward of its
    decoded cell, and the other entries are untouched. *)
Lemma fill_weights_lookup (self : GridWorld R) states ws ws' :
  fill_weights self states ws = Ok ws' ->
  (forall s, s ∈ states -> 0 <= s < Z.of_nat (length ws)) ->
  NoDup states ->
  (forall s, s ∈ states ->
     exists row v,
       py_getitem (expected_rewards self) (snd (decode_state self s)) = Ok row /\
       py_getitem row (fst (decode_state self s)) = Ok v /\
       ws' !! Z.to_nat s = Some v) /\
  (forall i, (forall s, s ∈ states -> Z.to_nat s <> i) -> ws' !! i = ws !! i).
Proof.
  revert ws. induction states as [| s0 states IH]; intros ws Hfill Hrange Hnodup.
  - injection Hfill as <-. split; [| done].
    intros s Hs. by apply elem_of_nil in Hs.
  - cbn in Hfill. bind_inv Hfill as row Hrow. bind_inv Hfill as v Hv.
    bind_inv Hfill as ws1 Hset.
    apply NoDup_cons in Hnodup as [Hfresh Hnodup].
    assert (Hs0 : 0 <= s0 < Z.of_nat (length ws))
      by (apply Hrange; by left).
    rewrite py_setitem_in_range in Hset by done. injection Hset as <-.
    destruct (IH _ Hfill) as [Hhit Hmiss]; [| exact Hnodup |].
    { intros s Hs. rewrite length_insert. apply Hrange. by right. }
    split.
    + intros s Hs. apply elem_of_cons in Hs as [-> | Hs]; [| by apply Hhit].
      exists row, v. repeat split; [exact Hrow | exact Hv |].
      rewrite Hmiss.
      * apply list_lookup_insert_eq. lia.
      * intros s Hs Heq.
        destruct (Hrange s) as [Hpos _]; [by right |].
        assert (s = s0) by lia. by subst.
    + intros i Hi. rewrite Hmiss.
      * apply list_lookup_insert_ne. apply Hi. by left.
      * intros s Hs. apply Hi. by right.
Qed.

Lemma first_task_mode (params : Params R) (self : GridWorld R) :
  constructed params self -> p_task params <> Some VARYING_VALUES ->
  String.eqb (task self) VARYING_VALUES = false.
Proof.
  intros Hc Htask. rewrite (c_task _ _ Hc).
  destruct (p_task params) as [t |]; [| reflexivity]. cbn.
  apply String.eqb_neq. congruence.
Qed.

Lemma weights_lookup_expected_reward (params : Params R) (self : GridWorld R)
    (s : Z) :
  reachable params self -> p_task params <> Some VARYING_VALUES ->
  0 <= s < n_states self ->
  length (weights self) = Z.to_nat (n_states self) /\
  exists q,
    get_expected_reward self (decode_state self s) 0 (decode_state self s)
    = Ok q /\
    weights self !! Z.to_nat s = Some (WFloat q).
Proof.
  intros Hreach Htask Hs. apply reachable_constructed in Hreach.
  pose proof (constructed_well_formed _ _ Hreach) as Hwf.
  pose proof (first_task_mode _ _ Hreach Htask) as Hmode.
  pose proof (c_weights _ _ Hreach) as Hws.
  pose proof (get_weights_length_states _ _ Hwf Hmode Hws) as Hlen.
  rewrite <- (wf_n_states _ Hwf) in Hlen. split; [exact Hlen |].
  unfold get_weights in Hws. rewrite Hmode in Hws.
  destruct (np_shape (expected_rewards self)) as [[rows cols] |];
    [| discriminate].
  bind_inv Hws as ws0 Hfill. injection Hws as Hws.
  pose proof (fill_weights_length _ _ _ _ Hfill) as Hlen0.
  assert (Hzeros : length (np_zeros (rows * cols)) = Z.to_nat (n_states self)).
  { rewrite <- Hlen0, <- Hlen, <- Hws. by rewrite length_fmap. }
  destruct (fill_weights_lookup _ _ _ _ Hfill) as [Hhit _].
  { intros s' Hs'. apply in_range_states in Hs'. rewrite Hzeros. lia. }
  { apply NoDup_seqZ. }
  destruct (Hhit s) as (row & v & Hrow & Hv & Hlookup);
    [by apply in_range_states |].
  exists v. split.
  - unfold get_expected_reward. cbn [fst snd].
    rewrite (wf_expected _ Hwf), py_getitem_fmap in Hrow.
    destruct (py_getitem (rewards self) _) as [cells | |]; try discriminate.
    cbn in Hrow. injection Hrow as <-. cbn.
    rewrite py_getitem_fmap in Hv.
    destruct (py_getitem cells _) as [r | |]; try discriminate.
    cbn in Hv. injection Hv as <-. reflexivity.
  - rewrite <- Hws, list_lookup_fmap, Hlookup. reflexivity.
Qed.

(** X15: in the first task mode the weight vector is the flattened grid
    of expected rewards: entry [s] is the expected reward of the cell
    [decode_state s], for every state [s]. *)
Theorem weights_are_expected_rewards (params : Params R) (self : GridWorld R)
    (s : Z) :
  reachable params self -> p_task params <> Some VARYING_VALUES ->
  0 <= s < n_states self ->
  length (weights self) = Z.to_nat (n_states self) /\
  exists q,
    get_expected_reward self (decode_state self s) 0 (decode_state self s)
    = Ok q /\
    weights self !! Z.to_nat s = Some (WFloat q).
Proof. apply weights_lookup_expected_reward. Qed.

(** X16: in the first task mode the feature vector of a transition into a
    cell [next_state] of the grid is the indicator of
    [encode_state next_state], and its inner product with the weight vector
    is the expected reward of [next_state]. *)
Theorem features_decompose_expected_reward (params : Params R)
    (self : GridWorld R) (state : Coordinate) (action : Z)
    (next_state : Coordinate) :
  reachable params self -> p_task params <> Some VARYING_VALUES ->
  in_bounds self next_state ->
  exists q v,
    get_expected_reward self state action next_state = Ok q /\
    get_feature_vector self state action next_state = Ok v /\
    v = <[Z.to_nat (encode_state self next_state) := 1%Q]>
          (replicate (Z.to_nat (n_states self)) 0%Q) /\
    (dot v (weight_value <$> weights self) == q)%Q.
Proof.
  intros Hreach Htask Hin.
  pose proof (reachable_constructed _ _ Hreach) as Hc.
  pose proof (constructed_well_formed _ _ Hc) as Hwf.
  pose proof (c_square _ _ Hc) as Hsq.
  pose proof (first_task_mode _ _ Hc Htask) as Hmode.
  destruct (codec_square self (wf_width _ Hwf) Hsq) as [Henc _].
  destruct (Henc _ Hin) as [Hround Hrange].
  rewrite <- (wf_n_states _ Hwf) in Hrange.
  destruct (weights_lookup_expected_reward params self
              (encode_state self next_state) Hreach Htask Hrange)
    as (Hlen & q & Hq & Hlookup).
  rewrite Hround in Hq.
  exists q. eexists. split; [exact Hq |].
  unfold get_feature_vector. rewrite Hmode.
  rewrite (c_n_weights _ _ Hc), Hlen.
  unfold np_zeros. rewrite py_setitem_in_range
    by (rewrite py_repeat_length; lia).
  unfold py_repeat. rewrite !Z2Nat.id by lia.
  split; [reflexivity |]. split; [reflexivity |].
  apply dot_one_hot; [lia |].
  by rewrite list_lookup_fmap, Hlookup.
Qed.

End FirstTaskMode.

(** ** Plotting a trajectory *)

Section Trajectory.

Context {R : Type} `{RewardDistribution R}.

(** What a finished trajectory loop leaves behind. *)
Lemma trajectory_loop_Ok (fuel : nat) (self : GridWorld R) pi acts locations
    self' acts' locations' :
  trajectory_loop fuel self pi acts locations = Ok (self', acts', locations') ->
  exists new_acts new_locations,
    acts' = acts ++ new_acts /\
    locations' = locations ++ new_locations /\
    length new_acts = length new_locations /\
    last (state self :: new_locations) = Some (state self') /\
    state self' ∈ terminal_states self /\
    configuration self' = configuration self /\
    encoded_state self' = encoded_state self /\
    transitions self' = transitions self.
Proof.
  revert self acts locations.
  induction fuel as [| fuel IH]; intros self acts locations; [discriminate |].
  cbn [trajectory_loop]. case_bool_decide as Hterm.
  - intros Hloop. bind_inv Hloop as action Haction.
    apply IH in Hloop
      as (new_acts & new_locations & -> & -> & Hlen & Hlast & Hend & Hcfg
          & Henc & Htrs).
    exists (action :: new_acts), (move_agent self action :: new_locations).
    rewrite <- !app_assoc.
    split; [reflexivity |]. split; [reflexivity |].
    split; [cbn; by rewrite Hlen |].
    split; [exact Hlast |]. split; [exact Hend |].
    split; [exact Hcfg |]. split; [exact Henc | exact Htrs].
  - intros [= <- <- <-]. exists [], [].
    rewrite !app_nil_r. repeat split; try reflexivity. exact Hterm.
Qed.

(** A policy whose action does not move the agent keeps the loop
    running. *)
Lemma trajectory_loop_stuck (fuel : nat) (self : GridWorld R) pi acts
    locations action :
  state self ∉ terminal_states self ->
  py_getitem pi (encode_state self (state self)) = Ok action ->
  move_agent self action = state self ->
  trajectory_loop fuel self pi acts locations = Exhausted.
Proof.
  revert self acts locations.
  induction fuel as [| fuel IH]; intros self acts locations Hterm Haction Hmove;
    [reflexivity |].
  cbn [trajectory_loop]. rewrite bool_decide_eq_true_2 by done.
  rewrite Haction. cbn [mbind result_bind]. rewrite Hmove.
  apply IH; cbn; assumption.
Qed.

(** X17: [plot_trajectory] needs a configured initial state and raises
    its assertion without one.  When it returns, the plotted locations
    start at the initial state and end at the agent's final coordinate,
    which is terminal; there is one arrow per move; no randomness was
    used; and the object is left with an empty transition log and with
    [encoded_state] still the encoding of the initial state. *)
Theorem plot_trajectory_outcome (fuel : nat) (self : GridWorld R) (pi : list Z)
    (title : option string) (rng : RandomState) :
  (initial_state self = None ->
   plot_trajectory fuel self pi title rng
   = Raise (AssertionError "Initial state not specified")) /\
  (forall self' values arrows locations title' rng',
     plot_trajectory fuel self pi title rng
     = Ok (self', (values, arrows, locations, title'), rng') ->
     exists start,
       initial_state self = Some start /\
       rng' = rng /\
       head locations = Some start /\
       last locations = Some (state self') /\
       state self' ∈ terminal_states self /\
       length locations = S (length arrows) /\
       transitions self' = [] /\
       encoded_state self' = encode_state self start /\
       values = expected_rewards self /\
       title' = default "Trajectory" title).
Proof.
  split.
  - intros Hnone. unfold plot_trajectory, require_initial_state.
    by rewrite Hnone.
  - intros self' values arrows locations title' rng'.
    unfold plot_trajectory, require_initial_state.
    destruct (initial_state self) as [start |] eqn:Hstart; [| discriminate].
    cbn [mbind result_bind]. intros Hrun.
    bind_inv Hrun as [[enc self1] rng1] Hreset.
    bind_inv Hrun as [[self2 acts] locations2] Hloop.
    injection Hrun as <- <- <- <- <- <-.
    unfold reset in Hreset. rewrite Hstart in Hreset.
    cbn [mbind result_bind] in Hreset. injection Hreset as <- <- <-.
    apply trajectory_loop_Ok in Hloop
      as (new_acts & new_locations & -> & -> & Hlen & Hlast & Hend & Hcfg
          & Henc & Htrs).
    exists start.
    split; [reflexivity |]. split; [reflexivity |].
    split; [reflexivity |]. split; [exact Hlast |].
    split; [exact Hend |].
    split; [rewrite length_fmap; cbn; by rewrite Hlen |].
    split; [exact Htrs |]. split; [exact Henc |].
    split; [| reflexivity].
    change (expected_rewards (configuration self2)
            = expected_rewards (configuration self)).
    by rewrite Hcfg.
Qed.

(** X18: a policy that sends the agent from a non-terminal initial state
    of the grid into a wall or a barrier keeps [plot_trajectory] in its
    loop for ever: whatever the bound on the number of turns, the loop is
    still running when the bound is reached. *)
Theorem plot_trajectory_never_returns_when_blocked (fuel : nat)
    (self : GridWorld R) (pi : list Z) (title : option string)
    (rng : RandomState) (start : Coordinate) (action : Z) :
  initial_state self = Some start ->
  in_bounds self start -> start ∉ terminal_states self ->
  py_getitem pi (encode_state self start) = Ok action ->
  blocked self start action ->
  plot_trajectory fuel self pi title rng = Exhausted.
Proof.
  intros Hstart Hin Hterm Haction Hblocked.
  unfold plot_trajectory, require_initial_state, reset.
  rewrite Hstart. cbn [mbind result_bind].
  erewrite trajectory_loop_stuck; [reflexivity | exact Hterm | exact Haction |].
  by apply (move_agent_blocked
              (set_episode _ _ start _) action Hin Hblocked).
Qed.

End Trajectory.

(** ** Plotting a policy *)

Section Policy.

Context {R : Type} `{RewardDistribution R}.

Lemma policy_arrows_total (pi_state : list Q) (acts : list Z)
    (arrow_state : list string) :
  (forall a, a ∈ acts -> 0 <= a < Z.of_nat (length pi_state)) ->
  exists arrows, policy_arrows pi_state acts arrow_state = Ok arrows.
Proof.
  revert arrow_state. induction acts as [| a acts IH]; intros arrow_state Hacts.
  - cbn. eauto.
  - cbn. destruct (py_getitem_in_range pi_state a) as (v & _ & ->).
    { apply Hacts. by left. }
    cbn. apply IH. intros a' Ha'. apply Hacts. by right.
Qed.

(** The outer loop plots the decoded states that are not terminal codes,
    in order, with one arrow list each. *)
Lemma policy_loop_Ok (self : GridWorld R) (pi : list (list Q)) terms states
    arrow_policy locations :
  (forall i, i ∈ states -> 0 <= i < Z.of_nat (length pi)) ->
  Forall (fun row => Z.of_nat (length row) = n_actions self) pi ->
  exists new_arrows,
    policy_loop self pi terms states arrow_policy locations
    = Ok (arrow_policy ++ new_arrows,
          locations ++ (decode_state self <$> filter (fun i => i ∉ terms) states))
    /\ length new_arrows = length (filter (fun i => i ∉ terms) states).
Proof.
  intros Hstates Hrows. revert arrow_policy locations.
  induction states as [| i states IH]; intros arrow_policy locations.
  - exists []. cbn. by rewrite !app_nil_r.
  - assert (Hrest : forall j, j ∈ states -> 0 <= j < Z.of_nat (length pi))
      by (intros j Hj; apply Hstates; by right).
    specialize (IH Hrest).
    cbn [policy_loop]. rewrite filter_cons.
    destruct (decide (i ∉ terms)) as [Hi | Hi].
    + rewrite bool_decide_eq_true_2 by done.
      destruct (py_getitem_in_range pi i) as (row & Hrow & ->);
        [apply Hstates; by left |].
      cbn [mbind result_bind].
      destruct (policy_arrows_total row (py_range (n_actions self)) [])
        as [arrows ->].
      { intros a Ha. apply elem_of_seqZ in Ha.
        rewrite Forall_forall in Hrows.
        rewrite (Hrows row) by (by eapply list_elem_of_lookup_2). lia. }
      cbn [mbind result_bind].
      destruct (IH (arrow_policy ++ [arrows])
                  (locations ++ [decode_state self i]))
        as (new_arrows & -> & Hlen).
      exists (arrows :: new_arrows). rewrite <- !app_assoc. cbn.
      by rewrite Hlen.
    + rewrite bool_decide_eq_false_2 by done.
      destruct (IH arrow_policy locations) as (new_arrows & -> & Hlen).
      by exists new_arrows.
Qed.

(** X19: given a policy table with one row per state and one entry per
    action, [plot_policy] returns, hands [heat_map] one arrow list per
    plotted location, and plots exactly the coordinates of the grid that
    are not terminal states. *)
Theorem plot_policy_locations (params : Params R) (self : GridWorld R)
    (pi : list (list Q)) (values : option (list (list Q)))
    (title : option string) :
  reachable params self ->
  Z.of_nat (length pi) = n_states self ->
  Forall (fun row => Z.of_nat (length row) = n_actions self) pi ->
  exists arrow_policy locations,
    plot_policy self pi values title
    = Ok (default (expected_rewards self) values, arrow_policy, locations,
          default "Heat Map of Policy" title) /\
    length arrow_policy = length locations /\
    forall c, c ∈ locations <->
              in_bounds self c /\ c ∉ terminal_states self.
Proof.
  intros Hreach Hlen Hrows.
  pose proof (reachable_constructed_sets _ _ Hreach) as Hsets.
  apply reachable_constructed in Hreach.
  pose proof (constructed_well_formed _ _ Hreach) as Hwf.
  pose proof (c_square _ _ Hreach) as Hsq.
  destruct (codec_square self (wf_width _ Hwf) Hsq) as [Henc Hdec].
  unfold plot_policy.
  destruct (policy_loop_Ok self pi (encode_state self <$> terminal_states self)
              (py_range (n_states self)) [] [])
    as (new_arrows & -> & Hnew); [| exact Hrows |].
  { intros i Hi. apply in_range_states in Hi. lia. }
  cbn [mbind result_bind app]. eexists _, _. split; [reflexivity |].
  split; [by rewrite Hnew, length_fmap |].
  intros c. rewrite list_elem_of_fmap. split.
  - intros (i & -> & Hi). apply list_elem_of_filter in Hi as [Hfree Hi].
    apply in_range_states in Hi. rewrite (wf_n_states _ Hwf) in Hi.
    destruct (Hdec i Hi) as [Hround Hin]. split; [exact Hin |].
    intros Hterm. apply Hfree. apply list_elem_of_fmap.
    exists (decode_state self i). by split.
  - intros [Hin Hfree]. destruct (Henc c Hin) as [Hround Hrange].
    exists (encode_state self c). split; [done |].
    apply list_elem_of_filter. split.
    + intros Hcode. apply list_elem_of_fmap in Hcode as (t & Heq & Ht).
      pose proof (cs_terminal_states _ Hsets) as Hts.
      rewrite Forall_forall in Hts.
      destruct (Henc t (Hts t Ht)) as [Hround' _].
      apply Hfree. rewrite <- Hround, Heq, Hround'. exact Ht.
    + apply in_range_states. by rewrite (wf_n_states _ Hwf).
Qed.

End Policy.

(** ** The state after construction *)

Section InitialState.

Context {R : Type} `{RewardDistribution R}.

(** X20: the constructor does not check a configured initial state.  It
    passes it through the codec: the object starts at
    [decode_state (encode_state initial_state)], which is the initial state
    when that lies on the grid, and it uses no randomness. *)
Theorem init_state_from_initial_state (params : Params R) rng
    (self : GridWorld R) rng' (start : Coordinate) :
  init params rng = Ok (self, rng') ->
  p_initial_state params = Some start ->
  rng' = rng /\
  state self = decode_state self (encode_state self start) /\
  encoded_state self = encode_state self start /\
  (in_bounds self start -> state self = start).
Proof.
  intros Hinit Hstart.
  pose proof (init_square _ _ _ _ Hinit) as [Hsq Hwf].
  apply init_Ok in Hinit
    as (self0 & enc & self1 & ws & bs & Hfields & Hreset & _ & _ & Hself).
  apply init_fields_Ok in Hfields as (_ & _ & _ & _ & _ & _ & Hinitial & _).
  rewrite Hstart in Hinitial.
  unfold reset in Hreset. rewrite Hinitial in Hreset.
  cbn [mbind result_bind] in Hreset. injection Hreset as <- <- <-.
  assert (Hstate : state self
                   = decode_state self (encode_state self start))
    by (by rewrite Hself).
  assert (Henc : encoded_state self = encode_state self start)
    by (by rewrite Hself).
  split; [reflexivity |]. split; [exact Hstate |]. split; [exact Henc |].
  intros [Hx Hy]. rewrite Hstate. destruct start as [x y].
  apply decode_encode. cbn in Hy. lia.
Qed.

End InitialState.

(** ** The properties above on concrete objects *)

(** Closes a ground comparison of integers. *)
Ltac ground_order :=
  vm_compute; repeat split; first [reflexivity | discriminate].

(** The constructor's object for [params]. *)
Ltac construct :=
  eexists; split; [vm_compute; reflexivity |].

Lemma init_requires_square_grid_witness :
  exists self : GridWorld PointMass,
    init square_grid [] = Ok (self, []) /\
    height self = 3 /\ width self = 3.
Proof.
  construct.
  match goal with
  | |- height ?self = _ /\ _ =>
      assert (Hinit : init square_grid [] = Ok (self, []))
        by (vm_compute; reflexivity)
  end.
  pose proof (init_requires_square_grid _ _ _ _ Hinit) as (Hh & Hw & _).
  split; [exact Hh | exact Hw].
Defined.

Lemma init_checks_dimensions_and_probability_witness :
  init flat_grid []
  = Raise (AssertionError "Height should be a positive integer").
Proof.
  apply (proj1 (init_checks_dimensions_and_probability flat_grid [])).
  ground_order.
Defined.

Lemma init_two_actions_divide_by_zero_witness :
  init two_action_grid [] = Raise ZeroDivisionError.
Proof.
  apply (init_two_actions_divide_by_zero two_action_grid [] [0; 1]).
  - ground_order.
  - intros w Hw. discriminate.
  - ground_order.
  - reflexivity.
  - reflexivity.
Defined.

Lemma init_checks_listed_states_witness :
  init stray_terminal_grid []
  = Raise (AssertionError
      "Terminal states should be tuples of length 2 within grid bounds").
Proof.
  refine (proj1 (init_checks_listed_states stray_terminal_grid [] _ _ _ _)
            [(3, 0)] (3, 0) _ _ _).
  - ground_order.
  - intros w Hw. discriminate.
  - ground_order.
  - vm_compute. discriminate.
  - reflexivity.
  - constructor.
  - intros [[_ Hx] _]. vm_compute in Hx. discriminate.
Defined.

Lemma reset_start_witness :
  exists (self self' : GridWorld PointMass),
    init square_grid [] = Ok (self, []) /\
    reset self [] = Ok (4, self', []) /\
    transitions self' = [] /\ state self' = (1, 1).
Proof.
  eexists _, _. split; [vm_compute; reflexivity |].
  match goal with
  | |- ?run = Ok (_, ?self', _) /\ _ =>
      assert (Hreset : run = Ok (4, self', [])) by (vm_compute; reflexivity)
  end.
  split; [exact Hreset |].
  pose proof (reset_start _ _ _ _ _ Hreset) as (Hlog & _ & _ & _ & Hstart).
  split; [exact Hlog | exact (proj1 Hstart)].
Defined.

Lemma reset_never_returns_when_all_terminal_witness :
  exists self : GridWorld PointMass,
    init_fields (default_params 1 None) = Ok self /\
    reset self [0.5; 0.25; 0.75; 0.125]%Q = Exhausted.
Proof.
  construct.
  apply reset_never_returns_when_all_terminal.
  - ground_order.
  - ground_order.
  - reflexivity.
  - intros [x y] [Hx Hy]. cbn in Hx, Hy.
    assert (x = 0) as -> by lia. assert (y = 0) as -> by lia. constructor.
Defined.

Lemma steps_stay_on_grid_witness :
  exists (self self' : GridWorld PointMass),
    init blocked_grid [] = Ok (self, []) /\
    run_steps self [UP; RIGHT] [0.5; 0.5]%Q
    = Ok ([(1, 1); (2, 1)], self', []) /\
    Forall (in_bounds self) [(1, 1); (2, 1)].
Proof.
  eexists _, _. split; [vm_compute; reflexivity |].
  match goal with
  | |- ?run = Ok (_, ?self', _) /\ _ =>
      assert (Hrun : run = Ok ([(1, 1); (2, 1)], self', []))
        by (vm_compute; reflexivity)
  end.
  split; [exact Hrun |].
  refine (proj1 (steps_stay_on_grid _ _ _ _ _ _ _ Hrun)).
  ground_order.
Defined.

Lemma move_agent_reaches_free_destination_witness :
  exists self : GridWorld PointMass,
    init open_grid [] = Ok (self, []) /\
    move_agent self UP = (0, 1).
Proof.
  construct.
  apply move_agent_reaches_free_destination.
  - reflexivity.
  - ground_order.
  - intros Hin. by apply elem_of_nil in Hin.
Defined.

Lemma transitions_follow_the_episode_witness :
  exists (self self1 self2 : GridWorld PointMass),
    init blocked_grid [] = Ok (self, []) /\
    reset self [0.5; 0.5]%Q = Ok (4, self1, [0.5; 0.5]%Q) /\
    run_steps self1 [UP; RIGHT] [0.5; 0.5]%Q
    = Ok ([(1, 1); (2, 1)], self2, []) /\
    length (transitions self2) = 2%nat.
Proof.
  eexists _, _, _. split; [vm_compute; reflexivity |].
  match goal with
  | |- ?run = Ok (_, ?self1, _) /\ _ =>
      assert (Hreset : run = Ok (4, self1, [0.5; 0.5]%Q))
        by (vm_compute; reflexivity)
  end.
  split; [exact Hreset |].
  match goal with
  | |- ?run = Ok (_, ?self2, _) /\ _ =>
      assert (Hrun : run = Ok ([(1, 1); (2, 1)], self2, []))
        by (vm_compute; reflexivity)
  end.
  split; [exact Hrun |].
  exact (proj1 (transitions_follow_the_episode _ _ _ _ _ _ _ _ _ Hreset Hrun)).
Defined.

Lemma render_follows_the_episode_witness :
  exists (self self1 self2 : GridWorld PointMass),
    init blocked_grid [] = Ok (self, []) /\
    reset self [0.5; 0.5]%Q = Ok (4, self1, [0.5; 0.5]%Q) /\
    run_steps self1 [UP; RIGHT] [0.5; 0.5]%Q
    = Ok ([(1, 1); (2, 1)], self2, []) /\
    snd (render self2) = [(1, 1); (1, 1)].
Proof.
  eexists _, _, _. split; [vm_compute; reflexivity |].
  match goal with
  | |- ?run = Ok (_, ?self1, _) /\ _ =>
      assert (Hreset : run = Ok (4, self1, [0.5; 0.5]%Q))
        by (vm_compute; reflexivity)
  end.
  split; [exact Hreset |].
  match goal with
  | |- ?run = Ok (_, ?self2, _) /\ _ =>
      assert (Hrun : run = Ok ([(1, 1); (2, 1)], self2, []))
        by (vm_compute; reflexivity)
  end.
  split; [exact Hrun |].
  pose proof (render_follows_the_episode _ _ _ _ _ _ _ _ _ Hreset Hrun)
    as Hrender.
  destruct (render _) as [[values arrows] locations].
  destruct Hrender as (_ & _ & ->). reflexivity.
Defined.

(** An object the constructor returned is in use. *)
Ltac in_use := apply (reachable_init _ [] _ []); vm_compute; reflexivity.

Lemma step_executes_intended_or_neighbour_witness :
  exists (self self' : GridWorld PointMass),
    init open_grid [] = Ok (self, []) /\
    step self UP [0.5%Q] = Ok (1, (-1)%Q, false, self', []) /\
    exists t, last (transitions self') = Some t /\ tr_action t = UP.
Proof.
  eexists _, _. split; [vm_compute; reflexivity |].
  match goal with
  | |- ?run = Ok (_, _, _, ?self', _) /\ _ =>
      assert (Hrun : run = Ok (1, (-1)%Q, false, self', []))
        by (vm_compute; reflexivity)
  end.
  split; [exact Hrun |].
  match type of Hrun with
  | step ?self _ _ = _ =>
      assert (Hreach : reachable open_grid self) by in_use
  end.
  assert (Hup : 0 <= UP < 4) by (unfold UP; lia).
  pose proof (step_executes_intended_or_neighbour open_grid _ UP _ _ _ _ _ _
                Hreach eq_refl Hup Hrun) as (t & Hlast & _ & _ & Hsure & _).
  exists t. split; [exact Hlast |]. apply Hsure. reflexivity.
Defined.

Lemma barrier_set_members_witness :
  exists self : GridWorld PointMass,
    init open_grid [] = Ok (self, []) /\ 0 ∈ barrier_set self.
Proof.
  construct.
  match goal with
  | |- _ ∈ barrier_set ?self =>
      assert (Hreach : reachable open_grid self) by in_use
  end.
  apply (proj1 (barrier_set_members _ _ Hreach)).
  split; [ground_order |].
  exists (-1)%Q. split; [vm_compute; reflexivity | ground_order].
Defined.

Lemma encoded_state_follows_state_witness :
  exists self : GridWorld PointMass,
    init square_grid [] = Ok (self, []) /\
    encoded_state self = encode_state self (state self).
Proof.
  construct.
  match goal with
  | |- encoded_state ?self = _ =>
      assert (Hreach : reachable square_grid self) by in_use
  end.
  exact (proj1 (encoded_state_follows_state _ _ Hreach)).
Defined.

Lemma action_index_handling_witness :
  exists self : GridWorld PointMass,
    init open_grid [] = Ok (self, []) /\
    set_action_probabilities self 4 = Raise IndexError.
Proof.
  construct.
  match goal with
  | |- set_action_probabilities ?self _ = _ =>
      assert (Hreach : reachable open_grid self) by in_use
  end.
  refine (proj1 (proj1 (action_index_handling open_grid _ 4 Hreach eq_refl) _)).
  right. lia.
Defined.

Lemma weights_are_expected_rewards_witness :
  exists self : GridWorld PointMass,
    init open_grid [] = Ok (self, []) /\
    exists q, weights self !! 8%nat = Some (WFloat q).
Proof.
  construct.
  match goal with
  | |- exists q, weights ?self !! _ = _ =>
      assert (Hreach : reachable open_grid self) by in_use
  end.
  destruct (weights_are_expected_rewards open_grid _ 8 Hreach)
    as (_ & q & _ & Hq).
  - discriminate.
  - ground_order.
  - by exists q.
Defined.

Lemma features_decompose_expected_reward_witness :
  exists self : GridWorld PointMass,
    init open_grid [] = Ok (self, []) /\
    exists q v,
      get_feature_vector self (2, 1) UP (2, 2) = Ok v /\
      (dot v (weight_value <$> weights self) == q)%Q.
Proof.
  construct.
  match goal with
  | |- exists q v, get_feature_vector ?self _ _ _ = _ /\ _ =>
      assert (Hreach : reachable open_grid self) by in_use
  end.
  destruct (features_decompose_expected_reward open_grid _ (2, 1) UP (2, 2)
              Hreach)
    as (q & v & _ & Hv & _ & Hdot).
  - discriminate.
  - ground_order.
  - exists q, v. by split.
Defined.

Lemma plot_trajectory_outcome_witness :
  exists (self self' : GridWorld PointMass) values,
    init near_goal_grid [] = Ok (self, []) /\
    plot_trajectory 5 self always_up None []
    = Ok (self', (values, ["↓"], [(2, 1); (2, 2)], "Trajectory"), []) /\
    transitions self' = [] /\ encoded_state self' = 7.
Proof.
  eexists _, _, _. split; [vm_compute; reflexivity |].
  match goal with
  | |- ?run = Ok (?self', (?values, _, _, _), _) /\ _ =>
      assert (Hrun : run = Ok (self', (values, ["↓"], [(2, 1); (2, 2)],
                                       "Trajectory"), []))
        by (vm_compute; reflexivity)
  end.
  split; [exact Hrun |].
  pose proof (proj2 (plot_trajectory_outcome _ _ _ _ _) _ _ _ _ _ _ Hrun)
    as (start & Hstart & _ & _ & _ & _ & _ & Hlog & Henc & _).
  split; [exact Hlog |].
  injection Hstart as <-. exact Henc.
Defined.

Lemma plot_trajectory_never_returns_when_blocked_witness :
  exists self : GridWorld PointMass,
    init blocked_grid [] = Ok (self, []) /\
    plot_trajectory 10 self always_up None [] = Exhausted.
Proof.
  construct.
  apply (plot_trajectory_never_returns_when_blocked _ _ _ _ _ (1, 1) UP).
  - reflexivity.
  - ground_order.
  - intros Hin. apply list_elem_of_singleton in Hin. discriminate.
  - vm_compute. reflexivity.
  - exists (1, 2). split; [reflexivity | right; constructor].
Defined.

Lemma plot_policy_locations_witness :
  exists self : GridWorld PointMass,
    init open_grid [] = Ok (self, []) /\
    exists arrow_policy locations,
      plot_policy self always_up_table None None
      = Ok (expected_rewards self, arrow_policy, locations,
            "Heat Map of Policy") /\
      length arrow_policy = length locations.
Proof.
  construct.
  match goal with
  | |- exists a l, plot_policy ?self _ _ _ = _ /\ _ =>
      assert (Hreach : reachable open_grid self) by in_use
  end.
  destruct (plot_policy_locations open_grid _ always_up_table None None Hreach)
    as (arrow_policy & locations & Hrun & Hlen & _).
  - reflexivity.
  - repeat constructor.
  - exists arrow_policy, locations. by split.
Defined.

Lemma init_state_from_initial_state_witness :
  exists self : GridWorld PointMass,
    init stray_start_grid [] = Ok (self, []) /\
    state self = decode_state self (encode_state self (0, 5)).
Proof.
  construct.
  match goal with
  | |- state ?self = _ =>
      assert (Hinit : init stray_start_grid [] = Ok (self, []))
        by (vm_compute; reflexivity)
  end.
  exact (proj1 (proj2 (init_state_from_initial_state _ _ _ _ _ Hinit eq_refl))).
Defined.
